(** * OAuth backend (Node.js + Express): credential store, state codec,
      provider callbacks and the credential exposure endpoint.

    The development embeds the JavaScript of [db.js], [routes/credentials.js]
    and the five provider routes.  JavaScript strings are sequences of UTF-16
    code units, held as [list Z], and numbers are binary64 values; the
    built-in functions the routes call ([JSON.stringify], [JSON.parse],
    [encodeURIComponent], [decodeURIComponent], [String.prototype.replace])
    are written out after ECMA-262, and what better-sqlite3 and SQLite do
    with the values of a statement after their documentation. *)

From Stdlib Require Import String Ascii ZArith List Bool Lia Permutation.
Import ListNotations.
Local Open Scope Z_scope.
Set Warnings "-register-all".

(* ================================================================== *)
(** ** JavaScript values *)

Module JS.

(** A string is the list of its UTF-16 code units. *)
Definition jsstring := list Z.

(** The code units of an ASCII literal of the source. *)
Definition js (s : string) : jsstring :=
  map (fun a => Z.of_N (N_of_ascii a)) (list_ascii_of_string s).

Definition is_code_unit (c : Z) : Prop := 0 <= c < 65536.

Definition wf_string (s : jsstring) : Prop := Forall is_code_unit s.

Fixpoint str_eqb (a b : jsstring) : bool :=
  match a, b with
  | [], [] => true
  | x :: a', y :: b' => (x =? y) && str_eqb a' b'
  | _, _ => false
  end.

(** [s] starts with [w]: what is left of [s]. *)
Fixpoint strip_prefix (w s : jsstring) : option jsstring :=
  match w, s with
  | [], _ => Some s
  | x :: w', y :: s' => if x =? y then strip_prefix w' s' else None
  | _ :: _, [] => None
  end.

(** [s.replace(pat, repl)] for a string pattern and a replacement without
    dollar patterns: the first occurrence of [pat] is replaced. *)
Fixpoint replace_first (pat repl s : jsstring) : jsstring :=
  match strip_prefix pat s with
  | Some r => repl ++ r
  | None =>
      match s with
      | [] => []
      | c :: rest => c :: replace_first pat repl rest
      end
  end.

(** Exceptions the modelled code can raise. *)
Inductive exn :=
| URIError      (* decodeURIComponent / encodeURIComponent *)
| SyntaxError   (* JSON.parse *)
| TypeError     (* property read on null or undefined; a value SQLite cannot bind *)
| SqliteError   (* a statement the engine rejects *)
| HttpError.    (* a failed outbound request (axios rejects) *)

Inductive result (A : Type) :=
| Ok (a : A)
| Throw (e : exn).
Arguments Ok {A} a.
Arguments Throw {A} e.

Definition bind {A B} (r : result A) (k : A -> result B) : result B :=
  match r with
  | Ok a => k a
  | Throw e => Throw e
  end.

(** Numbers are IEEE 754 binary64 values.  A finite one is written as the
    decimal [m * 10^e] that it is exactly (every binary64 value has a finite
    decimal expansion), in lowest terms: [e <= 0], and [m] is no multiple of
    10 unless [e = 0].  The sign of zero is not kept: no statement of the
    program tells the two zeros apart. *)
Inductive number :=
| Dec (m e : Z)
| Inf (negative : bool)
| NaN.

(** [n / d] rounded to the nearest integer, a tie to the even one. *)
Definition nearest_even (n d : Z) : Z :=
  let q := n / d in
  let r := n mod d in
  if 2 * r <? d then q
  else if d <? 2 * r then q + 1
  else if Z.even q then q else q + 1.

(** The decimal [m * 10^e] in lowest terms, for [e] down to [- fuel]. *)
Fixpoint lowest_terms (fuel : nat) (m e : Z) : number :=
  match fuel with
  | O => Dec m e
  | S f =>
      if (e <? 0) && (m mod 10 =? 0) then lowest_terms f (m / 10) (e + 1)
      else Dec m e
  end.

(** The number [q * 2^p]. *)
Definition dyadic (q p : Z) : number :=
  if 0 <=? p then Dec (q * 2 ^ p) 0
  else lowest_terms (Z.to_nat (- p)) (q * 5 ^ (- p)) p.

(** The binary64 value nearest to the positive rational [n / d]
    (roundTiesToEven): 53 bits above the exponent -1074, the values from
    2^1024 - 2^970 on round to infinity. *)
Definition nearest_double (n d : Z) : number :=
  let l0 := Z.log2 n - Z.log2 d in
  let below := if 0 <=? l0 then n <? d * 2 ^ l0 else n * 2 ^ (- l0) <? d in
  let l := if below then l0 - 1 else l0 in
  let p := Z.max (l - 52) (-1074) in
  let q := if 0 <=? p then nearest_even n (d * 2 ^ p)
           else nearest_even (n * 2 ^ (- p)) d in
  if (971 <=? p) && (2 ^ 53 <=? q * 2 ^ (p - 971)) then Inf false
  else dyadic q p.

Definition negate (x : number) : number :=
  match x with
  | Dec m e => Dec (- m) e
  | Inf s => Inf (negb s)
  | NaN => NaN
  end.

(** The Number value for a real number written as a decimal.  An integer of
    at most 53 bits is a binary64 value as it stands. *)
Definition to_double (x : number) : number :=
  match x with
  | Dec m e =>
      if (e =? 0) && (Z.abs m <=? 2 ^ 53) then Dec m 0
      else
        match m with
        | Z0 => Dec 0 0
        | Zpos _ =>
            if 0 <=? e then nearest_double (m * 10 ^ e) 1
            else nearest_double m (10 ^ (- e))
        | Zneg _ =>
            negate (if 0 <=? e then nearest_double (- m * 10 ^ e) 1
                    else nearest_double (- m) (10 ^ (- e)))
        end
  | _ => x
  end.

(** Number::equal on finite numbers, whatever the terms they are written
    in. *)
Definition same_value (x y : number) : bool :=
  match x, y with
  | Dec m1 e1, Dec m2 e2 =>
      let e := Z.min e1 e2 in
      m1 * 10 ^ (e1 - e) =? m2 * 10 ^ (e2 - e)
  | Inf a, Inf b => Bool.eqb a b
  | _, _ => false
  end.

(** Number::add: the exact sum, rounded. *)
Definition number_add (x y : number) : number :=
  match x, y with
  | NaN, _ | _, NaN => NaN
  | Inf a, Inf b => if Bool.eqb a b then Inf a else NaN
  | Inf a, Dec _ _ => Inf a
  | Dec _ _, Inf b => Inf b
  | Dec m1 e1, Dec m2 e2 =>
      let e := Z.min e1 e2 in
      to_double (Dec (m1 * 10 ^ (e1 - e) + m2 * 10 ^ (e2 - e)) e)
  end.

Inductive jsval :=
| VUndef
| VNull
| VBool (b : bool)
| VNum (n : number)
| VStr (s : jsstring)
| VArr (l : list jsval)
| VObj (l : list (jsstring * jsval)).

(** ToBoolean. *)
Definition truthy (v : jsval) : bool :=
  match v with
  | VUndef | VNull => false
  | VBool b => b
  | VNum (Dec m _) => negb (m =? 0)
  | VNum (Inf _) => true
  | VNum NaN => false
  | VStr s => match s with [] => false | _ => true end
  | VArr _ | VObj _ => true
  end.

(** [a || b] *)
Definition js_or (a b : jsval) : jsval := if truthy a then a else b.

(** An optional string-valued field ([undefined] when missing). *)
Definition of_opt (o : option jsstring) : jsval :=
  match o with
  | Some s => VStr s
  | None => VUndef
  end.

(** An object lists its own properties in enumeration order, each name
    once: array indices in ascending order first, then the other names in
    the order they were created. *)
Fixpoint lookup (k : jsstring) (l : list (jsstring * jsval)) : option jsval :=
  match l with
  | [] => None
  | (k', v) :: l' => if str_eqb k k' then Some v else lookup k l'
  end.

Definition is_digit (c : Z) : bool := (48 <=? c) && (c <=? 57).

Definition digits_value (ds : list Z) : Z :=
  fold_left (fun acc d => acc * 10 + d) ds 0.

(** The array index a property name stands for: a canonical decimal numeral
    up to 2^32 - 2. *)
Definition index_of (k : jsstring) : option Z :=
  match k with
  | [] => None
  | c :: rest =>
      if forallb is_digit k
         && (negb (c =? 48) || match rest with [] => true | _ => false end)
      then
        let n := digits_value (map (fun d => d - 48) k) in
        if n <=? 4294967294 then Some n else None
      else None
  end.

Fixpoint obj_replace (k : jsstring) (v : jsval) (l : list (jsstring * jsval))
  : list (jsstring * jsval) :=
  match l with
  | [] => []
  | (k', v') :: l' =>
      if str_eqb k k' then (k', v) :: l' else (k', v') :: obj_replace k v l'
  end.

Fixpoint obj_insert_index (n : Z) (k : jsstring) (v : jsval)
  (l : list (jsstring * jsval)) : list (jsstring * jsval) :=
  match l with
  | [] => [(k, v)]
  | (k', v') :: l' =>
      match index_of k' with
      | Some n' => if n' <? n then (k', v') :: obj_insert_index n k v l'
                   else (k, v) :: l
      | None => (k, v) :: l
      end
  end.

(** Creating or overwriting the own data property [k]. *)
Definition obj_set (l : list (jsstring * jsval)) (k : jsstring) (v : jsval)
  : list (jsstring * jsval) :=
  match lookup k l with
  | Some _ => obj_replace k v l
  | None =>
      match index_of k with
      | Some n => obj_insert_index n k v l
      | None => l ++ [(k, v)]
      end
  end.

(** Number::toString in radix 10. *)
Fixpoint uint_digits (u : Decimal.uint) : list Z :=
  match u with
  | Decimal.Nil => []
  | Decimal.D0 u' => 0 :: uint_digits u'
  | Decimal.D1 u' => 1 :: uint_digits u'
  | Decimal.D2 u' => 2 :: uint_digits u'
  | Decimal.D3 u' => 3 :: uint_digits u'
  | Decimal.D4 u' => 4 :: uint_digits u'
  | Decimal.D5 u' => 5 :: uint_digits u'
  | Decimal.D6 u' => 6 :: uint_digits u'
  | Decimal.D7 u' => 7 :: uint_digits u'
  | Decimal.D8 u' => 8 :: uint_digits u'
  | Decimal.D9 u' => 9 :: uint_digits u'
  end.

Definition nat_numeral (z : Z) : jsstring :=
  match z with
  | Zpos p => map (Z.add 48) (uint_digits (Pos.to_uint p))
  | _ => [48]
  end.

Fixpoint drop_zeros (ds : list Z) : list Z :=
  match ds with
  | d :: ds' => if d =? 0 then drop_zeros ds' else ds
  | [] => []
  end.

Definition positive_to_string (p : positive) (e : Z) : jsstring :=
  let all := uint_digits (Pos.to_uint p) in
  let n := e + Z.of_nat (length all) in
  let cs := map (Z.add 48) (rev (drop_zeros (rev all))) in
  let k := Z.of_nat (length cs) in
  if (k <=? n) && (n <=? 21) then cs ++ repeat 48 (Z.to_nat (n - k))
  else if (0 <? n) && (n <=? 21) then
    firstn (Z.to_nat n) cs ++ 46 :: skipn (Z.to_nat n) cs
  else if (-6 <? n) && (n <=? 0) then
    48 :: 46 :: repeat 48 (Z.to_nat (- n)) ++ cs
  else
    let ex := (if n - 1 <? 0 then 45 else 43) :: nat_numeral (Z.abs (n - 1)) in
    match cs with
    | [] => []
    | [d] => d :: 101 :: ex
    | d :: more => d :: 46 :: more ++ 101 :: ex
    end.

Definition digits_count (m : Z) : Z :=
  match m with
  | Zpos p => Z.of_nat (length (uint_digits (Pos.to_uint p)))
  | _ => 1
  end.

(** The decimal of [k] digits for the number [x = m * 10^e] (positive, of
    [n] digits before the point), when one of the two decimals of [k] digits
    next to [x] has [x] as its Number value: of two that have, the one
    closer to [x], and the even one when they are as close. *)
Definition decimal_of (x : number) (m e n k : Z) : option (Z * Z) :=
  let q := n - k in
  if e >=? q then Some (m * 10 ^ (e - q), q)
  else
    let unit := 10 ^ (q - e) in
    let lo := m / unit in
    let r := m mod unit in
    let hi := lo + 1 in
    let ok_lo := same_value (to_double (Dec lo q)) x in
    let ok_hi := same_value (to_double (Dec hi q)) x in
    if r =? 0 then Some (lo, q)
    else if ok_lo && ok_hi then
      if 2 * r <? unit then Some (lo, q)
      else if unit <? 2 * r then Some (hi, q)
      else if Z.even lo then Some (lo, q) else Some (hi, q)
    else if ok_lo then Some (lo, q)
    else if ok_hi then Some (hi, q)
    else None.

(** The fewest digits that name the number: 17 always do. *)
Fixpoint shortest (x : number) (m e n : Z) (k : Z) (more : nat) : Z * Z :=
  match more with
  | O => (m, e)
  | S f =>
      match decimal_of x m e n k with
      | Some d => d
      | None => shortest x m e n (k + 1) f
      end
  end.

Definition positive_number_to_string (m e : Z) : jsstring :=
  let '(s, q) := shortest (Dec m e) m e (digits_count m + e) 1 17 in
  match s with
  | Zpos p => positive_to_string p q
  | _ => js "0"
  end.

Definition number_to_string (n : number) : jsstring :=
  match to_double n with
  | NaN => js "NaN"
  | Inf false => js "Infinity"
  | Inf true => js "-Infinity"
  | Dec Z0 _ => js "0"
  | Dec (Zpos p) e => positive_number_to_string (Zpos p) e
  | Dec (Zneg p) e => 45 :: positive_number_to_string (Zpos p) e
  end.

(** [v.k] for a property name [k] that is neither an index, [length] nor a
    name the prototypes define (the routes read [user_id] and [id]). *)
Definition get_prop (v : jsval) (k : jsstring) : result jsval :=
  match v with
  | VUndef | VNull => Throw TypeError
  | VObj l => Ok (match lookup k l with Some w => w | None => VUndef end)
  | _ => Ok VUndef
  end.

(** [v?.k] *)
Definition get_prop_opt (v : jsval) (k : jsstring) : jsval :=
  match get_prop v k with
  | Ok w => w
  | Throw _ => VUndef
  end.

(** Surrogate code units. *)
Definition is_lead (c : Z) : bool := (55296 <=? c) && (c <=? 56319).
Definition is_trail (c : Z) : bool := (56320 <=? c) && (c <=? 57343).

(** No surrogate stands alone: every lead is followed by a trail and every
    trail follows a lead. *)
Fixpoint well_formed (s : jsstring) : bool :=
  match s with
  | [] => true
  | c :: rest =>
      if is_lead c then
        match rest with
        | d :: rest' => is_trail d && well_formed rest'
        | [] => false
        end
      else negb (is_trail c) && well_formed rest
  end.

(** [s.toWellFormed()]: a surrogate that stands alone is replaced by
    U+FFFD. *)
Fixpoint to_well_formed (s : jsstring) : jsstring :=
  match s with
  | [] => []
  | c :: rest =>
      if is_lead c then
        match rest with
        | d :: rest' =>
            if is_trail d then c :: d :: to_well_formed rest'
            else 65533 :: to_well_formed rest
        | [] => [65533]
        end
      else if is_trail c then 65533 :: to_well_formed rest
      else c :: to_well_formed rest
  end.

(** Code point of a surrogate pair. *)
Definition pair_cp (hi lo : Z) : Z := (hi - 55296) * 1024 + (lo - 56320) + 65536.

(** Hexadecimal digits. *)
Definition hex_upper (d : Z) : Z := if d <? 10 then 48 + d else 55 + d.
Definition hex_lower (d : Z) : Z := if d <? 10 then 48 + d else 87 + d.

Definition hex_val (c : Z) : option Z :=
  if (48 <=? c) && (c <=? 57) then Some (c - 48)
  else if (65 <=? c) && (c <=? 70) then Some (c - 55)
  else if (97 <=? c) && (c <=? 102) then Some (c - 87)
  else None.

End JS.
Export JS.

Notation "x <- r ;; k" := (bind r (fun x => k))
  (at level 61, r at next level, right associativity).

(* ================================================================== *)
(** ** JSON *)

Module JSON.

(** [\uXXXX] with lower-case digits (UnicodeEscape). *)
Definition unicode_escape (c : Z) : jsstring :=
  [92; 117; hex_lower (c / 4096); hex_lower ((c / 256) mod 16);
   hex_lower ((c / 16) mod 16); hex_lower (c mod 16)].

(** The body of QuoteJSONString: the seven short escapes, [\u00XX] for the
    other control characters and for lone surrogates, everything else as it
    is. *)
Fixpoint quote_units (s : jsstring) : jsstring :=
  match s with
  | [] => []
  | c :: rest =>
      if c =? 8 then 92 :: 98 :: quote_units rest
      else if c =? 9 then 92 :: 116 :: quote_units rest
      else if c =? 10 then 92 :: 110 :: quote_units rest
      else if c =? 12 then 92 :: 102 :: quote_units rest
      else if c =? 13 then 92 :: 114 :: quote_units rest
      else if c =? 34 then 92 :: 34 :: quote_units rest
      else if c =? 92 then 92 :: 92 :: quote_units rest
      else if c <? 32 then unicode_escape c ++ quote_units rest
      else if is_lead c then
        match rest with
        | d :: rest' =>
            if is_trail d then c :: d :: quote_units rest'
            else unicode_escape c ++ quote_units rest
        | [] => unicode_escape c
        end
      else if is_trail c then unicode_escape c ++ quote_units rest
      else c :: quote_units rest
  end.

Definition quote (s : jsstring) : jsstring := 34 :: quote_units s ++ [34].

Fixpoint join_comma (parts : list jsstring) : jsstring :=
  match parts with
  | [] => []
  | [p] => p
  | p :: more => p ++ 44 :: join_comma more
  end.

(** [JSON.stringify(v)] without replacer or indentation; [None] is the
    result [undefined]. *)
Fixpoint stringify (v : jsval) : option jsstring :=
  match v with
  | VUndef => None
  | VNull => Some (js "null")
  | VBool true => Some (js "true")
  | VBool false => Some (js "false")
  | VNum NaN | VNum (Inf _) => Some (js "null")
  | VNum n => Some (number_to_string n)
  | VStr s => Some (quote s)
  | VArr l =>
      Some (91 :: join_comma
                    (map (fun x => match stringify x with
                                   | Some t => t
                                   | None => js "null"
                                   end) l) ++ [93])
  | VObj l =>
      Some (123 :: join_comma
                     (flat_map (fun kv => match kv with
                                          | (k, x) =>
                                              match stringify x with
                                              | Some t => [quote k ++ 58 :: t]
                                              | None => []
                                              end
                                          end) l) ++ [125])
  end.

(** *** JSON.parse *)

Definition is_ws (c : Z) : bool :=
  (c =? 32) || (c =? 9) || (c =? 10) || (c =? 13).

Fixpoint skip_ws (s : jsstring) : jsstring :=
  match s with
  | c :: rest => if is_ws c then skip_ws rest else s
  | [] => []
  end.

Definition simple_escape (e : Z) : option Z :=
  if e =? 34 then Some 34
  else if e =? 92 then Some 92
  else if e =? 47 then Some 47
  else if e =? 98 then Some 8
  else if e =? 102 then Some 12
  else if e =? 110 then Some 10
  else if e =? 114 then Some 13
  else if e =? 116 then Some 9
  else None.

Definition hex4 (h1 h2 h3 h4 : Z) : option Z :=
  match hex_val h1, hex_val h2, hex_val h3, hex_val h4 with
  | Some a, Some b, Some c, Some d => Some (((a * 16 + b) * 16 + c) * 16 + d)
  | _, _, _, _ => None
  end.

Definition cons_fst {A} (c : Z) (r : option (jsstring * A)) : option (jsstring * A) :=
  match r with
  | Some (s, rest) => Some (c :: s, rest)
  | None => None
  end.

(** The characters of a string literal after its opening quotation mark, up
    to and including the closing one. *)
Fixpoint parse_chars (s : jsstring) : option (jsstring * jsstring) :=
  match s with
  | [] => None
  | c :: rest =>
      if c =? 34 then Some ([], rest)
      else if c =? 92 then
        match rest with
        | e :: rest1 =>
            if e =? 117 then
              match rest1 with
              | h1 :: h2 :: h3 :: h4 :: rest2 =>
                  match hex4 h1 h2 h3 h4 with
                  | Some v => cons_fst v (parse_chars rest2)
                  | None => None
                  end
              | _ => None
              end
            else
              match simple_escape e with
              | Some v => cons_fst v (parse_chars rest1)
              | None => None
              end
        | [] => None
        end
      else if c <? 32 then None
      else cons_fst c (parse_chars rest)
  end.

(** Leading decimal digits, as their values. *)
Fixpoint take_digits (s : jsstring) : list Z * jsstring :=
  match s with
  | c :: rest =>
      if is_digit c then
        let '(ds, r) := take_digits rest in (c - 48 :: ds, r)
      else ([], s)
  | [] => ([], [])
  end.

(** Integer part: a single 0, or a non-zero digit followed by digits. *)
Definition parse_int (s : jsstring) : option (list Z * jsstring) :=
  match s with
  | c :: rest =>
      if c =? 48 then Some ([0], rest)
      else if is_digit c then Some (take_digits s)
      else None
  | [] => None
  end.

Definition parse_frac (s : jsstring) : option (list Z * jsstring) :=
  match s with
  | c :: rest =>
      if c =? 46 then
        match take_digits rest with
        | ([], _) => None
        | (ds, r) => Some (ds, r)
        end
      else Some ([], s)
  | [] => Some ([], [])
  end.

Definition parse_exp (s : jsstring) : option (Z * jsstring) :=
  match s with
  | c :: rest =>
      if (c =? 101) || (c =? 69) then
        let '(neg, rest1) :=
          match rest with
          | sg :: r => if sg =? 45 then (true, r)
                       else if sg =? 43 then (false, r) else (false, rest)
          | [] => (false, rest)
          end in
        match take_digits rest1 with
        | ([], _) => None
        | (ds, r) => Some (if neg then - digits_value ds else digits_value ds, r)
        end
      else Some (0, s)
  | [] => Some (0, [])
  end.

(** A number literal is read as the binary64 value nearest to it. *)
Definition parse_number (s : jsstring) : option (number * jsstring) :=
  let '(neg, s1) :=
    match s with
    | c :: rest => if c =? 45 then (true, rest) else (false, s)
    | [] => (false, s)
    end in
  match parse_int s1 with
  | None => None
  | Some (ip, s2) =>
      match parse_frac s2 with
      | None => None
      | Some (fp, s3) =>
          match parse_exp s3 with
          | None => None
          | Some (ex, s4) =>
              let m := digits_value (ip ++ fp) in
              Some (to_double (Dec (if neg then - m else m)
                                   (ex - Z.of_nat (length fp))), s4)
          end
      end
  end.

(** The object of a member list: each member creates or overwrites its
    property, in the order written. *)
Definition object_of (ms : list (jsstring * jsval)) : list (jsstring * jsval) :=
  fold_left (fun o kv => obj_set o (fst kv) (snd kv)) ms [].

(** Recursive descent; [fuel] bounds the depth of the calls.  A call is made
    on a text no longer than its caller's, and every second call in a chain
    on a shorter one, so twice the length of the text is depth enough. *)
Fixpoint parse_value (fuel : nat) (s : jsstring) : option (jsval * jsstring) :=
  match fuel with
  | O => None
  | S f =>
      match skip_ws s with
      | [] => None
      | c :: rest =>
          if c =? 123 then
            match skip_ws rest with
            | c1 :: r1 =>
                if c1 =? 125 then Some (VObj [], r1)
                else
                  match parse_members f (c1 :: r1) with
                  | Some (ms, r) => Some (VObj (object_of ms), r)
                  | None => None
                  end
            | [] => None
            end
          else if c =? 91 then
            match skip_ws rest with
            | c1 :: r1 =>
                if c1 =? 93 then Some (VArr [], r1)
                else
                  match parse_elems f (c1 :: r1) with
                  | Some (vs, r) => Some (VArr vs, r)
                  | None => None
                  end
            | [] => None
            end
          else if c =? 34 then
            match parse_chars rest with
            | Some (str, r) => Some (VStr str, r)
            | None => None
            end
          else if c =? 116 then
            option_map (fun r => (VBool true, r)) (strip_prefix (js "rue") rest)
          else if c =? 102 then
            option_map (fun r => (VBool false, r)) (strip_prefix (js "alse") rest)
          else if c =? 110 then
            option_map (fun r => (VNull, r)) (strip_prefix (js "ull") rest)
          else
            match parse_number (c :: rest) with
            | Some (n, r) => Some (VNum n, r)
            | None => None
            end
      end
  end
with parse_members (fuel : nat) (s : jsstring)
  : option (list (jsstring * jsval) * jsstring) :=
  match fuel with
  | O => None
  | S f =>
      match s with
      | c :: rest =>
          if c =? 34 then
            match parse_chars rest with
            | Some (k, r1) =>
                match skip_ws r1 with
                | c2 :: r2 =>
                    if c2 =? 58 then
                      match parse_value f r2 with
                      | Some (v, r3) =>
                          match skip_ws r3 with
                          | c3 :: r4 =>
                              if c3 =? 44 then
                                match parse_members f (skip_ws r4) with
                                | Some (ms, r5) => Some ((k, v) :: ms, r5)
                                | None => None
                                end
                              else if c3 =? 125 then Some ([(k, v)], r4)
                              else None
                          | [] => None
                          end
                      | None => None
                      end
                    else None
                | [] => None
                end
            | None => None
            end
          else None
      | [] => None
      end
  end
with parse_elems (fuel : nat) (s : jsstring) : option (list jsval * jsstring) :=
  match fuel with
  | O => None
  | S f =>
      match parse_value f s with
      | Some (v, r1) =>
          match skip_ws r1 with
          | c :: r2 =>
              if c =? 44 then
                match parse_elems f r2 with
                | Some (vs, r3) => Some (v :: vs, r3)
                | None => None
                end
              else if c =? 93 then Some ([v], r2)
              else None
          | [] => None
          end
      | None => None
      end
  end.

(** [JSON.parse(text)] *)
Definition parse (text : jsstring) : result jsval :=
  match parse_value (S (length text + length text)) text with
  | Some (v, rest) =>
      match skip_ws rest with
      | [] => Ok v
      | _ :: _ => Throw SyntaxError
      end
  | None => Throw SyntaxError
  end.

End JSON.
Export JSON.

(* ================================================================== *)
(** ** URI component coding *)

Module URI.

(** uriUnreserved: letters, digits and the marks - _ . ! ~ * ' ( ) *)
Definition uri_unreserved (c : Z) : bool :=
  ((65 <=? c) && (c <=? 90)) || ((97 <=? c) && (c <=? 122))
  || ((48 <=? c) && (c <=? 57))
  || existsb (Z.eqb c) [45; 95; 46; 33; 126; 42; 39; 40; 41].

(** The UTF-8 octets of a code point. *)
Definition utf8 (cp : Z) : list Z :=
  if cp <? 128 then [cp]
  else if cp <? 2048 then [192 + cp / 64; 128 + cp mod 64]
  else if cp <? 65536 then
    [224 + cp / 4096; 128 + (cp / 64) mod 64; 128 + cp mod 64]
  else
    [240 + cp / 262144; 128 + (cp / 4096) mod 64;
     128 + (cp / 64) mod 64; 128 + cp mod 64].

(** The UTF-8 octets of a string, a surrogate that is not half of a pair
    written as U+FFFD: what [Buffer.from(s)] holds. *)
Fixpoint utf8_bytes (s : jsstring) : list Z :=
  match s with
  | [] => []
  | c :: rest =>
      if is_lead c then
        match rest with
        | d :: rest' =>
            if is_trail d then utf8 (pair_cp c d) ++ utf8_bytes rest'
            else utf8 65533 ++ utf8_bytes rest
        | [] => utf8 65533
        end
      else if is_trail c then utf8 65533 ++ utf8_bytes rest
      else utf8 c ++ utf8_bytes rest
  end.

(** One octet as a percent sign and two upper-case hexadecimal digits. *)
Definition pct (b : Z) : jsstring := [37; hex_upper (b / 16); hex_upper (b mod 16)].

Definition pct_all (bs : list Z) : jsstring := flat_map pct bs.

(** [encodeURIComponent]: Encode of ECMA-262 with the unreserved set above.
    A surrogate that is not half of a pair raises URIError. *)
Fixpoint encodeURIComponent (s : jsstring) : result jsstring :=
  match s with
  | [] => Ok []
  | c :: rest =>
      if uri_unreserved c then
        r <- encodeURIComponent rest ;; Ok (c :: r)
      else if is_lead c then
        match rest with
        | d :: rest' =>
            if is_trail d then
              r <- encodeURIComponent rest' ;; Ok (pct_all (utf8 (pair_cp c d)) ++ r)
            else Throw URIError
        | [] => Throw URIError
        end
      else if is_trail c then Throw URIError
      else r <- encodeURIComponent rest ;; Ok (pct_all (utf8 c) ++ r)
  end.

(** [decodeURIComponent]: Decode of ECMA-262 with an empty reserved set, in
    two passes.  The first reads every percent sign with its two hexadecimal
    digits; the second reads each escaped octet sequence as one well-formed
    UTF-8 character.  Either pass failing is the URIError of the one-pass
    algorithm. *)
Inductive token :=
| Lit (c : Z)     (* a code unit taken as it is *)
| Esc (b : Z).    (* an octet written as an escape *)

Fixpoint unescape (s : jsstring) : option (list token) :=
  match s with
  | [] => Some []
  | c :: rest =>
      if c =? 37 then
        match rest with
        | h1 :: h2 :: rest' =>
            match hex_val h1, hex_val h2 with
            | Some a, Some b => option_map (cons (Esc (a * 16 + b))) (unescape rest')
            | _, _ => None
            end
        | _ => None
        end
      else option_map (cons (Lit c)) (unescape rest)
  end.

Definition is_cont (b : Z) : bool := (128 <=? b) && (b <=? 191).

(** The UTF-16 code units of a code point. *)
Definition utf16 (cp : Z) : jsstring :=
  if cp <? 65536 then [cp]
  else [55296 + (cp - 65536) / 1024; 56320 + (cp - 65536) mod 1024].

(** Well-formed UTF-8 (Unicode, table 3-7): no overlong form, no surrogate,
    nothing above U+10FFFF. *)
Fixpoint utf8_decode (ts : list token) : option jsstring :=
  match ts with
  | [] => Some []
  | Lit c :: rest => option_map (cons c) (utf8_decode rest)
  | Esc b :: rest =>
      if b <? 128 then option_map (cons b) (utf8_decode rest)
      else if b <? 194 then None
      else if b <? 224 then
        match rest with
        | Esc b2 :: rest' =>
            if is_cont b2 then
              option_map (cons ((b - 192) * 64 + (b2 - 128))) (utf8_decode rest')
            else None
        | _ => None
        end
      else if b <? 240 then
        match rest with
        | Esc b2 :: Esc b3 :: rest' =>
            if is_cont b2 && is_cont b3
               && (if b =? 224 then 160 <=? b2 else true)
               && (if b =? 237 then b2 <=? 159 else true)
            then
              option_map
                (cons ((b - 224) * 4096 + (b2 - 128) * 64 + (b3 - 128)))
                (utf8_decode rest')
            else None
        | _ => None
        end
      else if b <? 245 then
        match rest with
        | Esc b2 :: Esc b3 :: Esc b4 :: rest' =>
            if is_cont b2 && is_cont b3 && is_cont b4
               && (if b =? 240 then 144 <=? b2 else true)
               && (if b =? 244 then b2 <=? 143 else true)
            then
              option_map
                (app (utf16 ((b - 240) * 262144 + (b2 - 128) * 4096
                             + (b3 - 128) * 64 + (b4 - 128))))
                (utf8_decode rest')
            else None
        | _ => None
        end
      else None
  end.

Definition decodeURIComponent (s : jsstring) : result jsstring :=
  match unescape s with
  | Some ts =>
      match utf8_decode ts with
      | Some r => Ok r
      | None => Throw URIError
      end
  | None => Throw URIError
  end.

Definition is_octet (b : Z) : Prop := 0 <= b < 256.

(** A Unicode scalar value: a code point that is not a surrogate. *)
Definition is_scalar (cp : Z) : Prop :=
  (0 <= cp < 55296) \/ (57344 <= cp < 1114112).

End URI.
Export URI.

(* ================================================================== *)
(** ** db.js: the credential store *)

Module Db.

(** A value held in a column: NULL, a number (of storage class INTEGER or
    REAL, as the number JavaScript reads back from either) or a text. *)
Inductive sqlval :=
| SqlNull
| SqlNum (x : number)
| SqlText (s : jsstring).

(** The columns of [social_accounts].  The surrogate [id] is left out: no
    statement of the program reads or sets it. *)
Module Row.
Record t := mk {
  user_id : sqlval;
  platform : sqlval;
  platform_user_id : sqlval;
  access_token : sqlval;
  refresh_token : sqlval;
  meta_json : sqlval;
  expires_at : sqlval;
  created_at : Z
}.
End Row.

(** The table: its rows in rowid order, and whether it carries a UNIQUE
    constraint or a unique index over exactly [(user_id, platform)], in
    this order of the columns; its columns are those of db.js. *)
Record table := mkTable {
  unique_user_platform : bool;
  rows : list Row.t
}.

(** [CREATE TABLE social_accounts (...)] as written in db.js: the only key is
    [id INTEGER PRIMARY KEY AUTOINCREMENT]. *)
Definition social_accounts : table :=
  {| unique_user_platform := false; rows := [] |}.

(** [CREATE TABLE IF NOT EXISTS]: a table found in the database file is
    left as it is. *)
Definition open_db (file : option table) : table :=
  match file with
  | Some t => t
  | None => social_accounts
  end.

(** The argument object of [saveAccount]. *)
Record account := mkAccount {
  userId : jsval;
  platform : jsval;
  platformUserId : jsval;
  accessToken : jsval;
  refreshToken : jsval;
  meta : jsval;
  expiresAt : jsval
}.

(** A destructuring default [= null] applies to [undefined] only. *)
Definition default_null (v : jsval) : jsval :=
  match v with
  | VUndef => VNull
  | _ => v
  end.

(** What better-sqlite3 binds for a parameter: NULL for null and undefined,
    a real for a number (SQLite takes a NaN as NULL), for a string its UTF-8
    text, in which a lone surrogate has become U+FFFD; a boolean, an array
    or an object is a TypeError. *)
Definition bind_value (v : jsval) : result sqlval :=
  match v with
  | VNull | VUndef => Ok SqlNull
  | VStr s => Ok (SqlText (to_well_formed s))
  | VNum NaN => Ok SqlNull
  | VNum x => Ok (SqlNum x)
  | VBool _ | VArr _ | VObj _ => Throw TypeError
  end.

(** *** Column affinity *)

(** White space of the engine: the space and the characters from the tab
    to the carriage return. *)
Definition sql_space (c : Z) : bool := (c =? 32) || ((9 <=? c) && (c <=? 13)).

Fixpoint skip_spaces (s : jsstring) : jsstring :=
  match s with
  | c :: rest => if sql_space c then skip_spaces rest else s
  | [] => []
  end.

Definition take_sign (s : jsstring) : bool * jsstring :=
  match s with
  | c :: rest => if c =? 45 then (true, rest)
                 else if c =? 43 then (false, rest) else (false, s)
  | [] => (false, [])
  end.

(** The number a text is when it is, in its entirety, a numeric literal of
    the engine: spaces, a sign, digits with at most one point among them, an
    exponent, spaces.  The value is taken as the nearest binary64 value; the
    engine's own conversion can differ from it in the last place for
    literals at the ends of the range. *)
Definition numeric_literal (s : jsstring) : option number :=
  let '(neg, s1) := take_sign (skip_spaces s) in
  let '(ip, s2) := take_digits s1 in
  let '(fp, s3) :=
    match s2 with
    | c :: rest => if c =? 46 then take_digits rest else ([], s2)
    | [] => ([], [])
    end in
  match ip ++ fp with
  | [] => None
  | _ :: _ =>
      let ex :=
        match s3 with
        | c :: rest =>
            if (c =? 101) || (c =? 69) then
              let '(eneg, r1) := take_sign rest in
              match take_digits r1 with
              | ([], _) => None
              | (es, r2) =>
                  Some (if eneg then - digits_value es else digits_value es, r2)
              end
            else Some (0, s3)
        | [] => Some (0, [])
        end in
      match ex with
      | Some (x, s4) =>
          match skip_spaces s4 with
          | [] =>
              let m := digits_value (ip ++ fp) in
              Some (to_double (Dec (if neg then - m else m)
                                   (x - Z.of_nat (length fp))))
          | _ :: _ => None
          end
      | None => None
      end
  end.

Definition digits_of (m : Z) : list Z :=
  match m with
  | Zpos p => uint_digits (Pos.to_uint p)
  | _ => [0]
  end.

(** The first 15 significant digits of [m * 10^e], the sixteenth rounded
    half up, without the zeros at their end; and the exponent of the first
    digit. *)
Definition significant (m e : Z) : list Z * Z :=
  let q := digits_count m + e - 15 in
  let s := if e >=? q then m * 10 ^ (e - q)
           else (2 * m + 10 ^ (q - e)) / (2 * 10 ^ (q - e)) in
  (rev (drop_zeros (rev (digits_of s))), digits_count s + q - 1).

(** A real as text, in the engine's format [%!.15g]: at most 15 significant
    digits, always a point with a digit after it, and an exponent of at
    least two digits below 1e-4 and from 1e15 on.  Where the sixteenth digit
    decides, the engine's own arithmetic can settle the fifteenth the other
    way. *)
Definition positive_real_to_text (m e : Z) : jsstring :=
  let '(ds, ex) := significant m e in
  let cs := map (Z.add 48) ds in
  if (ex <? -4) || (14 <? ex) then
    match cs with
    | [] => []
    | d :: more =>
        d :: 46 :: match more with [] => [48] | _ :: _ => more end
        ++ 101 :: (if ex <? 0 then 45 else 43)
        :: (if Z.abs ex <? 10 then [48] else []) ++ nat_numeral (Z.abs ex)
    end
  else if 0 <=? ex then
    let k := Z.to_nat (ex + 1) in
    firstn k cs ++ repeat 48 (k - length cs)
    ++ 46 :: match skipn k cs with [] => [48] | f :: more => f :: more end
  else 48 :: 46 :: repeat 48 (Z.to_nat (- ex - 1)) ++ cs.

Definition real_to_text (x : number) : jsstring :=
  match x with
  | NaN => js "NaN"
  | Inf false => js "Inf"
  | Inf true => js "-Inf"
  | Dec Z0 _ => js "0.0"
  | Dec (Zpos p) e => positive_real_to_text (Zpos p) e
  | Dec (Zneg p) e => 45 :: positive_real_to_text (Zpos p) e
  end.

(** The affinities of the columns of [social_accounts]: TEXT for all but
    [expires_at] and [created_at], which are INTEGER. *)
Inductive affinity := TEXT | INTEGER.

(** What a column keeps of a value given to it: a TEXT column keeps a
    number as its text, an INTEGER column keeps a text that is a numeric
    literal as its number. *)
Definition column_value (c : affinity) (v : sqlval) : sqlval :=
  match c, v with
  | TEXT, SqlNum x => SqlText (real_to_text x)
  | INTEGER, SqlText s =>
      match numeric_literal s with
      | Some x => SqlNum x
      | None => SqlText s
      end
  | _, _ => v
  end.

(** A JavaScript value bound to a parameter and kept in a column. *)
Definition stored (c : affinity) (v : jsval) : result sqlval :=
  b <- bind_value v ;; Ok (column_value c b).

(** *** Comparing *)

(** Equality in a uniqueness check and in [WHERE]: NULL is distinct from
    everything, a number from every text. *)
Definition sql_eqb (a b : sqlval) : bool :=
  match a, b with
  | SqlText x, SqlText y => str_eqb x y
  | SqlNum x, SqlNum y => same_value x y
  | _, _ => false
  end.

(** [x <= y] on numbers. *)
Definition number_leb (x y : number) : bool :=
  match x, y with
  | Dec m1 e1, Dec m2 e2 =>
      let e := Z.min e1 e2 in
      m1 * 10 ^ (e1 - e) <=? m2 * 10 ^ (e2 - e)
  | Inf true, _ => true
  | _, Inf false => true
  | _, _ => false
  end.

(** The BINARY collation: texts are ordered as their UTF-8 octets, read
    from the left. *)
Fixpoint octets_leb (a b : list Z) : bool :=
  match a, b with
  | [], _ => true
  | _ :: _, [] => false
  | x :: a', y :: b' =>
      if x <? y then true else if y <? x then false else octets_leb a' b'
  end.

(** The order of an index: NULL first, then the numbers, then the texts. *)
Definition sql_leb (a b : sqlval) : bool :=
  match a, b with
  | SqlNull, _ => true
  | _, SqlNull => false
  | SqlNum x, SqlNum y => number_leb x y
  | SqlNum _, SqlText _ => true
  | SqlText _, SqlNum _ => false
  | SqlText x, SqlText y => octets_leb (utf8_bytes x) (utf8_bytes y)
  end.

Definition conflicts (old new : Row.t) : bool :=
  sql_eqb (Row.user_id old) (Row.user_id new)
  && sql_eqb (Row.platform old) (Row.platform new).

(** [DO UPDATE SET ... = excluded. ...]: five columns are taken from the
    row that was to be inserted. *)
Definition do_update (old new : Row.t) : Row.t :=
  {| Row.user_id := Row.user_id old;
     Row.platform := Row.platform old;
     Row.platform_user_id := Row.platform_user_id new;
     Row.access_token := Row.access_token new;
     Row.refresh_token := Row.refresh_token new;
     Row.meta_json := Row.meta_json new;
     Row.expires_at := Row.expires_at new;
     Row.created_at := Row.created_at old |}.

Fixpoint upsert (new : Row.t) (rs : list Row.t) : list Row.t :=
  match rs with
  | [] => [new]
  | r :: rs' =>
      if conflicts r new then do_update r new :: rs'
      else r :: upsert new rs'
  end.

(** [db.prepare]: the target of [ON CONFLICT(user_id, platform)] must be the
    columns of a PRIMARY KEY, UNIQUE constraint or unique index of the
    table; otherwise SQLite rejects the statement when it is prepared (ON
    CONFLICT clause does not match any PRIMARY KEY or UNIQUE constraint) and
    better-sqlite3 throws. *)
Definition prepare_upsert (t : table) : result unit :=
  if unique_user_platform t then Ok tt else Throw SqliteError.

(** [saveAccount(...)], run at the clock second [now] (the default of
    [created_at]): the statement is prepared, the seven parameters are
    bound, and the row is inserted or updates the row it conflicts with. *)
Definition saveAccount (now : Z) (a : account) (t : table) : result table :=
  _ <- prepare_upsert t ;;
  let refreshToken := default_null (refreshToken a) in
  let meta := default_null (meta a) in
  let expiresAt := default_null (expiresAt a) in
  let meta_text :=
    if truthy meta then
      match stringify meta with
      | Some text => VStr text
      | None => VUndef
      end
    else VNull in
  c_user <- bind_value (userId a) ;;
  c_platform <- bind_value (platform a) ;;
  c_puid <- bind_value (platformUserId a) ;;
  c_access <- bind_value (accessToken a) ;;
  c_refresh <- bind_value refreshToken ;;
  c_meta <- bind_value meta_text ;;
  c_expires <- bind_value expiresAt ;;
  let new :=
    {| Row.user_id := column_value TEXT c_user;
       Row.platform := column_value TEXT c_platform;
       Row.platform_user_id := column_value TEXT c_puid;
       Row.access_token := column_value TEXT c_access;
       Row.refresh_token := column_value TEXT c_refresh;
       Row.meta_json := column_value TEXT c_meta;
       Row.expires_at := column_value INTEGER c_expires;
       Row.created_at := now |} in
  Ok {| unique_user_platform := unique_user_platform t;
        rows := upsert new (rows t) |}.

(** A column read back into JavaScript. *)
Definition to_js (v : sqlval) : jsval :=
  match v with
  | SqlNull => VNull
  | SqlNum x => VNum x
  | SqlText s => VStr s
  end.

(** ToString of a value read from a column. *)
Definition to_string (v : sqlval) : jsstring :=
  match v with
  | SqlNull => js "null"
  | SqlNum x => number_to_string x
  | SqlText s => s
  end.

(** [r.meta_json ? JSON.parse(r.meta_json) : null] *)
Definition meta_of (r : Row.t) : result jsval :=
  if truthy (to_js (Row.meta_json r)) then parse (to_string (Row.meta_json r))
  else Ok VNull.

Fixpoint with_meta (rs : list Row.t) : result (list (Row.t * jsval)) :=
  match rs with
  | [] => Ok []
  | r :: rs' =>
      m <- meta_of r ;;
      more <- with_meta rs' ;;
      Ok ((r, m) :: more)
  end.

(** A string bound to the parameter of a query. *)
Definition text_param (s : jsstring) : sqlval := SqlText (to_well_formed s).

(** The rows of one user as the index of the key lists them: by platform,
    and by rowid under one platform. *)
Fixpoint index_insert (r : Row.t) (sorted : list Row.t) : list Row.t :=
  match sorted with
  | [] => [r]
  | x :: more =>
      if sql_leb (Row.platform x) (Row.platform r) then x :: index_insert r more
      else r :: sorted
  end.

Definition index_order (rs : list Row.t) : list Row.t :=
  fold_left (fun sorted r => index_insert r sorted) rs [].

(** [SELECT * FROM social_accounts WHERE user_id = ?]: on a table with the
    key the engine searches the index of the key, which lists the rows of
    the user by platform; without it the table is scanned in rowid order. *)
Definition select_user (userId : jsstring) (t : table) : list Row.t :=
  let found := filter (fun r => sql_eqb (Row.user_id r) (text_param userId)) (rows t) in
  if unique_user_platform t then index_order found else found.

(** [getAccountsForUser(userId)] *)
Definition getAccountsForUser (userId : jsstring) (t : table)
  : result (list (Row.t * jsval)) :=
  with_meta (select_user userId t).

Definition selects (userId platform : jsstring) (r : Row.t) : bool :=
  sql_eqb (Row.user_id r) (text_param userId)
  && sql_eqb (Row.platform r) (text_param platform).

(** [getAccount(userId, platform)] *)
Definition getAccount (userId platform : jsstring) (t : table)
  : result (option (Row.t * jsval)) :=
  match find (selects userId platform) (rows t) with
  | Some r => m <- meta_of r ;; Ok (Some (r, m))
  | None => Ok None
  end.

(** [deleteAccount(userId, platform)] *)
Definition deleteAccount (userId platform : jsstring) (t : table) : table :=
  {| unique_user_platform := unique_user_platform t;
     rows := filter (fun r => negb (selects userId platform r)) (rows t) |}.

(** A run of [saveAccount] calls, each with its clock second; a call that
    throws leaves the table as it was. *)
Fixpoint save_all (calls : list (Z * account)) (t : table) : table :=
  match calls with
  | [] => t
  | (now, a) :: more =>
      match saveAccount now a t with
      | Ok t' => save_all more t'
      | Throw _ => save_all more t
      end
  end.

(** The records of the pair [(userId, platform)]. *)
Definition records_of (userId platform : jsstring) (t : table) : list Row.t :=
  filter (selects userId platform) (rows t).

(** At most one record per pair of a user identifier and a platform. *)
Definition at_most_one (t : table) : Prop :=
  forall userId platform, (length (records_of userId platform t) <= 1)%nat.

End Db.
Export Db.

(* ================================================================== *)
(** ** What a handler does: responses, the providers, the store *)

Module Http.

(** The pieces of a template literal: literal text and interpolated values. *)
Inductive frag :=
| Text (s : jsstring)
| Val (v : jsval).

Inductive response :=
| Send (status : Z) (body : list frag)      (* res.status(n).send(text) *)
| SendJson (status : Z) (body : jsval)      (* res.status(n).json(value) *)
| RedirectTo (base : jsstring) (query : list (jsstring * jsval)).
    (* res.redirect(base + queryString.stringify(query)) *)

(** A handler either answers, or an exception leaves it: for the async
    callbacks that is a rejected promise, and the request is never
    answered by the route. *)
Inductive outcome :=
| Responded (r : response)
| Escaped (e : exn).

(** [req.query] of a callback; a parameter is a string or missing. *)
Record query := mkQuery {
  code : option jsstring;
  state : option jsstring
}.

(** [process.env] *)
Record config := mkConfig {
  META_APP_ID : option jsstring;
  META_REDIRECT : option jsstring;
  YOUTUBE_CLIENT_ID : option jsstring;
  YOUTUBE_REDIRECT : option jsstring;
  X_CLIENT_ID : option jsstring;
  X_REDIRECT : option jsstring;
  PINTEREST_CLIENT_ID : option jsstring;
  PINTEREST_REDIRECT : option jsstring;
  LINKEDIN_CLIENT_ID : option jsstring;
  LINKEDIN_REDIRECT : option jsstring;
  SERVICE_TOKEN : option jsstring
}.

(** The data of a token response; a field the provider leaves out is
    [None].  [expires_in] is a whole number of seconds. *)
Module Token.
Record t := mk {
  access_token : option jsstring;
  refresh_token : option jsstring;
  expires_in : option Z
}.
End Token.

(** An entry of [me/accounts]. *)
Module Page.
Record t := mk {
  access_token : option jsstring;
  id : option jsstring;
  name : option jsstring
}.
End Page.

(** [connected_instagram_account] of a page. *)
Module Instagram.
Record t := mk { id : option jsstring }.
End Instagram.

(** An item of the YouTube channel list. *)
Module Channel.
Record t := mk {
  id : option jsstring;
  snippet : jsval
}.
End Channel.

(** [data] of the X [users/me] response. *)
Module XUser.
Record t := mk { id : jsval }.
End XUser.

(** The world a handler runs in: the clocks and the providers' answers to
    the requests the routes send, as functions of what the route passes on.
    A request that fails is [Throw HttpError]. *)
Record world := mkWorld {
  date_now : Z;        (* Math.floor(Date.now()/1000) *)
  sql_now : nat -> Z;  (* strftime('%s','now') at the n-th statement run by the handler *)
  meta_token : jsstring -> result Token.t;       (* code *)
  meta_long : jsval -> result Token.t;           (* fb_exchange_token *)
  meta_accounts : jsval -> result (option (list Page.t));   (* access_token; data.data *)
  meta_page : jsval -> jsval -> result (option Instagram.t);
     (* page id, page access token; data.connected_instagram_account *)
  youtube_token : jsstring -> result Token.t;
  youtube_channels : jsval -> result (option (list Channel.t));   (* data.items *)
  x_token : jsstring -> result Token.t;
  x_me : jsval -> result (option XUser.t);       (* data.data *)
  pinterest_token : jsstring -> result Token.t;
  pinterest_me : jsval -> result jsval;          (* data *)
  linkedin_token : jsstring -> result Token.t;
  linkedin_me : jsval -> result jsval            (* data *)
}.

(** *** The handler monad: the table, and the accounts handed to
    [saveAccount] so far, threaded under exceptions. *)
Definition store := (table * list account)%type.

Definition M (A : Type) := store -> result A * store.

Definition ret {A} (a : A) : M A := fun s => (Ok a, s).

Definition mbind {A B} (m : M A) (k : A -> M B) : M B :=
  fun s =>
    match m s with
    | (Ok a, s') => k a s'
    | (Throw e, s') => (Throw e, s')
    end.

Definition lift {A} (r : result A) : M A := fun s => (r, s).

Definition try_catch {A} (m : M A) (handler : exn -> M A) : M A :=
  fun s =>
    match m s with
    | (Ok a, s') => (Ok a, s')
    | (Throw e, s') => handler e s'
    end.

(** A call of [saveAccount]: the call is recorded whether or not it
    succeeds. *)
Definition save (w : world) (a : account) : M unit :=
  fun s =>
    let '(t, calls) := s in
    match saveAccount (sql_now w (length calls)) a t with
    | Ok t' => (Ok tt, (t', calls ++ [a]))
    | Throw e => (Throw e, (t, calls ++ [a]))
    end.

(** Running a handler on a table: what came of the request, the table
    afterwards, and the calls of [saveAccount] in order. *)
Definition run (m : M response) (t : table) : outcome * table * list account :=
  match m (t, []) with
  | (Ok r, (t', calls)) => (Responded r, t', calls)
  | (Throw e, (t', calls)) => (Escaped e, t', calls)
  end.

Definition answer (m : M response) (t : table) : outcome := fst (fst (run m t)).

Definition table_after (m : M response) (t : table) : table := snd (fst (run m t)).

(** The accounts handed to [saveAccount], in order. *)
Definition saved (m : M response) (t : table) : list account := snd (run m t).

(** A relation between the store before a step and after it holds across
    the whole run of [m]. *)
Definition preserved (R : store -> store -> Prop) {A} (m : M A) : Prop :=
  forall s, R s (snd (m s)).

(** Every account handed to [saveAccount] satisfies [P]. *)
Definition all_saved (P : account -> Prop) (s s' : store) : Prop :=
  Forall P (snd s) -> Forall P (snd s').

(** A table without the key is left as it is. *)
Definition unkeyed_kept (s s' : store) : Prop :=
  unique_user_platform (fst s) = false -> fst s' = fst s.

End Http.
Export Http.

Notation "x <~ m ;; k" := (mbind m (fun x => k))
  (at level 61, m at next level, right associativity).
Notation "m ;~ k" := (mbind m (fun _ => k))
  (at level 61, right associativity).

(* ================================================================== *)
(** ** The routes *)

Module Routes.

Definition unknown : jsval := VStr (js "unknown").

(** String(v) of an optional string. *)
Definition text_of (o : option jsstring) : jsstring :=
  match o with
  | Some t => t
  | None => js "undefined"
  end.

(** The text [JSON.stringify({ user_id })] produces. *)
Definition state_text (u : jsstring) : jsstring :=
  123 :: 34 :: quote_units (js "user_id") ++ 34 :: 58 :: 34 :: quote_units u ++ [34; 125].

(** [encodeURIComponent(JSON.stringify({ user_id }))] *)
Definition encode_state (user_id : jsstring) : result jsstring :=
  encodeURIComponent (text_of (stringify (VObj [(js "user_id", VStr user_id)]))).

(** [state ? JSON.parse(decodeURIComponent(state)) : {}] *)
Definition parse_state (state : option jsstring) : result jsval :=
  match state with
  | Some (c :: s) => text <- decodeURIComponent (c :: s) ;; parse text
  | Some [] | None => Ok (VObj [])
  end.

(** [parsedState.user_id], and [userId = parsedState.user_id || 'unknown'] *)
Definition user_of_state (state : option jsstring) : result (jsval * jsval) :=
  parsedState <- parse_state state ;;
  user_id <- get_prop parsedState (js "user_id") ;;
  Ok (user_id, js_or user_id unknown).

(** The sum of the clock second and a duration, as numbers. *)
Definition seconds_after (now d : Z) : number :=
  number_add (to_double (Dec now 0)) (to_double (Dec d 0)).

(** [Math.floor(Date.now()/1000) + Number(expires_in)] *)
Definition expiry (w : world) (expires_in : option Z) : jsval :=
  match expires_in with
  | Some d => VNum (seconds_after (date_now w) d)
  | None => VNum NaN
  end.

(** *** routes/meta.js *)

Definition meta_start (cfg : config) (user_id : option jsstring) : outcome :=
  match user_id with
  | Some (c :: u) =>
      match encode_state (c :: u) with
      | Ok state =>
          Responded (RedirectTo (js "https://www.facebook.com/v17.0/dialog/oauth?")
            [(js "client_id", of_opt (META_APP_ID cfg));
             (js "redirect_uri", of_opt (META_REDIRECT cfg));
             (js "scope", VStr (js "pages_show_list,instagram_basic,instagram_content_publish,pages_read_engagement,pages_manage_posts"));
             (js "state", VStr state)])
      | Throw e => Escaped e
      end
  | Some [] | None => Responded (Send 400 [Text (js "Missing user_id")])
  end.

(** The callback after its guard on [code]: the token exchanges, the page
    list and the calls of [saveAccount]. *)
Definition meta_exchange (w : world) (state_user_id userId : jsval) (code : jsstring)
  : M response :=
  tokenRes <~ lift (meta_token w code) ;;
  let shortToken := of_opt (Token.access_token tokenRes) in
  longRes <~ lift (meta_long w shortToken) ;;
  let longToken := of_opt (Token.access_token longRes) in
  let expiresAt :=
    match Token.expires_in longRes with
    | Some d => if d =? 0 then VNull else VNum (seconds_after (date_now w) d)
    | None => VNull
    end in
  pagesRes <~ lift (meta_accounts w longToken) ;;
  let pages := match pagesRes with Some l => l | None => [] end in
  match pages with
  | [] =>
      save w {| userId := userId;
                platform := VStr (js "facebook");
                platformUserId := js_or state_user_id VNull;
                accessToken := longToken;
                refreshToken := VNull;
                meta := VObj [(js "note", VStr (js "no-pages"))];
                expiresAt := expiresAt |} ;~
      ret (Send 200 [Text (js "Connected to Facebook but no pages found.")])
  | page :: _ =>
      let pageAccessToken := of_opt (Page.access_token page) in
      let pageId := of_opt (Page.id page) in
      pageInfo <~ lift (meta_page w pageId pageAccessToken) ;;
      let instagramUserId :=
        match pageInfo with
        | Some instagramAccount => of_opt (Instagram.id instagramAccount)
        | None => VNull
        end in
      save w {| userId := userId;
                platform := VStr (js "facebook");
                platformUserId := pageId;
                accessToken := pageAccessToken;
                refreshToken := VNull;
                meta := VObj [(js "page_name", of_opt (Page.name page))];
                expiresAt := VNull |} ;~
      (if truthy instagramUserId then
         save w {| userId := userId;
                   platform := VStr (js "instagram");
                   platformUserId := instagramUserId;
                   accessToken := pageAccessToken;
                   refreshToken := VNull;
                   meta := VObj [(js "linked_page", pageId)];
                   expiresAt := VNull |}
       else ret tt) ;~
      ret (Send 200 [Text (js "<h3>Connected successfully!</h3><p>User: ");
                     Val userId;
                     Text (js ". Instagram ID: ");
                     Val (js_or instagramUserId (VStr (js "none")));
                     Text (js ".</p>")])
  end.

(** The [expiresAt] of the records [meta_exchange] saves, by the page list:
    computed only when there is no page. *)
Definition meta_expiry (w : world) (long : Token.t) (pages : option (list Page.t))
  : jsval :=
  match pages with
  | Some (_ :: _) => VNull
  | Some [] | None =>
      match Token.expires_in long with
      | Some d => if d =? 0 then VNull else VNum (seconds_after (date_now w) d)
      | None => VNull
      end
  end.

Definition meta_failed (e : exn) : M response :=
  ret (Send 500 [Text (js "Error during Facebook OAuth")]).

(** The whole handler body stands in the [try] block. *)
Definition meta_callback (w : world) (q : query) : M response :=
  try_catch
    (u <~ lift (user_of_state (state q)) ;;
     match code q with
     | Some (c :: cs) => meta_exchange w (fst u) (snd u) (c :: cs)
     | Some [] | None => ret (Send 200 [Text (js "No code provided")])
     end)
    meta_failed.

(** *** routes/youtube.js *)

Definition youtube_start (cfg : config) (user_id : option jsstring) : outcome :=
  match user_id with
  | Some (c :: u) =>
      match encode_state (c :: u) with
      | Ok state =>
          Responded (RedirectTo (js "https://accounts.google.com/o/oauth2/v2/auth?")
            [(js "client_id", of_opt (YOUTUBE_CLIENT_ID cfg));
             (js "redirect_uri", of_opt (YOUTUBE_REDIRECT cfg));
             (js "response_type", VStr (js "code"));
             (js "scope", VStr (js "https://www.googleapis.com/auth/youtube.upload https://www.googleapis.com/auth/youtube.readonly openid email profile"));
             (js "access_type", VStr (js "offline"));
             (js "prompt", VStr (js "consent"));
             (js "state", VStr state)])
      | Throw e => Escaped e
      end
  | Some [] | None => Responded (Send 400 [Text (js "Missing user_id")])
  end.

Definition youtube_exchange (w : world) (userId : jsval) (code : jsstring) : M response :=
  tokenRes <~ lift (youtube_token w code) ;;
  let access_token := of_opt (Token.access_token tokenRes) in
  let refresh_token := of_opt (Token.refresh_token tokenRes) in
  me <~ lift (youtube_channels w access_token) ;;
  let channel :=
    match me with
    | Some (item :: _) => Some item
    | Some [] | None => None
    end in
  let channelId :=
    match channel with
    | Some ch => of_opt (Channel.id ch)
    | None => VUndef
    end in
  save w {| userId := userId;
            platform := VStr (js "youtube");
            platformUserId := channelId;
            accessToken := access_token;
            refreshToken := refresh_token;
            meta := VObj [(js "snippet",
                           match channel with
                           | Some ch => Channel.snippet ch
                           | None => VUndef
                           end)];
            expiresAt := expiry w (Token.expires_in tokenRes) |} ;~
  ret (Send 200 [Text (js "<h3>YouTube connected!</h3><p>Channel: ");
                 Val channelId; Text (js "</p>")]).

Definition youtube_failed (e : exn) : M response :=
  ret (Send 500 [Text (js "Error handling YouTube OAuth")]).

(** The state is read before the [try] block. *)
Definition youtube_callback (w : world) (q : query) : M response :=
  u <~ lift (user_of_state (state q)) ;;
  match code q with
  | Some (c :: cs) => try_catch (youtube_exchange w (snd u) (c :: cs)) youtube_failed
  | Some [] | None => ret (Send 200 [Text (js "No code provided")])
  end.

(** *** routes/x.js *)

Definition x_start (cfg : config) (user_id : option jsstring) : outcome :=
  match user_id with
  | Some (c :: u) =>
      match encode_state (c :: u) with
      | Ok state =>
          Responded (RedirectTo (js "https://twitter.com/i/oauth2/authorize?")
            [(js "response_type", VStr (js "code"));
             (js "client_id", of_opt (X_CLIENT_ID cfg));
             (js "redirect_uri", of_opt (X_REDIRECT cfg));
             (js "scope", VStr (js "tweet.read tweet.write users.read offline.access"));
             (js "state", VStr state);
             (js "code_challenge", VStr (js "challenge"));
             (js "code_challenge_method", VStr (js "plain"))])
      | Throw e => Escaped e
      end
  | Some [] | None => Responded (Send 400 [Text (js "Missing user_id")])
  end.

Definition x_exchange (w : world) (userId : jsval) (code : jsstring) : M response :=
  tokenRes <~ lift (x_token w code) ;;
  let access_token := of_opt (Token.access_token tokenRes) in
  let refresh_token := of_opt (Token.refresh_token tokenRes) in
  userResp <~ lift (x_me w access_token) ;;
  let platformUserId :=
    match userResp with
    | Some data => XUser.id data
    | None => VUndef
    end in
  save w {| userId := userId;
            platform := VStr (js "x");
            platformUserId := platformUserId;
            accessToken := access_token;
            refreshToken := refresh_token;
            meta := VNull;
            expiresAt := expiry w (Token.expires_in tokenRes) |} ;~
  ret (Send 200 [Text (js "<h3>X connected!</h3>")]).

Definition x_failed (e : exn) : M response :=
  ret (Send 500 [Text (js "Error with X OAuth")]).

Definition x_callback (w : world) (q : query) : M response :=
  u <~ lift (user_of_state (state q)) ;;
  match code q with
  | Some (c :: cs) => try_catch (x_exchange w (snd u) (c :: cs)) x_failed
  | Some [] | None => ret (Send 200 [Text (js "No code")])
  end.

(** *** routes/pinterest.js *)

Definition pinterest_start (cfg : config) (user_id : option jsstring) : outcome :=
  match user_id with
  | Some (c :: u) =>
      match encode_state (c :: u) with
      | Ok state =>
          Responded (RedirectTo (js "https://www.pinterest.com/oauth/?")
            [(js "response_type", VStr (js "code"));
             (js "client_id", of_opt (PINTEREST_CLIENT_ID cfg));
             (js "redirect_uri", of_opt (PINTEREST_REDIRECT cfg));
             (js "state", VStr state);
             (js "scope", VStr (js "pins:write,boards:read"))])
      | Throw e => Escaped e
      end
  | Some [] | None => Responded (Send 400 [Text (js "Missing user_id")])
  end.

Definition pinterest_exchange (w : world) (userId : jsval) (code : jsstring)
  : M response :=
  tokenRes <~ lift (pinterest_token w code) ;;
  let access_token := of_opt (Token.access_token tokenRes) in
  let refresh_token := of_opt (Token.refresh_token tokenRes) in
  me <~ lift (pinterest_me w access_token) ;;
  let platformUserId := get_prop_opt me (js "id") in
  save w {| userId := userId;
            platform := VStr (js "pinterest");
            platformUserId := platformUserId;
            accessToken := access_token;
            refreshToken := refresh_token;
            meta := me;
            expiresAt := expiry w (Token.expires_in tokenRes) |} ;~
  ret (Send 200 [Text (js "<h3>Pinterest connected!</h3>")]).

Definition pinterest_failed (e : exn) : M response :=
  ret (Send 500 [Text (js "Pinterest OAuth Error")]).

Definition pinterest_callback (w : world) (q : query) : M response :=
  u <~ lift (user_of_state (state q)) ;;
  match code q with
  | Some (c :: cs) => try_catch (pinterest_exchange w (snd u) (c :: cs)) pinterest_failed
  | Some [] | None => ret (Send 200 [Text (js "No code")])
  end.

(** *** routes/linkedin.js *)

Definition linkedin_start (cfg : config) (user_id : option jsstring) : outcome :=
  match user_id with
  | Some (c :: u) =>
      match encode_state (c :: u) with
      | Ok state =>
          Responded (RedirectTo (js "https://www.linkedin.com/oauth/v2/authorization?")
            [(js "response_type", VStr (js "code"));
             (js "client_id", of_opt (LINKEDIN_CLIENT_ID cfg));
             (js "redirect_uri", of_opt (LINKEDIN_REDIRECT cfg));
             (js "scope", VStr (js "w_member_social r_liteprofile"));
             (js "state", VStr state)])
      | Throw e => Escaped e
      end
  | Some [] | None => Responded (Send 400 [Text (js "Missing user_id")])
  end.

Definition linkedin_exchange (w : world) (userId : jsval) (code : jsstring)
  : M response :=
  tokenRes <~ lift (linkedin_token w code) ;;
  let access_token := of_opt (Token.access_token tokenRes) in
  profile <~ lift (linkedin_me w access_token) ;;
  platformUserId <~ lift (get_prop profile (js "id")) ;;
  save w {| userId := userId;
            platform := VStr (js "linkedin");
            platformUserId := platformUserId;
            accessToken := access_token;
            refreshToken := VNull;
            meta := profile;
            expiresAt := expiry w (Token.expires_in tokenRes) |} ;~
  ret (Send 200 [Text (js "<h3>LinkedIn connected!</h3>")]).

Definition linkedin_failed (e : exn) : M response :=
  ret (Send 500 [Text (js "LinkedIn OAuth Error")]).

Definition linkedin_callback (w : world) (q : query) : M response :=
  u <~ lift (user_of_state (state q)) ;;
  match code q with
  | Some (c :: cs) => try_catch (linkedin_exchange w (snd u) (c :: cs)) linkedin_failed
  | Some [] | None => ret (Send 200 [Text (js "No code")])
  end.

(** *** The five providers side by side *)

Inductive provider := Meta | YouTube | X | Pinterest | LinkedIn.

Definition start (p : provider) : config -> option jsstring -> outcome :=
  match p with
  | Meta => meta_start
  | YouTube => youtube_start
  | X => x_start
  | Pinterest => pinterest_start
  | LinkedIn => linkedin_start
  end.

Definition callback (p : provider) : world -> query -> M response :=
  match p with
  | Meta => meta_callback
  | YouTube => youtube_callback
  | X => x_callback
  | Pinterest => pinterest_callback
  | LinkedIn => linkedin_callback
  end.

(** The [try] block after the guard on [code], with its [catch]. *)
Definition exchange (p : provider) (w : world) (state_user_id userId : jsval)
  (code : jsstring) : M response :=
  match p with
  | Meta => try_catch (meta_exchange w state_user_id userId code) meta_failed
  | YouTube => try_catch (youtube_exchange w userId code) youtube_failed
  | X => try_catch (x_exchange w userId code) x_failed
  | Pinterest => try_catch (pinterest_exchange w userId code) pinterest_failed
  | LinkedIn => try_catch (linkedin_exchange w userId code) linkedin_failed
  end.

(** The text sent when the callback carries no code. *)
Definition no_code_text (p : provider) : jsstring :=
  match p with
  | Meta | YouTube => js "No code provided"
  | X | Pinterest | LinkedIn => js "No code"
  end.

(** *** routes/credentials.js *)

Record credentials_request := mkCredentialsRequest {
  authorization : option jsstring;   (* req.get('Authorization') *)
  param_userId : jsstring            (* req.params.userId *)
}.

(** [req.get('Authorization')?.replace('Bearer ', '')] *)
Definition serviceToken (req : credentials_request) : option jsstring :=
  option_map (replace_first (js "Bearer ") []) (authorization req).

(** [!serviceToken || serviceToken !== process.env.SERVICE_TOKEN] *)
Definition rejected (cfg : config) (req : credentials_request) : bool :=
  match serviceToken req with
  | Some (c :: s) =>
      match SERVICE_TOKEN cfg with
      | Some expected => negb (str_eqb (c :: s) expected)
      | None => true
      end
  | Some [] | None => true
  end.

Definition unauthorized : response :=
  SendJson 401 (VObj [(js "error", VStr (js "Unauthorized"))]).

(** [tokens[a.platform] = { ... }]; the name [__proto__] sets the prototype
    and creates no property. *)
Definition add_tokens (tokens : list (jsstring * jsval)) (a : Row.t * jsval)
  : list (jsstring * jsval) :=
  let '(r, meta) := a in
  let key := Db.to_string (Row.platform r) in
  if str_eqb key (js "__proto__") then tokens
  else
    obj_set tokens key
      (VObj [(js "access_token", to_js (Row.access_token r));
             (js "refresh_token", to_js (Row.refresh_token r));
             (js "platform_user_id", to_js (Row.platform_user_id r));
             (js "meta", meta)]).

(** [GET /v1/users/:userId/credentials].  The handler is synchronous: an
    exception leaving it reaches the framework's error handler. *)
Definition credentials (cfg : config) (req : credentials_request) (t : table)
  : outcome :=
  if rejected cfg req then Responded unauthorized
  else
    match getAccountsForUser (param_userId req) t with
    | Ok accounts =>
        Responded (SendJson 200
          (VObj [(js "userId", VStr (param_userId req));
                 (js "tokens", VObj (fold_left add_tokens accounts []))]))
    | Throw e => Escaped e
    end.

End Routes.
Export Routes.

(* ================================================================== *)
(** ** Sample requests, provider answers and tables *)

Module Samples.

Definition refused {A} : result A := Throw HttpError.

(** A world in which every outbound request fails. *)
Definition offline : world :=
  {| date_now := 1700000000;
     sql_now := fun n => 1700000002 + Z.of_nat n;
     meta_token := fun _ => refused;
     meta_long := fun _ => refused;
     meta_accounts := fun _ => refused;
     meta_page := fun _ _ => refused;
     youtube_token := fun _ => refused;
     youtube_channels := fun _ => refused;
     x_token := fun _ => refused;
     x_me := fun _ => refused;
     pinterest_token := fun _ => refused;
     pinterest_me := fun _ => refused;
     linkedin_token := fun _ => refused;
     linkedin_me := fun _ => refused |}.

(** Meta answers: a short-lived token, the long-lived token [long], the
    page list [pages] and the Instagram account [ig] of a page. *)
Definition meta_world (long : Token.t) (pages : option (list Page.t))
  (ig : option Instagram.t) : world :=
  {| date_now := 1700000000;
     sql_now := fun n => 1700000002 + Z.of_nat n;
     meta_token := fun _ => Ok (Token.mk (Some (js "SHORT")) None None);
     meta_long := fun _ => Ok long;
     meta_accounts := fun _ => Ok pages;
     meta_page := fun _ _ => Ok ig;
     youtube_token := fun _ => refused;
     youtube_channels := fun _ => refused;
     x_token := fun _ => refused;
     x_me := fun _ => refused;
     pinterest_token := fun _ => refused;
     pinterest_me := fun _ => refused;
     linkedin_token := fun _ => refused;
     linkedin_me := fun _ => refused |}.

(** The other four providers answer with the token response [tok] and an
    identity [ID1]. *)
Definition token_world (tok : Token.t) : world :=
  {| date_now := 1700000000;
     sql_now := fun n => 1700000002 + Z.of_nat n;
     meta_token := fun _ => refused;
     meta_long := fun _ => refused;
     meta_accounts := fun _ => refused;
     meta_page := fun _ _ => refused;
     youtube_token := fun _ => Ok tok;
     youtube_channels := fun _ =>
       Ok (Some [Channel.mk (Some (js "ID1")) (VObj [(js "title", VStr (js "My channel"))])]);
     x_token := fun _ => Ok tok;
     x_me := fun _ => Ok (Some (XUser.mk (VStr (js "ID1"))));
     pinterest_token := fun _ => Ok tok;
     pinterest_me := fun _ => Ok (VObj [(js "id", VStr (js "ID1"))]);
     linkedin_token := fun _ => Ok tok;
     linkedin_me := fun _ => Ok (VObj [(js "id", VStr (js "ID1"))]) |}.

(** The token request succeeds, but YouTube lists no channel and X names
    no user. *)
Definition without_identity (tok : Token.t) : world :=
  {| date_now := 1700000000;
     sql_now := fun n => 1700000002 + Z.of_nat n;
     meta_token := fun _ => refused;
     meta_long := fun _ => refused;
     meta_accounts := fun _ => refused;
     meta_page := fun _ _ => refused;
     youtube_token := fun _ => Ok tok;
     youtube_channels := fun _ => Ok (Some []);
     x_token := fun _ => Ok tok;
     x_me := fun _ => Ok None;
     pinterest_token := fun _ => refused;
     pinterest_me := fun _ => refused;
     linkedin_token := fun _ => refused;
     linkedin_me := fun _ => refused |}.

Definition long_lived : Token.t := Token.mk (Some (js "LONG")) None (Some 5183944).

Definition page1 : Page.t :=
  Page.mk (Some (js "PAGETOKEN")) (Some (js "PAGE1")) (Some (js "My page")).

(** No page at all. *)
Definition no_pages : world := meta_world long_lived (Some []) None.

(** One page with the connected Instagram account IG123. *)
Definition page_with_instagram : world :=
  meta_world long_lived (Some [page1]) (Some (Instagram.mk (Some (js "IG123")))).

Definition hourly : Token.t :=
  Token.mk (Some (js "ACCESS")) (Some (js "REFRESH")) (Some 3599).

(** The state a start route builds for the user [u1]. *)
Definition state_u1 : jsstring := js "%7B%22user_id%22%3A%22u1%22%7D".

Definition with_code : query :=
  {| code := Some (js "AUTHCODE"); state := Some state_u1 |}.

(** A table like the one db.js creates, but carrying
    UNIQUE(user_id, platform), as a database file made beforehand may. *)
Definition keyed : table := {| unique_user_platform := true; rows := [] |}.

Definition first_save : account :=
  {| userId := VStr (js "u1"); platform := VStr (js "facebook");
     platformUserId := VStr (js "P1"); accessToken := VStr (js "tokenA");
     refreshToken := VStr (js "refreshA");
     meta := VObj [(js "n", VNum (Dec 1 0))];
     expiresAt := VNum (Dec 1700003600 0) |}.

Definition second_save : account :=
  {| userId := VStr (js "u1"); platform := VStr (js "facebook");
     platformUserId := VStr (js "P2"); accessToken := VStr (js "tokenB");
     refreshToken := VStr (js "refreshB");
     meta := VObj [(js "n", VNum (Dec 2 0))];
     expiresAt := VNum (Dec 1700007200 0) |}.

(** The service token is configured as [s3cret]. *)
Definition with_secret : config :=
  mkConfig None None None None None None None None None None (Some (js "s3cret")).

(** A keyed table holding a record of the user u1. *)
Definition holding_u1 : table :=
  {| unique_user_platform := true;
     rows := [ {| Row.user_id := SqlText (js "u1");
                  Row.platform := SqlText (js "facebook");
                  Row.platform_user_id := SqlText (js "P1");
                  Row.access_token := SqlText (js "tokenA");
                  Row.refresh_token := SqlNull;
                  Row.meta_json := SqlNull;
                  Row.expires_at := SqlNull;
                  Row.created_at := 1700000002 |} ] |}.

End Samples.

(* ================================================================== *)
(** ** Values that are bound, written and read back *)

Module Values.

(** The values a parameter takes: undefined, null, numbers and strings. *)
Definition bindable (v : jsval) : bool :=
  match v with
  | VUndef | VNull | VNum _ | VStr _ => true
  | VBool _ | VArr _ | VObj _ => false
  end.

(** A string of 16-bit code units. *)
Definition code_units (s : jsstring) : bool :=
  forallb (fun c => (0 <=? c) && (c <? 65536)) s.

(** Property names that [JSON.parse] keeps in the order written: no name
    twice, none an array index. *)
Fixpoint ordinary_names (ks : list jsstring) : bool :=
  match ks with
  | [] => true
  | k :: more =>
      negb (existsb (str_eqb k) more)
      && match index_of k with Some _ => false | None => true end
      && ordinary_names more
  end.

(** Values [JSON.stringify] writes in full and without a number: null,
    booleans, strings, arrays of such values and objects of such values
    under ordinary names. *)
Fixpoint plain (v : jsval) : bool :=
  match v with
  | VNull | VBool _ => true
  | VStr s => code_units s
  | VArr l => forallb plain l
  | VObj l =>
      forallb (fun kv => match kv with (k, x) => code_units k && plain x end) l
      && ordinary_names (map fst l)
  | VUndef | VNum _ => false
  end.

(** The nodes of a value: a bound on the depth of calls its text asks of
    the parser. *)
Fixpoint size (v : jsval) : nat :=
  match v with
  | VArr l => S (fold_right (fun x n => S (size x + n)) 0 l)
  | VObj l =>
      S (fold_right (fun kv n => match kv with (_, x) => S (size x + n) end) 0 l)
  | _ => 1
  end%nat.

(** A text that starts a JSON value other than a number. *)
Definition opens (text : jsstring) : Prop :=
  exists c t, text = c :: t /\ In c [34; 110; 116; 102; 91; 123].

(** The text of [v] is parsed back to [v], whatever follows it. *)
Definition reads_back (v : jsval) : Prop :=
  exists text,
    stringify v = Some text /\ opens text /\ (size v <= length text)%nat
    /\ forall rest f, (size v <= f)%nat ->
         parse_value f (text ++ rest) = Some (v, rest).

(** A text that leaves what follows it free of lone surrogates. *)
Definition closes_well (text : jsstring) : Prop :=
  forall tail, well_formed tail = true -> well_formed (text ++ tail) = true.

(** The values the text columns are given by the routes: strings, null and
    undefined; and those the expiry is given: numbers, null and undefined. *)
Definition textual (v : jsval) : bool :=
  match v with
  | VStr _ | VNull | VUndef => true
  | _ => false
  end.

Definition numeric (v : jsval) : bool :=
  match v with
  | VNum _ | VNull | VUndef => true
  | _ => false
  end.

(** What JavaScript reads from a column that was given such a value: a
    string with U+FFFD in place of a lone surrogate, a number as it is, and
    null for null, undefined and NaN. *)
Definition read_back (v : jsval) : jsval :=
  match v with
  | VStr s => VStr (to_well_formed s)
  | VNum NaN => VNull
  | VNum x => VNum x
  | _ => VNull
  end.

(** What a TEXT column holds: a text or NULL. *)
Definition text_or_null (v : sqlval) : bool :=
  match v with
  | SqlNum _ => false
  | SqlNull | SqlText _ => true
  end.

(** A list of records that goes up by platform in the order of the
    index. *)
Fixpoint by_platform (rs : list Row.t) : bool :=
  match rs with
  | a :: more =>
      match more with
      | b :: _ => sql_leb (Row.platform a) (Row.platform b)
      | [] => true
      end && by_platform more
  | [] => true
  end.




(** What may stand in the query of a URL without an escape of its own: the
    unreserved characters and the percent sign. *)
Definition url_safe (c : Z) : bool := uri_unreserved c || (c =? 37).

End Values.
Export Values.

(* ================================================================== *)
(** ** The handlers side by side *)

Module Handlers.

(** The token request of a provider's callback, the text its [catch] block
    sends with status 500, and the platform its record is stored under. *)
Definition token_request (p : provider) (w : world) : jsstring -> result Token.t :=
  match p with
  | Meta => meta_token w
  | YouTube => youtube_token w
  | X => x_token w
  | Pinterest => pinterest_token w
  | LinkedIn => linkedin_token w
  end.

Definition failed_text (p : provider) : jsstring :=
  match p with
  | Meta => js "Error during Facebook OAuth"
  | YouTube => js "Error handling YouTube OAuth"
  | X => js "Error with X OAuth"
  | Pinterest => js "Pinterest OAuth Error"
  | LinkedIn => js "LinkedIn OAuth Error"
  end.

Definition platform_name (p : provider) : jsstring :=
  match p with
  | Meta => js "facebook"
  | YouTube => js "youtube"
  | X => js "x"
  | Pinterest => js "pinterest"
  | LinkedIn => js "linkedin"
  end.

(** The calls of [saveAccount] a handler made, run one after the other from
    the statement count [n]: the table they leave when each one succeeds. *)
Fixpoint store_each (w : world) (n : nat) (calls : list account) (t : table)
  : result table :=
  match calls with
  | [] => Ok t
  | a :: more =>
      t' <- saveAccount (sql_now w n) a t ;;
      store_each w (S n) more t'
  end.

(** The entry of [tokens] written for an account of the listing, and the
    name it is written under: [tokens[a.platform] = { ... }]. *)
Definition token_entry (a : Row.t * jsval) : jsval :=
  VObj [(js "access_token", to_js (Row.access_token (fst a)));
        (js "refresh_token", to_js (Row.refresh_token (fst a)));
        (js "platform_user_id", to_js (Row.platform_user_id (fst a)));
        (js "meta", snd a)].

Definition platform_key (a : Row.t * jsval) : jsstring :=
  Db.to_string (Row.platform (fst a)).

(** The authorization URL a start route redirects to, up to its question
    mark, and the query it appends for the state [state]. *)
Definition authorization_endpoint (p : provider) : jsstring :=
  match p with
  | Meta => js "https://www.facebook.com/v17.0/dialog/oauth?"
  | YouTube => js "https://accounts.google.com/o/oauth2/v2/auth?"
  | X => js "https://twitter.com/i/oauth2/authorize?"
  | Pinterest => js "https://www.pinterest.com/oauth/?"
  | LinkedIn => js "https://www.linkedin.com/oauth/v2/authorization?"
  end.

Definition authorization_query (p : provider) (cfg : config) (state : jsstring)
  : list (jsstring * jsval) :=
  match p with
  | Meta =>
      [(js "client_id", of_opt (META_APP_ID cfg));
       (js "redirect_uri", of_opt (META_REDIRECT cfg));
       (js "scope", VStr (js "pages_show_list,instagram_basic,instagram_content_publish,pages_read_engagement,pages_manage_posts"));
       (js "state", VStr state)]
  | YouTube =>
      [(js "client_id", of_opt (YOUTUBE_CLIENT_ID cfg));
       (js "redirect_uri", of_opt (YOUTUBE_REDIRECT cfg));
       (js "response_type", VStr (js "code"));
       (js "scope", VStr (js "https://www.googleapis.com/auth/youtube.upload https://www.googleapis.com/auth/youtube.readonly openid email profile"));
       (js "access_type", VStr (js "offline"));
       (js "prompt", VStr (js "consent"));
       (js "state", VStr state)]
  | X =>
      [(js "response_type", VStr (js "code"));
       (js "client_id", of_opt (X_CLIENT_ID cfg));
       (js "redirect_uri", of_opt (X_REDIRECT cfg));
       (js "scope", VStr (js "tweet.read tweet.write users.read offline.access"));
       (js "state", VStr state);
       (js "code_challenge", VStr (js "challenge"));
       (js "code_challenge_method", VStr (js "plain"))]
  | Pinterest =>
      [(js "response_type", VStr (js "code"));
       (js "client_id", of_opt (PINTEREST_CLIENT_ID cfg));
       (js "redirect_uri", of_opt (PINTEREST_REDIRECT cfg));
       (js "state", VStr state);
       (js "scope", VStr (js "pins:write,boards:read"))]
  | LinkedIn =>
      [(js "response_type", VStr (js "code"));
       (js "client_id", of_opt (LINKEDIN_CLIENT_ID cfg));
       (js "redirect_uri", of_opt (LINKEDIN_REDIRECT cfg));
       (js "scope", VStr (js "w_member_social r_liteprofile"));
       (js "state", VStr state)]
  end.


End Handlers.
Export Handlers.

(* ================================================================== *)
(** ** routes/x.js: the credentials of the token request *)

Module Basic.

(** The base64 alphabet: A-Z, a-z, 0-9, + and /. *)
Definition base64_digit (n : Z) : Z :=
  if n <? 26 then 65 + n
  else if n <? 52 then 71 + n
  else if n <? 62 then n - 4
  else if n =? 62 then 43
  else 47.

(** [buffer.toString('base64')]: three octets give four digits, and the
    last group is padded with [=]. *)
Fixpoint base64 (bs : list Z) : jsstring :=
  match bs with
  | [] => []
  | [a] => [base64_digit (a / 4); base64_digit (a mod 4 * 16); 61; 61]
  | [a; b] =>
      [base64_digit (a / 4); base64_digit (a mod 4 * 16 + b / 16);
       base64_digit (b mod 16 * 4); 61]
  | a :: b :: c :: rest =>
      base64_digit (a / 4) :: base64_digit (a mod 4 * 16 + b / 16)
      :: base64_digit (b mod 16 * 4 + c / 64) :: base64_digit (c mod 64)
      :: base64 rest
  end.

(** [`Basic ${Buffer.from(`${CLIENT_ID}:${CLIENT_SECRET}`).toString('base64')}`] *)
Definition x_authorization (CLIENT_ID CLIENT_SECRET : option jsstring) : jsstring :=
  js "Basic " ++ base64 (utf8_bytes (text_of CLIENT_ID ++ 58 :: text_of CLIENT_SECRET)).

(** Reading base64 back (RFC 4648), as the receiver of the header does. *)
Definition base64_value (c : Z) : option Z :=
  if (65 <=? c) && (c <=? 90) then Some (c - 65)
  else if (97 <=? c) && (c <=? 122) then Some (c - 71)
  else if (48 <=? c) && (c <=? 57) then Some (c + 4)
  else if c =? 43 then Some 62
  else if c =? 47 then Some 63
  else None.

Fixpoint base64_decode (s : jsstring) : option (list Z) :=
  match s with
  | [] => Some []
  | c1 :: c2 :: c3 :: c4 :: rest =>
      match base64_value c1, base64_value c2 with
      | Some v1, Some v2 =>
          if c3 =? 61 then
            match rest with
            | [] => if c4 =? 61 then Some [v1 * 4 + v2 / 16] else None
            | _ :: _ => None
            end
          else
            match base64_value c3 with
            | Some v3 =>
                if c4 =? 61 then
                  match rest with
                  | [] => Some [v1 * 4 + v2 / 16; v2 mod 16 * 16 + v3 / 4]
                  | _ :: _ => None
                  end
                else
                  match base64_value c4 with
                  | Some v4 =>
                      option_map
                        (fun r => v1 * 4 + v2 / 16 :: v2 mod 16 * 16 + v3 / 4
                                  :: v3 mod 4 * 64 + v4 :: r)
                        (base64_decode rest)
                  | None => None
                  end
            | None => None
            end
      | _, _ => None
      end
  | _ => None
  end.

End Basic.
Export Basic.

(* ================================================================== *)
(** * Properties *)

(** ** Arithmetic of the codecs *)

Ltac dlia := Z.div_mod_to_equations; lia.

Ltac zbool :=
  repeat match goal with
  | |- context [?a <? ?b] => destruct (Z.ltb_spec a b); try dlia
  | |- context [?a <=? ?b] => destruct (Z.leb_spec a b); try dlia
  | |- context [?a =? ?b] => destruct (Z.eqb_spec a b); try dlia
  end.

Lemma hex_val_upper (d : Z) : 0 <= d < 16 -> hex_val (hex_upper d) = Some d.
Proof.
  intros H. unfold hex_val, hex_upper.
  zbool; cbn [andb]; f_equal; lia.
Qed.

Lemma hex_val_lower (d : Z) : 0 <= d < 16 -> hex_val (hex_lower d) = Some d.
Proof.
  intros H. unfold hex_val, hex_lower.
  zbool; cbn [andb]; f_equal; lia.
Qed.

(** ** URI component coding: decoding inverts encoding *)

Lemma unescape_pct (b : Z) (r : jsstring) :
  is_octet b ->
  unescape (pct b ++ r) = option_map (cons (Esc b)) (unescape r).
Proof.
  intros Hb. unfold is_octet in Hb. unfold pct. cbn [app unescape Z.eqb Pos.eqb].
  rewrite !hex_val_upper by dlia.
  replace (b / 16 * 16 + b mod 16) with b by dlia. reflexivity.
Qed.

Lemma unescape_pct_all (bs : list Z) (r : jsstring) :
  Forall is_octet bs ->
  unescape (pct_all bs ++ r) = option_map (app (map Esc bs)) (unescape r).
Proof.
  induction 1 as [|b bs Hb _ IH]; cbn [pct_all flat_map map app].
  - destruct (unescape r); reflexivity.
  - rewrite <- app_assoc, unescape_pct by exact Hb.
    fold (pct_all bs). rewrite IH. destruct (unescape r); reflexivity.
Qed.

Lemma unescape_lit (c : Z) (r : jsstring) :
  c <> 37 -> unescape (c :: r) = option_map (cons (Lit c)) (unescape r).
Proof.
  intros H. cbn [unescape]. destruct (Z.eqb_spec c 37); [contradiction | reflexivity].
Qed.

Lemma utf8_octets (cp : Z) : is_scalar cp -> Forall is_octet (utf8 cp).
Proof.
  unfold is_scalar, utf8, is_octet. intros H.
  zbool; repeat constructor; dlia.
Qed.

Lemma utf8_decode_utf8 (cp : Z) (ts : list token) :
  is_scalar cp ->
  utf8_decode (map Esc (utf8 cp) ++ ts) = option_map (app (utf16 cp)) (utf8_decode ts).
Proof.
  unfold is_scalar, utf8. intros H.
  destruct (Z.ltb_spec cp 128); [|destruct (Z.ltb_spec cp 2048); [|destruct (Z.ltb_spec cp 65536)]];
    cbn [map app utf8_decode]; unfold is_cont, utf16.
  - zbool. destruct (utf8_decode ts); reflexivity.
  - zbool. cbn [andb].
    replace ((192 + cp / 64 - 192) * 64 + (128 + cp mod 64 - 128)) with cp by dlia.
    destruct (utf8_decode ts); reflexivity.
  - zbool; cbn [andb];
    replace ((224 + cp / 4096 - 224) * 4096 + (128 + cp / 64 mod 64 - 128) * 64
             + (128 + cp mod 64 - 128)) with cp by dlia;
    destruct (utf8_decode ts); reflexivity.
  - zbool; cbn [andb];
    replace ((240 + cp / 262144 - 240) * 262144 + (128 + cp / 4096 mod 64 - 128) * 4096
             + (128 + cp / 64 mod 64 - 128) * 64 + (128 + cp mod 64 - 128)) with cp by dlia;
    zbool; destruct (utf8_decode ts); reflexivity.
Qed.

Lemma unreserved_ascii (c : Z) :
  uri_unreserved c = true -> c <> 37 /\ 0 <= c < 128.
Proof.
  unfold uri_unreserved. cbn [existsb].
  intros H. zbool; cbn in H; try discriminate; lia.
Qed.

Lemma utf16_pair (c d : Z) :
  is_lead c = true -> is_trail d = true ->
  is_scalar (pair_cp c d) /\ utf16 (pair_cp c d) = [c; d].
Proof.
  unfold is_lead, is_trail, is_scalar, pair_cp, utf16.
  intros Hc Hd. apply andb_prop in Hc, Hd.
  rewrite !Z.leb_le in Hc, Hd. split; [lia|].
  zbool. f_equal; [|f_equal]; dlia.
Qed.

Lemma utf16_unit (c : Z) :
  is_code_unit c -> is_lead c = false -> is_trail c = false ->
  is_scalar c /\ utf16 c = [c].
Proof.
  unfold is_code_unit, is_lead, is_trail, is_scalar, utf16.
  intros Hc Hl Ht. apply andb_false_iff in Hl, Ht.
  rewrite !Z.leb_gt in Hl, Ht. split; [lia|].
  zbool. reflexivity.
Qed.

(** The two passes of the decoder over an encoded text. *)
Lemma encode_decode_passes (n : nat) :
  forall s, (length s <= n)%nat ->
  wf_string s -> well_formed s = true ->
  exists r ts, encodeURIComponent s = Ok r
               /\ unescape r = Some ts /\ utf8_decode ts = Some s.
Proof.
  induction n as [|n IH]; intros s Hlen Hwf Hpair.
  - destruct s; [|cbn in Hlen; lia]. exists [], []. repeat split.
  - destruct s as [|c rest]; [exists [], []; repeat split|].
    cbn [length] in Hlen. inversion Hwf as [|? ? Hc Hrest]; subst.
    cbn [encodeURIComponent well_formed] in *.
    destruct (uri_unreserved c) eqn:Hu.
    + destruct (unreserved_ascii c Hu) as [H37 Hascii].
      assert (Hl : is_lead c = false) by (unfold is_lead; zbool; reflexivity).
      assert (Ht : is_trail c = false) by (unfold is_trail; zbool; reflexivity).
      rewrite Hl, Ht in Hpair. cbn in Hpair.
      destruct (IH rest ltac:(lia) Hrest Hpair) as (r & ts & He & Hu1 & Hd).
      exists (c :: r), (Lit c :: ts). rewrite He. cbn [bind].
      rewrite unescape_lit, Hu1 by exact H37. cbn [option_map utf8_decode].
      rewrite Hd. repeat split.
    + destruct (is_lead c) eqn:Hl.
      * destruct rest as [|d rest']; [discriminate|].
        apply andb_prop in Hpair. destruct Hpair as [Ht Hpair]. rewrite Ht.
        inversion Hrest as [|? ? Hd' Hrest']; subst.
        cbn [length] in Hlen.
        destruct (IH rest' ltac:(lia) Hrest' Hpair) as (r & ts & He & Hu1 & Hd).
        destruct (utf16_pair c d Hl Ht) as [Hsc H16].
        exists (pct_all (utf8 (pair_cp c d)) ++ r), (map Esc (utf8 (pair_cp c d)) ++ ts).
        rewrite He. cbn [bind].
        rewrite unescape_pct_all, Hu1 by (apply utf8_octets; exact Hsc).
        rewrite utf8_decode_utf8, Hd, H16 by exact Hsc. repeat split.
      * apply andb_prop in Hpair. destruct Hpair as [Ht Hpair].
        apply negb_true_iff in Ht. rewrite Ht.
        destruct (IH rest ltac:(lia) Hrest Hpair) as (r & ts & He & Hu1 & Hd).
        destruct (utf16_unit c Hc Hl Ht) as [Hsc H16].
        exists (pct_all (utf8 c) ++ r), (map Esc (utf8 c) ++ ts).
        rewrite He. cbn [bind].
        rewrite unescape_pct_all, Hu1 by (apply utf8_octets; exact Hsc).
        rewrite utf8_decode_utf8, Hd, H16 by exact Hsc. repeat split.
Qed.

Lemma decode_encode (s : jsstring) :
  wf_string s -> well_formed s = true ->
  exists r, encodeURIComponent s = Ok r /\ decodeURIComponent r = Ok s.
Proof.
  intros Hwf Hpair.
  destruct (encode_decode_passes (length s) s (le_n _) Hwf Hpair)
    as (r & ts & He & Hu & Hd).
  exists r. split; [exact He|]. unfold decodeURIComponent. rewrite Hu, Hd. reflexivity.
Qed.

(** X1.  For every string without a lone surrogate, [encodeURIComponent]
    succeeds and [decodeURIComponent] gives the string back. *)
Theorem uri_component_round_trip (s : jsstring) :
  wf_string s -> well_formed s = true ->
  exists r, encodeURIComponent s = Ok r /\ decodeURIComponent r = Ok s.
Proof. exact (decode_encode s). Qed.

Lemma uri_component_round_trip_witness :
  exists r, encodeURIComponent [104; 233; 32; 8364; 55357; 56832] = Ok r
            /\ decodeURIComponent r = Ok [104; 233; 32; 8364; 55357; 56832].
Proof.
  apply uri_component_round_trip.
  - repeat constructor; unfold is_code_unit; lia.
  - reflexivity.
Defined.

(** ** JSON: parsing inverts quoting *)

Lemma hex4_unicode_escape (c : Z) :
  is_code_unit c ->
  hex4 (hex_lower (c / 4096)) (hex_lower ((c / 256) mod 16))
       (hex_lower ((c / 16) mod 16)) (hex_lower (c mod 16)) = Some c.
Proof.
  unfold is_code_unit, hex4. intros H.
  rewrite !hex_val_lower by dlia. f_equal. dlia.
Qed.

Lemma parse_chars_escape (c : Z) (x : jsstring) :
  is_code_unit c ->
  parse_chars (unicode_escape c ++ x) = cons_fst c (parse_chars x).
Proof.
  intros H. unfold unicode_escape.
  cbn [app parse_chars Z.eqb Pos.eqb].
  rewrite hex4_unicode_escape by exact H. reflexivity.
Qed.

Lemma parse_chars_plain (c : Z) (x : jsstring) :
  32 <= c -> c <> 34 -> c <> 92 ->
  parse_chars (c :: x) = cons_fst c (parse_chars x).
Proof.
  intros. cbn [parse_chars]. zbool. reflexivity.
Qed.

Lemma lead_range (c : Z) : is_lead c = true -> 55296 <= c <= 56319.
Proof. unfold is_lead. intros H. apply andb_prop in H. rewrite !Z.leb_le in H. exact H. Qed.

Lemma trail_range (c : Z) : is_trail c = true -> 56320 <= c <= 57343.
Proof. unfold is_trail. intros H. apply andb_prop in H. rewrite !Z.leb_le in H. exact H. Qed.

Lemma parse_chars_quote_units (n : nat) :
  forall u rest, (length u <= n)%nat -> wf_string u ->
  parse_chars (quote_units u ++ 34 :: rest) = Some (u, rest).
Proof.
  induction n as [|n IH]; intros u rest Hlen Hwf.
  - destruct u; [reflexivity | cbn in Hlen; lia].
  - destruct u as [|c u']; [reflexivity|].
    cbn [length] in Hlen. inversion Hwf as [|? ? Hc Hu']; subst.
    assert (IHu : parse_chars (quote_units u' ++ 34 :: rest) = Some (u', rest))
      by (apply IH; [lia | exact Hu']).
    cbn [quote_units].
    destruct (Z.eqb_spec c 8); [subst; cbn; rewrite IHu; reflexivity|].
    destruct (Z.eqb_spec c 9); [subst; cbn; rewrite IHu; reflexivity|].
    destruct (Z.eqb_spec c 10); [subst; cbn; rewrite IHu; reflexivity|].
    destruct (Z.eqb_spec c 12); [subst; cbn; rewrite IHu; reflexivity|].
    destruct (Z.eqb_spec c 13); [subst; cbn; rewrite IHu; reflexivity|].
    destruct (Z.eqb_spec c 34); [subst; cbn; rewrite IHu; reflexivity|].
    destruct (Z.eqb_spec c 92); [subst; cbn; rewrite IHu; reflexivity|].
    destruct (Z.ltb_spec c 32).
    { rewrite <- app_assoc, parse_chars_escape, IHu by exact Hc. reflexivity. }
    destruct (is_lead c) eqn:Hl.
    { destruct u' as [|d u''].
      - cbn [app]. rewrite <- (app_nil_l (34 :: rest)) at 1.
        change (unicode_escape c ++ [] ++ 34 :: rest)
          with (unicode_escape c ++ 34 :: rest).
        rewrite parse_chars_escape by exact Hc. reflexivity.
      - destruct (is_trail d) eqn:Ht.
        + inversion Hu' as [|? ? Hd Hu'']; subst. cbn [length] in Hlen.
          pose proof (trail_range d Ht).
          cbn [app]. rewrite !parse_chars_plain by lia.
          rewrite IH by (try lia; exact Hu''). reflexivity.
        + rewrite <- app_assoc, parse_chars_escape, IHu by exact Hc. reflexivity. }
    destruct (is_trail c) eqn:Ht.
    { rewrite <- app_assoc, parse_chars_escape, IHu by exact Hc. reflexivity. }
    cbn [app]. rewrite parse_chars_plain, IHu by lia. reflexivity.
Qed.

(** Quoted text never holds a lone surrogate, and stays within 16 bits. *)
Lemma hex_lower_ascii (d : Z) : 0 <= d < 16 -> 0 <= hex_lower d < 128.
Proof. unfold hex_lower. intros. zbool. Qed.

Lemma well_formed_ascii (c : Z) (s : jsstring) :
  0 <= c < 128 -> well_formed (c :: s) = well_formed s.
Proof.
  intros H. cbn [well_formed]. unfold is_lead, is_trail. zbool. reflexivity.
Qed.

Lemma well_formed_escape (c : Z) (s : jsstring) :
  is_code_unit c -> well_formed (unicode_escape c ++ s) = well_formed s.
Proof.
  unfold is_code_unit, unicode_escape. intros H. cbn [app].
  rewrite !well_formed_ascii; try reflexivity; try lia; apply hex_lower_ascii; dlia.
Qed.

Lemma wf_string_escape (c : Z) : is_code_unit c -> wf_string (unicode_escape c).
Proof.
  unfold is_code_unit, unicode_escape, wf_string. intros H.
  repeat constructor; unfold is_code_unit; try lia;
    match goal with |- context [hex_lower ?d] =>
      pose proof (hex_lower_ascii d ltac:(dlia)); lia end.
Qed.

Lemma quote_units_well_formed (n : nat) :
  forall u tail, (length u <= n)%nat -> wf_string u ->
  well_formed tail = true -> well_formed (quote_units u ++ tail) = true.
Proof.
  induction n as [|n IH]; intros u tail Hlen Hwf Htail.
  - destruct u; [exact Htail | cbn in Hlen; lia].
  - destruct u as [|c u']; [exact Htail|].
    cbn [length] in Hlen. inversion Hwf as [|? ? Hc Hu']; subst.
    assert (IHu : well_formed (quote_units u' ++ tail) = true)
      by (apply IH; [lia | exact Hu' | exact Htail]).
    cbn [quote_units].
    destruct (Z.eqb_spec c 8); [cbn [app]; rewrite !well_formed_ascii by lia; exact IHu|].
    destruct (Z.eqb_spec c 9); [cbn [app]; rewrite !well_formed_ascii by lia; exact IHu|].
    destruct (Z.eqb_spec c 10); [cbn [app]; rewrite !well_formed_ascii by lia; exact IHu|].
    destruct (Z.eqb_spec c 12); [cbn [app]; rewrite !well_formed_ascii by lia; exact IHu|].
    destruct (Z.eqb_spec c 13); [cbn [app]; rewrite !well_formed_ascii by lia; exact IHu|].
    destruct (Z.eqb_spec c 34); [cbn [app]; rewrite !well_formed_ascii by lia; exact IHu|].
    destruct (Z.eqb_spec c 92); [cbn [app]; rewrite !well_formed_ascii by lia; exact IHu|].
    destruct (Z.ltb_spec c 32).
    { rewrite <- app_assoc, well_formed_escape by exact Hc. exact IHu. }
    destruct (is_lead c) eqn:Hl.
    { destruct u' as [|d u''].
      - rewrite well_formed_escape by exact Hc. exact Htail.
      - destruct (is_trail d) eqn:Ht.
        + inversion Hu' as [|? ? Hd Hu'']; subst. cbn [length] in Hlen.
          cbn [app well_formed]. rewrite Hl, Ht. cbn [andb].
          apply IH; [lia | exact Hu'' | exact Htail].
        + rewrite <- app_assoc, well_formed_escape by exact Hc. exact IHu. }
    destruct (is_trail c) eqn:Ht.
    { rewrite <- app_assoc, well_formed_escape by exact Hc. exact IHu. }
    cbn [app well_formed]. rewrite Hl, Ht. exact IHu.
Qed.

Lemma quote_units_wf (n : nat) :
  forall u, (length u <= n)%nat -> wf_string u -> wf_string (quote_units u).
Proof.
  unfold wf_string.
  induction n as [|n IH]; intros u Hlen Hwf.
  - destruct u; [constructor | cbn in Hlen; lia].
  - destruct u as [|c u']; [constructor|].
    cbn [length] in Hlen. inversion Hwf as [|? ? Hc Hu']; subst.
    assert (IHu : Forall is_code_unit (quote_units u')) by (apply IH; [lia | exact Hu']).
    assert (Hesc : forall x, Forall is_code_unit x ->
                             Forall is_code_unit (unicode_escape c ++ x))
      by (intros x Hx; apply Forall_app; split; [apply wf_string_escape; exact Hc | exact Hx]).
    assert (Hsmall : forall a x, 0 <= a < 128 -> Forall is_code_unit x ->
                                 Forall is_code_unit (a :: x))
      by (intros a x Ha Hx; constructor; [unfold is_code_unit; lia | exact Hx]).
    cbn [quote_units].
    repeat match goal with
    | |- Forall _ (if ?b then _ else _) => destruct b eqn:?
    | |- Forall _ (match ?l with [] => _ | _ :: _ => _ end) => destruct l
    end;
    try (apply Hesc; try exact IHu; constructor);
    try (apply Hsmall; [lia|]; apply Hsmall; [lia|]; exact IHu).
    + inversion Hu' as [|? ? Hd Hu'']; subst. cbn [length] in Hlen.
      constructor; [exact Hc|]. constructor; [exact Hd|]. apply IH; [lia | exact Hu''].
    + constructor; [exact Hc | exact IHu].
Qed.

(** *** Fuel *)

Ltac fuel_step IHv IHm IHe :=
  repeat match goal with
  | H : context [match ?x with _ => _ end] |- _ =>
      match x with
      | parse_value _ _ =>
          let E := fresh "E" in
          destruct x as [[? ?]|] eqn:E; [apply IHv in E; rewrite E | discriminate]
      | parse_members _ _ =>
          let E := fresh "E" in
          destruct x as [[? ?]|] eqn:E; [apply IHm in E; rewrite E | discriminate]
      | parse_elems _ _ =>
          let E := fresh "E" in
          destruct x as [[? ?]|] eqn:E; [apply IHe in E; rewrite E | discriminate]
      | _ => destruct x; try discriminate
      end
  end.

(** A result of the parser stays the same with more fuel. *)
Lemma parse_fuel_mono (f : nat) :
  (forall s r, parse_value f s = Some r -> parse_value (S f) s = Some r)
  /\ (forall s r, parse_members f s = Some r -> parse_members (S f) s = Some r)
  /\ (forall s r, parse_elems f s = Some r -> parse_elems (S f) s = Some r).
Proof.
  induction f as [|f (IHv & IHm & IHe)].
  - repeat split; intros s r H; discriminate.
  - repeat split; intros s r H; remember (S f) as g eqn:Hg;
      rewrite Hg in H; cbn [parse_value parse_members parse_elems] in H |- *.
    + fuel_step IHv IHm IHe; exact H.
    + fuel_step IHv IHm IHe; exact H.
    + fuel_step IHv IHm IHe; exact H.
Qed.

(** ** The state codec *)

Lemma stringify_state (u : jsstring) :
  stringify (VObj [(js "user_id", VStr u)]) = Some (state_text u).
Proof.
  unfold state_text. cbn. unfold quote. cbn.
  rewrite <- app_assoc. reflexivity.
Qed.

Lemma parse_value_string (f : nat) (u rest : jsstring) :
  wf_string u ->
  parse_value (S f) (34 :: quote_units u ++ 34 :: rest) = Some (VStr u, rest).
Proof.
  intros Hwf. cbn [parse_value skip_ws is_ws Z.eqb Pos.eqb orb].
  rewrite (parse_chars_quote_units (length u) u rest (le_n _) Hwf). reflexivity.
Qed.

Lemma parse_members_last (f : nat) (k x rest : jsstring) (v : jsval) :
  wf_string k ->
  parse_value f x = Some (v, 125 :: rest) ->
  parse_members (S f) (34 :: quote_units k ++ 34 :: 58 :: x) = Some ([(k, v)], rest).
Proof.
  intros Hwf Hv. cbn [parse_members Z.eqb Pos.eqb].
  rewrite (parse_chars_quote_units (length k) k _ (le_n _) Hwf).
  cbn [skip_ws is_ws Z.eqb Pos.eqb orb]. rewrite Hv.
  cbn [skip_ws is_ws Z.eqb Pos.eqb orb]. reflexivity.
Qed.

Lemma parse_value_object (f : nat) (s r : jsstring) (ms : list (jsstring * jsval)) :
  parse_members f (34 :: s) = Some (ms, r) ->
  parse_value (S f) (123 :: 34 :: s) = Some (VObj (object_of ms), r).
Proof.
  intros Hm. cbn [parse_value skip_ws is_ws Z.eqb Pos.eqb orb].
  rewrite Hm. reflexivity.
Qed.

Lemma wf_user_id : wf_string (js "user_id").
Proof. repeat constructor; unfold is_code_unit; cbn; lia. Qed.

Lemma parse_state_text (u : jsstring) :
  wf_string u -> parse (state_text u) = Ok (VObj [(js "user_id", VStr u)]).
Proof.
  intros Hwf. unfold parse.
  assert (Hfuel : exists f, (length (state_text u) + length (state_text u))%nat
                            = S (S f))
    by (unfold state_text; cbn [length Nat.add]; eexists; reflexivity).
  destruct Hfuel as [f Hfuel]. rewrite Hfuel.
  unfold state_text.
  rewrite (parse_value_object (S (S f)) _ []
             [(js "user_id", VStr u)]).
  - reflexivity.
  - apply parse_members_last; [exact wf_user_id|].
    change [34; 125] with (34 :: [125]).
    apply parse_value_string. exact Hwf.
Qed.

Lemma state_text_wf (u : jsstring) : wf_string u -> wf_string (state_text u).
Proof.
  intros Hwf. unfold state_text, wf_string.
  assert (Hq : forall x, wf_string x -> Forall is_code_unit (quote_units x))
    by (intros x Hx; exact (quote_units_wf (length x) x (le_n _) Hx)).
  assert (Hascii : forall c x, 0 <= c < 128 -> Forall is_code_unit x ->
                               Forall is_code_unit (c :: x))
    by (intros c x Hc Hx; apply Forall_cons; [unfold is_code_unit; lia | exact Hx]).
  apply Hascii; [lia|]. apply Hascii; [lia|].
  apply Forall_app. split; [apply Hq; exact wf_user_id|].
  apply Hascii; [lia|]. apply Hascii; [lia|]. apply Hascii; [lia|].
  apply Forall_app. split; [apply Hq; exact Hwf|].
  apply Hascii; [lia|]. apply Hascii; [lia|]. apply Forall_nil.
Qed.

Lemma state_text_well_formed (u : jsstring) :
  wf_string u -> well_formed (state_text u) = true.
Proof.
  intros Hwf. unfold state_text.
  rewrite !well_formed_ascii by lia.
  apply (quote_units_well_formed (length (js "user_id")) _ _ (le_n _) wf_user_id).
  rewrite !well_formed_ascii by lia.
  apply (quote_units_well_formed (length u) _ _ (le_n _) Hwf).
  reflexivity.
Qed.

(** C6.  For every valid user identifier (a non-empty string of 16-bit code
    units) the state built by a start route is decoded by the callbacks to
    that identifier: [encodeURIComponent(JSON.stringify({ user_id }))]
    succeeds with a non-empty state, and
    [JSON.parse(decodeURIComponent(state)).user_id || 'unknown'] is the
    identifier itself. *)
Theorem state_round_trip (u : jsstring) :
  wf_string u -> u <> [] ->
  exists st : jsstring,
    encode_state u = Ok st /\ st <> []
    /\ user_of_state (Some st) = Ok (VStr u, VStr u).
Proof.
  intros Hwf Hne.
  destruct (decode_encode (state_text u) (state_text_wf u Hwf)
              (state_text_well_formed u Hwf)) as (st & Henc & Hdec).
  exists st. unfold encode_state. rewrite stringify_state. cbn [text_of].
  split; [exact Henc|].
  assert (Hst : st <> []).
  { intros ->. unfold decodeURIComponent in Hdec. cbn in Hdec. discriminate. }
  split; [exact Hst|].
  unfold user_of_state, parse_state.
  destruct st as [|c st']; [contradiction|].
  rewrite Hdec. cbn [bind]. rewrite parse_state_text by exact Hwf.
  cbn [bind get_prop lookup]. 
  replace (str_eqb (js "user_id") (js "user_id")) with true by reflexivity.
  unfold js_or. destruct u as [|c0 u']; [contradiction|]. reflexivity.
Qed.

(** The state of the user u1, as the start routes build it. *)
Example state_of_u1 : encode_state (js "u1") = Ok Samples.state_u1.
Proof. reflexivity. Qed.

Lemma state_round_trip_witness :
  exists st : jsstring,
    encode_state (js "user 42") = Ok st /\ st <> []
    /\ user_of_state (Some st) = Ok (VStr (js "user 42"), VStr (js "user 42")).
Proof.
  apply (state_round_trip (js "user 42")).
  - repeat constructor; unfold is_code_unit; cbn; lia.
  - discriminate.
Defined.

(* ================================================================== *)
(** ** The credential store *)

Lemma str_eqb_eq (a b : jsstring) : str_eqb a b = true <-> a = b.
Proof.
  revert b. induction a as [|x a IH]; intros [|y b]; cbn [str_eqb];
    try (split; [discriminate | discriminate]); [split; reflexivity|].
  rewrite andb_true_iff, Z.eqb_eq, IH. split.
  - intros [-> ->]. reflexivity.
  - intros H. inversion H. split; reflexivity.
Qed.

Lemma str_eqb_refl (a : jsstring) : str_eqb a a = true.
Proof. apply str_eqb_eq. reflexivity. Qed.

Section Store.

Import Samples.

(** The statement of [saveAccount] cannot be prepared on a table without
    the key its conflict clause names. *)
Lemma saveAccount_without_key (now : Z) (a : account) (rs : list Row.t) :
  saveAccount now a {| unique_user_platform := false; rows := rs |}
  = Throw SqliteError.
Proof. reflexivity. Qed.

Lemma save_all_without_key (calls : list (Z * account)) (rs : list Row.t) :
  save_all calls {| unique_user_platform := false; rows := rs |}
  = {| unique_user_platform := false; rows := rs |}.
Proof.
  induction calls as [|[now a] more IH]; [reflexivity|].
  cbn [save_all]. rewrite saveAccount_without_key. exact IH.
Qed.

(** X2.  On the table db.js creates, the conflict clause of [saveAccount]
    names a key the schema does not declare: whatever the sequence of calls,
    every one of them raises the engine's error and the table stays
    empty. *)
Theorem created_table_never_upserts (calls : list (Z * account)) :
  save_all calls (open_db None) = social_accounts
  /\ rows (save_all calls (open_db None)) = []
  /\ Forall (fun c => saveAccount (fst c) (snd c) (open_db None) = Throw SqliteError)
            calls.
Proof.
  unfold open_db, social_accounts.
  rewrite save_all_without_key. repeat split.
  apply Forall_forall. intros [now a] _. reflexivity.
Qed.

(** C2.  Two [saveAccount] calls for the pair (u1, facebook) with different
    tokens, on the table db.js creates: both raise the engine's error and no
    record of the pair exists afterwards. *)
Theorem two_saves_leave_no_record :
  saveAccount 1700000002 first_save (open_db None) = Throw SqliteError
  /\ saveAccount 1700000009 second_save (open_db None) = Throw SqliteError
  /\ records_of (js "u1") (js "facebook")
       (save_all [(1700000002, first_save); (1700000009, second_save)]
                 (open_db None)) = [].
Proof. repeat split. Qed.

(** *** A table that carries the key *)

Lemma sql_eqb_text (v : sqlval) (s : jsstring) :
  sql_eqb v (SqlText s) = true <-> v = SqlText s.
Proof.
  destruct v as [|x|x]; cbn [sql_eqb]; try (split; discriminate).
  rewrite str_eqb_eq. split; [intros ->; reflexivity | intros H; inversion H; reflexivity].
Qed.

Lemma selects_iff (u p : jsstring) (r : Row.t) :
  selects u p r = true
  <-> Row.user_id r = text_param u /\ Row.platform r = text_param p.
Proof.
  unfold selects, text_param. rewrite andb_true_iff, !sql_eqb_text. reflexivity.
Qed.

(** A string given as a key is stored as the text a query for it looks
    for. *)
Lemma stored_key (s : jsstring) : stored TEXT (VStr s) = Ok (text_param s).
Proof. reflexivity. Qed.

Lemma selects_do_update (u p : jsstring) (old new : Row.t) :
  selects u p (do_update old new) = selects u p old.
Proof. reflexivity. Qed.

(** A record of the pair conflicts with a new record of the same pair. *)
Lemma selected_conflicts (u p : jsstring) (r new : Row.t) :
  selects u p r = true -> selects u p new = true -> conflicts r new = true.
Proof.
  rewrite !selects_iff. intros [Hu Hp] [Hu' Hp']. unfold conflicts.
  rewrite Hu, Hp, Hu', Hp'. unfold text_param. cbn [sql_eqb].
  rewrite !str_eqb_refl. reflexivity.
Qed.

(** A record that conflicts with a new record of the pair is of the pair. *)
Lemma conflicts_selected (u p : jsstring) (r new : Row.t) :
  conflicts r new = true -> selects u p new = true -> selects u p r = true.
Proof.
  rewrite !selects_iff. intros Hc [Hu Hp]. unfold conflicts in Hc.
  rewrite Hu, Hp in Hc. apply andb_prop in Hc. destruct Hc as [H1 H2].
  unfold text_param in *. apply sql_eqb_text in H1, H2. split; assumption.
Qed.

(** The records of the pair of the new record, after the upsert: the new
    record when there was none, the updated one when there was one. *)
Lemma upsert_own_pair (u p : jsstring) (new : Row.t) (rs : list Row.t) :
  selects u p new = true ->
  (length (filter (selects u p) rs) <= 1)%nat ->
  filter (selects u p) (upsert new rs)
  = match filter (selects u p) rs with
    | [] => [new]
    | r :: _ => [do_update r new]
    end.
Proof.
  intros Hnew. induction rs as [|r rs IH]; intros Hlen.
  - cbn [upsert filter]. rewrite Hnew. reflexivity.
  - cbn [upsert filter] in *. destruct (conflicts r new) eqn:Hc.
    + rewrite (conflicts_selected u p r new Hc Hnew) in *.
      cbn [filter]. rewrite selects_do_update, (conflicts_selected u p r new Hc Hnew).
      cbn [length] in Hlen. destruct (filter (selects u p) rs); [reflexivity|].
      cbn [length] in Hlen. lia.
    + destruct (selects u p r) eqn:Hr.
      * rewrite (selected_conflicts u p r new Hr Hnew) in Hc. discriminate.
      * cbn [filter]. rewrite Hr. apply IH. exact Hlen.
Qed.

(** The records of any other pair are the same in number. *)
Lemma upsert_other_pair (u p : jsstring) (new : Row.t) (rs : list Row.t) :
  selects u p new = false ->
  length (filter (selects u p) (upsert new rs)) = length (filter (selects u p) rs).
Proof.
  intros Hnew. induction rs as [|r rs IH].
  - cbn [upsert filter]. rewrite Hnew. reflexivity.
  - cbn [upsert filter]. destruct (conflicts r new).
    + cbn [filter]. rewrite selects_do_update. destruct (selects u p r); reflexivity.
    + cbn [filter]. destruct (selects u p r); cbn [length]; rewrite IH; reflexivity.
Qed.

Lemma upsert_at_most_one (u p : jsstring) (new : Row.t) (rs : list Row.t) :
  (length (filter (selects u p) rs) <= 1)%nat ->
  (length (filter (selects u p) (upsert new rs)) <= 1)%nat.
Proof.
  intros Hlen. destruct (selects u p new) eqn:Hnew.
  - rewrite (upsert_own_pair u p new rs Hnew Hlen).
    destruct (filter (selects u p) rs); cbn [length]; lia.
  - rewrite (upsert_other_pair u p new rs Hnew). exact Hlen.
Qed.

(** What a successful [saveAccount] did. *)
Lemma saveAccount_ok (now : Z) (a : account) (t t' : table) :
  saveAccount now a t = Ok t' ->
  exists new,
    t' = {| unique_user_platform := unique_user_platform t;
            rows := upsert new (rows t) |}
    /\ unique_user_platform t = true
    /\ stored TEXT (userId a) = Ok (Row.user_id new)
    /\ stored TEXT (platform a) = Ok (Row.platform new)
    /\ stored TEXT (platformUserId a) = Ok (Row.platform_user_id new)
    /\ stored TEXT (accessToken a) = Ok (Row.access_token new)
    /\ stored TEXT (default_null (refreshToken a)) = Ok (Row.refresh_token new)
    /\ stored INTEGER (default_null (expiresAt a)) = Ok (Row.expires_at new)
    /\ Row.created_at new = now.
Proof.
  unfold saveAccount, prepare_upsert, stored.
  destruct (unique_user_platform t); cbn [bind]; [|discriminate].
  destruct (bind_value (userId a)) as [c1|]; cbn [bind]; [|discriminate].
  destruct (bind_value (platform a)) as [c2|]; cbn [bind]; [|discriminate].
  destruct (bind_value (platformUserId a)) as [c3|]; cbn [bind]; [|discriminate].
  destruct (bind_value (accessToken a)) as [c4|]; cbn [bind]; [|discriminate].
  destruct (bind_value (default_null (refreshToken a))) as [c5|]; cbn [bind]; [|discriminate].
  match goal with
  | |- context [bind (bind_value ?m) _] =>
      destruct (bind_value m) as [c6|]; cbn [bind]; [|discriminate]
  end.
  destruct (bind_value (default_null (expiresAt a))) as [c7|]; cbn [bind]; [|discriminate].
  intros H. inversion H. eexists. repeat split.
Qed.

(** On any table, [saveAccount] keeps at most one record per pair: a call
    that throws changes nothing, a call that succeeds upserts. *)
Lemma saveAccount_at_most_one (now : Z) (a : account) (t t' : table) :
  at_most_one t -> saveAccount now a t = Ok t' -> at_most_one t'.
Proof.
  intros Hinv Hsave u p.
  destruct (saveAccount_ok now a t t' Hsave) as (new & -> & _).
  unfold records_of. cbn [rows]. apply upsert_at_most_one. apply Hinv.
Qed.

Lemma save_all_at_most_one (calls : list (Z * account)) (t : table) :
  at_most_one t -> at_most_one (save_all calls t).
Proof.
  revert t. induction calls as [|[now a] more IH]; intros t Hinv; [exact Hinv|].
  cbn [save_all]. destruct (saveAccount now a t) as [t'|e] eqn:Hs.
  - apply IH. exact (saveAccount_at_most_one now a t t' Hinv Hs).
  - apply IH. exact Hinv.
Qed.

Lemma at_most_one_from_empty (keyed_table : bool) (calls : list (Z * account)) :
  at_most_one (save_all calls {| unique_user_platform := keyed_table; rows := [] |}).
Proof.
  apply save_all_at_most_one. intros u p. cbn. lia.
Qed.

(** An upsert that meets a record of its pair inserts nothing. *)
Lemma upsert_length (u p : jsstring) (new r : Row.t) (rs : list Row.t) :
  selects u p new = true -> In r (filter (selects u p) rs) ->
  length (upsert new rs) = length rs.
Proof.
  intros Hnew. induction rs as [|x rs IH]; intros Hin; [destruct Hin|].
  cbn [upsert]. destruct (conflicts x new) eqn:Hc; [reflexivity|].
  cbn [length]. f_equal. apply IH.
  cbn [filter] in Hin. destruct (selects u p x) eqn:Hx; [|exact Hin].
  rewrite (selected_conflicts u p x new Hx Hnew) in Hc. discriminate.
Qed.

(** C1.  Starting from an empty table, whether or not it carries the key,
    any sequence of [saveAccount] calls leaves at most one record per pair
    of a user identifier and a platform; and a successful call for a pair
    that has a record inserts no record: the number of rows is unchanged and
    the one record of the pair keeps its creation time and takes the call's
    values. *)
Theorem one_record_per_pair :
  (forall (keyed_table : bool) (calls : list (Z * account)),
      at_most_one (save_all calls {| unique_user_platform := keyed_table; rows := [] |}))
  /\ (forall (t t' : table) (now : Z) (a : account) (u p : jsstring) (r : Row.t),
      at_most_one t -> records_of u p t = [r] ->
      userId a = VStr u -> platform a = VStr p ->
      saveAccount now a t = Ok t' ->
      length (rows t') = length (rows t)
      /\ exists r', records_of u p t' = [r']
                    /\ Row.created_at r' = Row.created_at r
                    /\ stored TEXT (platformUserId a) = Ok (Row.platform_user_id r')
                    /\ stored TEXT (accessToken a) = Ok (Row.access_token r')
                    /\ stored TEXT (default_null (refreshToken a))
                       = Ok (Row.refresh_token r')
                    /\ stored INTEGER (default_null (expiresAt a))
                       = Ok (Row.expires_at r')).
Proof.
  split; [exact at_most_one_from_empty|].
  intros t t' now a u p r Hinv Hr Hu Hp Hs.
  destruct (saveAccount_ok now a t t' Hs)
    as (new & -> & _ & Hbu & Hbp & Hb3 & Hb4 & Hb5 & Hb7 & _).
  rewrite Hu, stored_key in Hbu. rewrite Hp, stored_key in Hbp.
  inversion Hbu as [Hnu]. inversion Hbp as [Hnp].
  assert (Hsel : selects u p new = true) by (apply selects_iff; split; congruence).
  unfold records_of in *. cbn [rows]. split.
  - apply (upsert_length u p new r); [exact Hsel|]. rewrite Hr. left. reflexivity.
  - rewrite (upsert_own_pair u p new (rows t) Hsel (Hinv u p)), Hr.
    exists (do_update r new). repeat split; assumption.
Qed.

Lemma one_record_per_pair_witness :
  length (rows (match saveAccount 1700000009 second_save holding_u1 with
                | Ok t' => t'
                | Throw _ => holding_u1
                end)) = length (rows holding_u1)
  /\ exists r',
       records_of (js "u1") (js "facebook")
         (match saveAccount 1700000009 second_save holding_u1 with
          | Ok t' => t'
          | Throw _ => holding_u1
          end) = [r']
       /\ Row.created_at r' = 1700000002
       /\ stored TEXT (platformUserId second_save) = Ok (Row.platform_user_id r')
       /\ stored TEXT (accessToken second_save) = Ok (Row.access_token r')
       /\ stored TEXT (default_null (refreshToken second_save))
          = Ok (Row.refresh_token r')
       /\ stored INTEGER (default_null (expiresAt second_save))
          = Ok (Row.expires_at r').
Proof.
  apply (proj2 one_record_per_pair holding_u1
           (match saveAccount 1700000009 second_save holding_u1 with
            | Ok t' => t'
            | Throw _ => holding_u1
            end)
           1700000009 second_save (js "u1") (js "facebook")
           {| Row.user_id := SqlText (js "u1");
              Row.platform := SqlText (js "facebook");
              Row.platform_user_id := SqlText (js "P1");
              Row.access_token := SqlText (js "tokenA");
              Row.refresh_token := SqlNull;
              Row.meta_json := SqlNull;
              Row.expires_at := SqlNull;
              Row.created_at := 1700000002 |}).
  - intros u p. unfold records_of, holding_u1. cbn [rows filter].
    destruct (selects u p _); cbn [length]; lia.
  - reflexivity.
  - reflexivity.
  - reflexivity.
  - vm_compute. reflexivity.
Defined.

(** X3.  On a table that carries the key, the second of two successful
    calls for one pair replaces the record of the first: one record of the
    pair is left, with the second call's values and the first record's pair
    and creation time. *)
Theorem second_save_replaces (now1 now2 : Z) (a1 a2 : account) (t t1 t2 : table)
  (u p : jsstring) :
  at_most_one t ->
  userId a1 = VStr u -> platform a1 = VStr p ->
  userId a2 = VStr u -> platform a2 = VStr p ->
  saveAccount now1 a1 t = Ok t1 ->
  saveAccount now2 a2 t1 = Ok t2 ->
  exists r1 r2,
    records_of u p t1 = [r1] /\ records_of u p t2 = [r2]
    /\ Row.user_id r2 = SqlText (to_well_formed u)
    /\ Row.platform r2 = SqlText (to_well_formed p)
    /\ Row.created_at r2 = Row.created_at r1
    /\ stored TEXT (platformUserId a2) = Ok (Row.platform_user_id r2)
    /\ stored TEXT (accessToken a2) = Ok (Row.access_token r2)
    /\ stored TEXT (default_null (refreshToken a2)) = Ok (Row.refresh_token r2)
    /\ stored INTEGER (default_null (expiresAt a2)) = Ok (Row.expires_at r2).
Proof.
  intros Hinv Hu1 Hp1 Hu2 Hp2 Hs1 Hs2.
  destruct (saveAccount_ok now1 a1 t t1 Hs1)
    as (n1 & -> & _ & Hbu1 & Hbp1 & _).
  destruct (saveAccount_ok now2 a2 _ t2 Hs2)
    as (n2 & -> & _ & Hbu2 & Hbp2 & Hb3 & Hb4 & Hb5 & Hb7 & _).
  rewrite Hu1, stored_key in Hbu1. rewrite Hp1, stored_key in Hbp1.
  rewrite Hu2, stored_key in Hbu2. rewrite Hp2, stored_key in Hbp2.
  inversion Hbu1 as [Hn1u]. inversion Hbp1 as [Hn1p].
  inversion Hbu2 as [Hn2u]. inversion Hbp2 as [Hn2p].
  assert (Hsel1 : selects u p n1 = true) by (apply selects_iff; split; congruence).
  assert (Hsel2 : selects u p n2 = true) by (apply selects_iff; split; congruence).
  unfold records_of. cbn [rows].
  pose proof (upsert_own_pair u p n1 (rows t) Hsel1 (Hinv u p)) as H1.
  pose proof (upsert_at_most_one u p n1 (rows t) (Hinv u p)) as Hlen1.
  pose proof (upsert_own_pair u p n2 (upsert n1 (rows t)) Hsel2 Hlen1) as H2.
  assert (Hone : exists r1, filter (selects u p) (upsert n1 (rows t)) = [r1]
                            /\ selects u p r1 = true).
  { rewrite H1. unfold records_of in Hinv.
    destruct (filter (selects u p) (rows t)) as [|r rest] eqn:Hf.
    - exists n1. split; [reflexivity | exact Hsel1].
    - exists (do_update r n1). split; [reflexivity|].
      rewrite selects_do_update.
      assert (Hin : In r (filter (selects u p) (rows t))) by (rewrite Hf; left; reflexivity).
      apply filter_In in Hin. apply Hin. }
  destruct Hone as (r1 & Hr1 & Hselr1).
  rewrite Hr1 in H2. exists r1, (do_update r1 n2).
  apply selects_iff in Hselr1. destruct Hselr1 as [Hur1 Hpr1].
  repeat split; try assumption; cbn [do_update Row.user_id Row.platform Row.created_at
    Row.platform_user_id Row.access_token Row.refresh_token Row.expires_at];
    try assumption; reflexivity.
Qed.

Lemma second_save_replaces_witness :
  exists r1 r2,
    records_of (js "u1") (js "facebook")
      (match saveAccount 1700000002 first_save keyed with
       | Ok t1 => t1
       | Throw _ => keyed
       end) = [r1]
    /\ records_of (js "u1") (js "facebook")
         (match saveAccount 1700000009 second_save
                  (match saveAccount 1700000002 first_save keyed with
                   | Ok t1 => t1
                   | Throw _ => keyed
                   end) with
          | Ok t2 => t2
          | Throw _ => keyed
          end) = [r2]
    /\ Row.user_id r2 = SqlText (to_well_formed (js "u1"))
    /\ Row.platform r2 = SqlText (to_well_formed (js "facebook"))
    /\ Row.created_at r2 = Row.created_at r1
    /\ stored TEXT (platformUserId second_save) = Ok (Row.platform_user_id r2)
    /\ stored TEXT (accessToken second_save) = Ok (Row.access_token r2)
    /\ stored TEXT (default_null (refreshToken second_save)) = Ok (Row.refresh_token r2)
    /\ stored INTEGER (default_null (expiresAt second_save)) = Ok (Row.expires_at r2).
Proof.
  destruct (second_save_replaces 1700000002 1700000009 first_save second_save keyed
              (match saveAccount 1700000002 first_save keyed with
               | Ok t1 => t1
               | Throw _ => keyed
               end)
              (match saveAccount 1700000009 second_save
                       (match saveAccount 1700000002 first_save keyed with
                        | Ok t1 => t1
                        | Throw _ => keyed
                        end) with
               | Ok t2 => t2
               | Throw _ => keyed
               end)
              (js "u1") (js "facebook"))
    as (r1 & r2 & H).
  - intros u p. cbn. lia.
  - reflexivity.
  - reflexivity.
  - reflexivity.
  - reflexivity.
  - vm_compute. reflexivity.
  - vm_compute. reflexivity.
  - exists r1, r2. exact H.
Defined.

End Store.

(* ================================================================== *)
(** ** The credential exposure endpoint *)

Section Credentials.

Import Samples.

(** The check lets a request through exactly when the header, with its
    first [Bearer ] removed, is non-empty and is the configured token. *)
Lemma rejected_false_iff (cfg : config) (req : credentials_request) :
  rejected cfg req = false <->
  exists h, authorization req = Some h
            /\ replace_first (js "Bearer ") [] h <> []
            /\ SERVICE_TOKEN cfg = Some (replace_first (js "Bearer ") [] h).
Proof.
  unfold rejected, serviceToken.
  destruct (authorization req) as [h|]; cbn [option_map].
  - destruct (replace_first (js "Bearer ") [] h) as [|c s] eqn:Hs.
    + split; [discriminate|]. intros (h' & Hh & Hne & _).
      inversion Hh; subst h'. rewrite Hs in Hne. contradiction.
    + destruct (SERVICE_TOKEN cfg) as [expected|].
      * rewrite negb_false_iff, str_eqb_eq. split.
        -- intros <-. exists h. rewrite Hs. repeat split. discriminate.
        -- intros (h' & Hh & _ & He). inversion Hh; subst h'.
           rewrite Hs in He. inversion He. reflexivity.
      * split; [discriminate|]. intros (h' & _ & _ & He). discriminate.
  - split; [discriminate|]. intros (h' & Hh & _). discriminate.
Qed.

Lemma credentials_rejected (cfg : config) (req : credentials_request) (t : table) :
  credentials cfg req t = Responded unauthorized <-> rejected cfg req = true.
Proof.
  unfold credentials. destruct (rejected cfg req).
  - split; reflexivity.
  - split; [|discriminate].
    destruct (getAccountsForUser (param_userId req) t); discriminate.
Qed.

(** C5.  A request whose presented secret (the Authorization header without
    its first [Bearer ]) is missing or is not the configured service token
    is answered 401 with the body [{error: 'Unauthorized'}], whatever the
    user identifier and whatever the table holds. *)
Theorem wrong_secret_is_unauthorized
  (cfg : config) (req : credentials_request) (t : table) :
  (serviceToken req = None
   \/ exists s, serviceToken req = Some s /\ SERVICE_TOKEN cfg <> Some s) ->
  credentials cfg req t = Responded unauthorized.
Proof.
  intros H. apply credentials_rejected.
  destruct (rejected cfg req) eqn:Hr; [reflexivity|].
  apply rejected_false_iff in Hr. destruct Hr as (h & Hh & _ & He).
  unfold serviceToken in H. rewrite Hh in H. cbn [option_map] in H.
  destruct H as [H | (s & Hs & Hne)]; [discriminate|].
  inversion Hs; subst s. contradiction.
Qed.

Lemma wrong_secret_is_unauthorized_witness :
  credentials with_secret
    {| authorization := Some (js "Bearer guess"); param_userId := js "u1" |}
    holding_u1
  = Responded unauthorized.
Proof.
  apply wrong_secret_is_unauthorized.
  right. exists (js "guess"). split; [reflexivity | discriminate].
Defined.

(** *** Removing the first occurrence *)








(** The listing of a user without a row is empty. *)
Lemma select_user_none (u : jsstring) (t : table) :
  (forall r, In r (rows t) -> Row.user_id r <> SqlText (to_well_formed u)) ->
  select_user u t = [].
Proof.
  intros Hnone. unfold select_user, text_param.
  assert (Hf : filter (fun r => sql_eqb (Row.user_id r) (SqlText (to_well_formed u)))
                 (rows t) = []).
  { induction (rows t) as [|r rs IH]; [reflexivity|]. cbn [filter].
    destruct (sql_eqb (Row.user_id r) (SqlText (to_well_formed u))) eqn:He.
    - apply sql_eqb_text in He. exfalso. apply (Hnone r); [left; reflexivity | exact He].
    - apply IH. intros r' Hin. apply Hnone. right. exact Hin. }
  rewrite Hf. destruct (unique_user_platform t); reflexivity.
Qed.

Lemma getAccountsForUser_none (u : jsstring) (t : table) :
  (forall r, In r (rows t) -> Row.user_id r <> SqlText (to_well_formed u)) ->
  getAccountsForUser u t = Ok [].
Proof.
  intros Hnone. unfold getAccountsForUser. rewrite (select_user_none u t Hnone).
  reflexivity.
Qed.

(** X7.  With the right secret, a user without records gets 200 and an
    empty token mapping. *)
Theorem no_records_no_tokens (cfg : config) (req : credentials_request) (t : table) :
  rejected cfg req = false ->
  (forall r, In r (rows t) ->
     Row.user_id r <> SqlText (to_well_formed (param_userId req))) ->
  getAccountsForUser (param_userId req) t = Ok []
  /\ credentials cfg req t
     = Responded (SendJson 200 (VObj [(js "userId", VStr (param_userId req));
                                      (js "tokens", VObj [])])).
Proof.
  intros Hr Hnone.
  unfold credentials. rewrite Hr.
  rewrite (getAccountsForUser_none (param_userId req) t Hnone). split; reflexivity.
Qed.

Lemma no_records_no_tokens_witness :
  getAccountsForUser (js "u2") holding_u1 = Ok []
  /\ credentials with_secret
       {| authorization := Some (js "Bearer s3cret"); param_userId := js "u2" |}
       holding_u1
     = Responded (SendJson 200 (VObj [(js "userId", VStr (js "u2"));
                                      (js "tokens", VObj [])])).
Proof.
  apply (no_records_no_tokens with_secret
           {| authorization := Some (js "Bearer s3cret"); param_userId := js "u2" |}
           holding_u1).
  - reflexivity.
  - intros r [<- | []]. discriminate.
Defined.

End Credentials.

(* ================================================================== *)
(** ** Handlers: what a run keeps true of the table and of the calls *)

Section Preserved.

Variable R : store -> store -> Prop.
Hypothesis R_refl : forall s, R s s.
Hypothesis R_trans : forall s1 s2 s3, R s1 s2 -> R s2 s3 -> R s1 s3.

Lemma preserved_ret {A} (a : A) : preserved R (ret a).
Proof. intros s. apply R_refl. Qed.

Lemma preserved_lift {A} (r : result A) : preserved R (lift r).
Proof. intros s. apply R_refl. Qed.

Lemma preserved_bind {A B} (m : M A) (k : A -> M B) :
  preserved R m -> (forall a, preserved R (k a)) -> preserved R (mbind m k).
Proof.
  intros Hm Hk s. unfold mbind. specialize (Hm s).
  destruct (m s) as [[a|e] s']; cbn [snd] in *.
  - eapply R_trans; [exact Hm | apply Hk].
  - exact Hm.
Qed.

Lemma preserved_try {A} (m : M A) (h : exn -> M A) :
  preserved R m -> (forall e, preserved R (h e)) -> preserved R (try_catch m h).
Proof.
  intros Hm Hh s. unfold try_catch. specialize (Hm s).
  destruct (m s) as [[a|e] s']; cbn [snd] in *.
  - exact Hm.
  - eapply R_trans; [exact Hm | apply Hh].
Qed.

End Preserved.

Lemma all_saved_refl P s : all_saved P s s.
Proof. intros H. exact H. Qed.

Lemma all_saved_trans P s1 s2 s3 :
  all_saved P s1 s2 -> all_saved P s2 s3 -> all_saved P s1 s3.
Proof. unfold all_saved. auto. Qed.

Lemma all_saved_save P (w : world) (a : account) :
  P a -> preserved (all_saved P) (save w a).
Proof.
  intros Ha [t calls] H. unfold save.
  destruct (saveAccount _ a t); cbn [snd] in *;
    (apply Forall_app; split; [exact H | constructor; [exact Ha | constructor]]).
Qed.

Lemma saved_all (P : account -> Prop) (m : M response) (t : table) :
  preserved (all_saved P) m -> Forall P (saved m t).
Proof.
  intros H. specialize (H (t, [])). unfold saved, run, all_saved in *.
  destruct (m (t, [])) as [[r|e] [t' calls]]; cbn [snd] in *; apply H; constructor.
Qed.

Lemma unkeyed_kept_refl s : unkeyed_kept s s.
Proof. intros _. reflexivity. Qed.

Lemma unkeyed_kept_trans s1 s2 s3 :
  unkeyed_kept s1 s2 -> unkeyed_kept s2 s3 -> unkeyed_kept s1 s3.
Proof.
  unfold unkeyed_kept. intros H12 H23 H.
  rewrite <- (H12 H). apply H23. rewrite (H12 H). exact H.
Qed.

Lemma unkeyed_kept_save (w : world) (a : account) : preserved unkeyed_kept (save w a).
Proof.
  intros [t calls] H. cbn [fst] in H. unfold save.
  destruct t as [u rs]. cbn in H. subst u.
  rewrite saveAccount_without_key. reflexivity.
Qed.

Lemma preserved_bind_ok R {A B} (a : A) (k : A -> M B) :
  preserved R (k a) -> preserved R (mbind (lift (Ok a)) k).
Proof. intros H s. exact (H s). Qed.

Lemma preserved_bind_throw R (R_refl : forall s, R s s) {A B} (e : exn) (k : A -> M B) :
  preserved R (mbind (lift (Throw e)) k).
Proof. intros s. apply R_refl. Qed.

(** Walks a handler built from [ret], [lift], [save], binds, [try] and case
    distinctions, given the relation's reflexivity, transitivity and the
    tactic for [save]; [known] rewrites with what is known of the
    providers' answers. *)
Ltac preserve refl trans onsave known :=
  repeat first
    [ progress known
    | apply (preserved_ret _ refl)
    | apply (preserved_lift _ refl)
    | apply (preserved_try _ trans); [ | intros ? ]
    | apply preserved_bind_ok; cbv beta
    | apply (preserved_bind_throw _ refl)
    | match goal with
      | |- preserved _ (mbind (lift ?r) _) => destruct r
      end
    | apply (preserved_bind _ trans); [ | intros ? ]
    | onsave
    | match goal with
      | |- preserved _ (match ?x with _ => _ end) => destruct x
      | |- preserved _ (if ?b then _ else _) => destruct b
      end ].

Ltac unfold_routes :=
  unfold meta_callback, youtube_callback, x_callback, pinterest_callback,
    linkedin_callback, meta_exchange, youtube_exchange, x_exchange,
    pinterest_exchange, linkedin_exchange, meta_failed, youtube_failed,
    x_failed, pinterest_failed, linkedin_failed.

(** On a table without the key, no callback changes the table. *)
Lemma callback_keeps_unkeyed (p : provider) (w : world) (q : query) (t : table) :
  unique_user_platform t = false -> table_after (callback p w q) t = t.
Proof.
  intros Hu.
  assert (H : preserved unkeyed_kept (callback p w q)).
  { destruct p; cbn [callback]; unfold_routes;
      preserve unkeyed_kept_refl unkeyed_kept_trans
        ltac:(apply unkeyed_kept_save) ltac:(idtac). }
  specialize (H (t, [])). unfold table_after, run.
  destruct (callback p w q (t, [])) as [[r|e] [t' calls]]; cbn [fst snd] in *;
    apply H; exact Hu.
Qed.

(* ================================================================== *)
(** ** The callbacks *)

Section Callbacks.

Import Samples.

Lemma user_of_absent_state :
  user_of_state None = Ok (VUndef, unknown)
  /\ user_of_state (Some []) = Ok (VUndef, unknown).
Proof. split; reflexivity. Qed.

(** Past its guard on [code], a callback is its exchange. *)
Lemma callback_is_exchange (p : provider) (w : world) (q : query) (t : table)
  (user_id userId : jsval) (c : Z) (cs : jsstring) :
  user_of_state (state q) = Ok (user_id, userId) ->
  code q = Some (c :: cs) ->
  run (callback p w q) t = run (exchange p w user_id userId (c :: cs)) t.
Proof.
  intros Hu Hc. destruct q as [qc qs]. cbn [code state] in Hu, Hc. subst qc.
  destruct p; cbn [callback exchange]; unfold_routes;
    unfold run, mbind, lift, try_catch; cbn [code state]; rewrite Hu; reflexivity.
Qed.

(** Every account an exchange hands to [saveAccount] is filed under the
    user identifier the exchange was given. *)
Lemma exchange_files_under (p : provider) (w : world) (t : table)
  (user_id userId : jsval) (code : jsstring) :
  Forall (fun a => Db.userId a = userId) (saved (exchange p w user_id userId code) t).
Proof.
  apply saved_all.
  destruct p; cbn [exchange]; unfold_routes;
    preserve (all_saved_refl (fun a => Db.userId a = userId))
             (all_saved_trans (fun a => Db.userId a = userId))
             ltac:(apply all_saved_save; reflexivity) ltac:(idtac).
Qed.

(** A state that cannot be decoded makes the callback fail before any
    exchange: the routes other than Meta let the exception leave the
    handler, Meta answers 500, and no provider is asked for a token. *)
Lemma undecodable_state_fails :
  decodeURIComponent (js "%") = Throw URIError
  /\ run (youtube_callback (token_world hourly)
            {| code := Some (js "AUTHCODE"); state := Some (js "%") |}) keyed
     = (Escaped URIError, keyed, [])
  /\ parse (js "not json") = Throw SyntaxError
  /\ run (x_callback (token_world hourly)
            {| code := Some (js "AUTHCODE"); state := Some (js "not json") |}) keyed
     = (Escaped SyntaxError, keyed, [])
  /\ run (meta_callback page_with_instagram
            {| code := Some (js "AUTHCODE"); state := Some (js "%") |}) keyed
     = (Responded (Send 500 [Text (js "Error during Facebook OAuth")]), keyed, []).
Proof. repeat split. Qed.

(** C9.  A callback without a code (missing or empty) hands nothing to
    [saveAccount] and leaves the table as it is; when its state is absent,
    empty or decodes to a value other than null, it answers 200 with the
    provider's no-code text. *)
Theorem callback_without_code (p : provider) (w : world) (q : query) (t : table) :
  (code q = None \/ code q = Some []) ->
  table_after (callback p w q) t = t
  /\ saved (callback p w q) t = []
  /\ (forall u, user_of_state (state q) = Ok u ->
      answer (callback p w q) t = Responded (Send 200 [Text (no_code_text p)])).
Proof.
  intros Hc. unfold table_after, saved, answer.
  destruct q as [qc qs]. cbn [code state] in *.
  destruct p; cbn [callback no_code_text]; unfold_routes;
    unfold run, mbind, lift, try_catch, ret; cbn [code state];
    destruct (user_of_state qs) as [u|e];
    destruct Hc; subst qc; cbn [fst snd];
    repeat split; intros; try reflexivity; discriminate.
Qed.

Lemma callback_without_code_witness :
  table_after (callback Pinterest offline {| code := None; state := Some state_u1 |})
    holding_u1 = holding_u1
  /\ saved (callback Pinterest offline {| code := None; state := Some state_u1 |})
       holding_u1 = []
  /\ (forall u, user_of_state (Some state_u1) = Ok u ->
      answer (callback Pinterest offline {| code := None; state := Some state_u1 |})
        holding_u1
      = Responded (Send 200 [Text (js "No code")])).
Proof.
  apply (callback_without_code Pinterest offline
           {| code := None; state := Some state_u1 |} holding_u1).
  left. reflexivity.
Defined.

(** Without a code and with a state that cannot be decoded, the routes other
    than Meta send no answer at all and Meta answers 500. *)
Lemma callback_without_code_can_fail :
  answer (youtube_callback offline {| code := None; state := Some (js "%") |})
    (open_db None) = Escaped URIError
  /\ answer (linkedin_callback offline {| code := None; state := Some (js "null") |})
       (open_db None) = Escaped TypeError
  /\ answer (meta_callback offline {| code := None; state := Some (js "%") |})
       (open_db None)
     = Responded (Send 500 [Text (js "Error during Facebook OAuth")]).
Proof. repeat split. Qed.

(** *** Meta on the table db.js creates *)

(** C7.  The Meta callback with a long-lived token and an empty page list,
    on the table db.js creates: the facebook record with the long-lived
    token, its expiry and the no-pages note is handed to [saveAccount],
    whose statement the table rejects; the callback answers 500 and the
    table holds no record. *)
Theorem no_pages_on_created_table :
  run (meta_callback no_pages with_code) (open_db None)
  = (Responded (Send 500 [Text (js "Error during Facebook OAuth")]),
     social_accounts,
     [ {| userId := VStr (js "u1");
          platform := VStr (js "facebook");
          platformUserId := VStr (js "u1");
          accessToken := VStr (js "LONG");
          refreshToken := VNull;
          meta := VObj [(js "note", VStr (js "no-pages"))];
          expiresAt := VNum (Dec (1700000000 + 5183944) 0) |} ])
  /\ rows (table_after (meta_callback no_pages with_code) (open_db None)) = [].
Proof. split; reflexivity. Qed.

(** C8.  The Meta callback with one page whose connected Instagram account
    is IG123, on the table db.js creates: the facebook record of the page is
    handed to [saveAccount], whose statement the table rejects; the
    instagram record is never handed over, the callback answers 500 and the
    table holds no record. *)
Theorem page_with_instagram_on_created_table :
  run (meta_callback page_with_instagram with_code) (open_db None)
  = (Responded (Send 500 [Text (js "Error during Facebook OAuth")]),
     social_accounts,
     [ {| userId := VStr (js "u1");
          platform := VStr (js "facebook");
          platformUserId := VStr (js "PAGE1");
          accessToken := VStr (js "PAGETOKEN");
          refreshToken := VNull;
          meta := VObj [(js "page_name", VStr (js "My page"))];
          expiresAt := VNull |} ])
  /\ rows (table_after (meta_callback page_with_instagram with_code) (open_db None))
     = [].
Proof. split; reflexivity. Qed.

(** *** Meta on any table *)

(** X5.  Without a page, the Meta callback hands exactly one account to
    [saveAccount]: the facebook record with the long-lived token, its expiry
    and the no-pages note.  It answers 200 when the call succeeds and 500
    when it throws. *)
Theorem meta_without_pages (w : world) (q : query) (t : table)
  (c : Z) (cs : jsstring) (user_id userId : jsval) (short long : Token.t)
  (pages : option (list Page.t)) :
  code q = Some (c :: cs) ->
  user_of_state (state q) = Ok (user_id, userId) ->
  meta_token w (c :: cs) = Ok short ->
  meta_long w (of_opt (Token.access_token short)) = Ok long ->
  meta_accounts w (of_opt (Token.access_token long)) = Ok pages ->
  (pages = None \/ pages = Some []) ->
  run (meta_callback w q) t
  = match saveAccount (sql_now w 0)
            {| userId := userId;
               platform := VStr (js "facebook");
               platformUserId := js_or user_id VNull;
               accessToken := of_opt (Token.access_token long);
               refreshToken := VNull;
               meta := VObj [(js "note", VStr (js "no-pages"))];
               expiresAt := meta_expiry w long pages |} t with
    | Ok t' =>
        (Responded (Send 200 [Text (js "Connected to Facebook but no pages found.")]),
         t',
         [ {| userId := userId;
              platform := VStr (js "facebook");
              platformUserId := js_or user_id VNull;
              accessToken := of_opt (Token.access_token long);
              refreshToken := VNull;
              meta := VObj [(js "note", VStr (js "no-pages"))];
              expiresAt := meta_expiry w long pages |} ])
    | Throw _ =>
        (Responded (Send 500 [Text (js "Error during Facebook OAuth")]),
         t,
         [ {| userId := userId;
              platform := VStr (js "facebook");
              platformUserId := js_or user_id VNull;
              accessToken := of_opt (Token.access_token long);
              refreshToken := VNull;
              meta := VObj [(js "note", VStr (js "no-pages"))];
              expiresAt := meta_expiry w long pages |} ])
    end.
Proof.
  intros Hc Hu Hshort Hlong Hpages Hnone.
  destruct q as [qc qs]. cbn [code state] in Hc, Hu. subst qc.
  unfold meta_callback, meta_exchange, meta_failed, run, try_catch, mbind, lift,
    ret, save. cbn [code state].
  rewrite Hu. cbn [fst snd]. rewrite Hshort, Hlong, Hpages.
  destruct Hnone as [-> | ->]; cbn [meta_expiry length];
    match goal with
    | |- context [saveAccount ?n ?a t] => destruct (saveAccount n a t)
    end; reflexivity.
Qed.

Lemma meta_without_pages_witness :
  run (meta_callback no_pages with_code) keyed
  = match saveAccount 1700000002
            {| userId := VStr (js "u1");
               platform := VStr (js "facebook");
               platformUserId := js_or (VStr (js "u1")) VNull;
               accessToken := of_opt (Token.access_token long_lived);
               refreshToken := VNull;
               meta := VObj [(js "note", VStr (js "no-pages"))];
               expiresAt := meta_expiry no_pages long_lived (Some []) |} keyed with
    | Ok t' =>
        (Responded (Send 200 [Text (js "Connected to Facebook but no pages found.")]),
         t',
         [ {| userId := VStr (js "u1");
              platform := VStr (js "facebook");
              platformUserId := js_or (VStr (js "u1")) VNull;
              accessToken := of_opt (Token.access_token long_lived);
              refreshToken := VNull;
              meta := VObj [(js "note", VStr (js "no-pages"))];
              expiresAt := meta_expiry no_pages long_lived (Some []) |} ])
    | Throw _ =>
        (Responded (Send 500 [Text (js "Error during Facebook OAuth")]),
         keyed,
         [ {| userId := VStr (js "u1");
              platform := VStr (js "facebook");
              platformUserId := js_or (VStr (js "u1")) VNull;
              accessToken := of_opt (Token.access_token long_lived);
              refreshToken := VNull;
              meta := VObj [(js "note", VStr (js "no-pages"))];
              expiresAt := meta_expiry no_pages long_lived (Some []) |} ])
    end.
Proof.
  apply (meta_without_pages no_pages with_code keyed 65 (js "UTHCODE")
           (VStr (js "u1")) (VStr (js "u1"))
           (Token.mk (Some (js "SHORT")) None None) long_lived (Some [])).
  - reflexivity.
  - vm_compute. reflexivity.
  - reflexivity.
  - reflexivity.
  - reflexivity.
  - right. reflexivity.
Defined.

(** X6.  With a first page that has a connected Instagram account, the Meta
    callback hands the page's facebook record to [saveAccount] and, when
    that call succeeds, the instagram record: both carry the page's access
    token, the first is filed under the page id and the second under the
    Instagram id.  It answers 200 when both calls succeed and 500 as soon
    as one throws. *)
Theorem meta_with_instagram (w : world) (q : query) (t : table)
  (c : Z) (cs : jsstring) (user_id userId : jsval) (short long : Token.t)
  (page : Page.t) (more : list Page.t) (account : Instagram.t)
  (i : Z) (ig : jsstring) :
  code q = Some (c :: cs) ->
  user_of_state (state q) = Ok (user_id, userId) ->
  meta_token w (c :: cs) = Ok short ->
  meta_long w (of_opt (Token.access_token short)) = Ok long ->
  meta_accounts w (of_opt (Token.access_token long)) = Ok (Some (page :: more)) ->
  meta_page w (of_opt (Page.id page)) (of_opt (Page.access_token page))
  = Ok (Some account) ->
  Instagram.id account = Some (i :: ig) ->
  run (meta_callback w q) t
  = match saveAccount (sql_now w 0)
            {| userId := userId;
               platform := VStr (js "facebook");
               platformUserId := of_opt (Page.id page);
               accessToken := of_opt (Page.access_token page);
               refreshToken := VNull;
               meta := VObj [(js "page_name", of_opt (Page.name page))];
               expiresAt := VNull |} t with
    | Throw _ =>
        (Responded (Send 500 [Text (js "Error during Facebook OAuth")]),
         t,
         [ {| userId := userId;
              platform := VStr (js "facebook");
              platformUserId := of_opt (Page.id page);
              accessToken := of_opt (Page.access_token page);
              refreshToken := VNull;
              meta := VObj [(js "page_name", of_opt (Page.name page))];
              expiresAt := VNull |} ])
    | Ok t1 =>
        match saveAccount (sql_now w 1)
                {| userId := userId;
                   platform := VStr (js "instagram");
                   platformUserId := VStr (i :: ig);
                   accessToken := of_opt (Page.access_token page);
                   refreshToken := VNull;
                   meta := VObj [(js "linked_page", of_opt (Page.id page))];
                   expiresAt := VNull |} t1 with
        | Ok t2 =>
            (Responded
               (Send 200 [Text (js "<h3>Connected successfully!</h3><p>User: ");
                          Val userId;
                          Text (js ". Instagram ID: ");
                          Val (VStr (i :: ig));
                          Text (js ".</p>")]),
             t2,
             [ {| userId := userId;
                  platform := VStr (js "facebook");
                  platformUserId := of_opt (Page.id page);
                  accessToken := of_opt (Page.access_token page);
                  refreshToken := VNull;
                  meta := VObj [(js "page_name", of_opt (Page.name page))];
                  expiresAt := VNull |};
               {| userId := userId;
                  platform := VStr (js "instagram");
                  platformUserId := VStr (i :: ig);
                  accessToken := of_opt (Page.access_token page);
                  refreshToken := VNull;
                  meta := VObj [(js "linked_page", of_opt (Page.id page))];
                  expiresAt := VNull |} ])
        | Throw _ =>
            (Responded (Send 500 [Text (js "Error during Facebook OAuth")]),
             t1,
             [ {| userId := userId;
                  platform := VStr (js "facebook");
                  platformUserId := of_opt (Page.id page);
                  accessToken := of_opt (Page.access_token page);
                  refreshToken := VNull;
                  meta := VObj [(js "page_name", of_opt (Page.name page))];
                  expiresAt := VNull |};
               {| userId := userId;
                  platform := VStr (js "instagram");
                  platformUserId := VStr (i :: ig);
                  accessToken := of_opt (Page.access_token page);
                  refreshToken := VNull;
                  meta := VObj [(js "linked_page", of_opt (Page.id page))];
                  expiresAt := VNull |} ])
        end
    end.
Proof.
  intros Hc Hu Hshort Hlong Hpages Hinfo Hig.
  destruct q as [qc qs]. cbn [code state] in Hc, Hu. subst qc.
  unfold meta_callback, meta_exchange, meta_failed, run, try_catch, mbind, lift,
    ret, save. cbn [code state].
  rewrite Hu. cbn [fst snd]. rewrite Hshort, Hlong, Hpages, Hinfo, Hig.
  cbn [of_opt truthy length app js_or].
  match goal with
  | |- context [saveAccount ?n ?a t] => destruct (saveAccount n a t) as [t1|e1]
  end; [|reflexivity].
  cbn [length app].
  match goal with
  | |- context [saveAccount ?n ?a t1] => destruct (saveAccount n a t1) as [t2|e2]
  end; reflexivity.
Qed.

Lemma meta_with_instagram_witness :
  run (meta_callback page_with_instagram with_code) keyed
  = match saveAccount 1700000002
            {| userId := VStr (js "u1");
               platform := VStr (js "facebook");
               platformUserId := VStr (js "PAGE1");
               accessToken := VStr (js "PAGETOKEN");
               refreshToken := VNull;
               meta := VObj [(js "page_name", VStr (js "My page"))];
               expiresAt := VNull |} keyed with
    | Throw _ =>
        (Responded (Send 500 [Text (js "Error during Facebook OAuth")]),
         keyed,
         [ {| userId := VStr (js "u1");
              platform := VStr (js "facebook");
              platformUserId := VStr (js "PAGE1");
              accessToken := VStr (js "PAGETOKEN");
              refreshToken := VNull;
              meta := VObj [(js "page_name", VStr (js "My page"))];
              expiresAt := VNull |} ])
    | Ok t1 =>
        match saveAccount 1700000003
                {| userId := VStr (js "u1");
                   platform := VStr (js "instagram");
                   platformUserId := VStr (js "IG123");
                   accessToken := VStr (js "PAGETOKEN");
                   refreshToken := VNull;
                   meta := VObj [(js "linked_page", VStr (js "PAGE1"))];
                   expiresAt := VNull |} t1 with
        | Ok t2 =>
            (Responded
               (Send 200 [Text (js "<h3>Connected successfully!</h3><p>User: ");
                          Val (VStr (js "u1"));
                          Text (js ". Instagram ID: ");
                          Val (VStr (js "IG123"));
                          Text (js ".</p>")]),
             t2,
             [ {| userId := VStr (js "u1");
                  platform := VStr (js "facebook");
                  platformUserId := VStr (js "PAGE1");
                  accessToken := VStr (js "PAGETOKEN");
                  refreshToken := VNull;
                  meta := VObj [(js "page_name", VStr (js "My page"))];
                  expiresAt := VNull |};
               {| userId := VStr (js "u1");
                  platform := VStr (js "instagram");
                  platformUserId := VStr (js "IG123");
                  accessToken := VStr (js "PAGETOKEN");
                  refreshToken := VNull;
                  meta := VObj [(js "linked_page", VStr (js "PAGE1"))];
                  expiresAt := VNull |} ])
        | Throw _ =>
            (Responded (Send 500 [Text (js "Error during Facebook OAuth")]),
             t1,
             [ {| userId := VStr (js "u1");
                  platform := VStr (js "facebook");
                  platformUserId := VStr (js "PAGE1");
                  accessToken := VStr (js "PAGETOKEN");
                  refreshToken := VNull;
                  meta := VObj [(js "page_name", VStr (js "My page"))];
                  expiresAt := VNull |};
               {| userId := VStr (js "u1");
                  platform := VStr (js "instagram");
                  platformUserId := VStr (js "IG123");
                  accessToken := VStr (js "PAGETOKEN");
                  refreshToken := VNull;
                  meta := VObj [(js "linked_page", VStr (js "PAGE1"))];
                  expiresAt := VNull |} ])
        end
    end.
Proof.
  apply (meta_with_instagram page_with_instagram with_code keyed 65 (js "UTHCODE")
           (VStr (js "u1")) (VStr (js "u1"))
           (Token.mk (Some (js "SHORT")) None None) long_lived page1 []
           (Instagram.mk (Some (js "IG123"))) 73 (js "G123")).
  - reflexivity.
  - vm_compute. reflexivity.
  - reflexivity.
  - reflexivity.
  - reflexivity.
  - reflexivity.
  - reflexivity.
Defined.

(** X4.  On the table db.js creates no callback of any provider, whatever
    the request and whatever the providers answer, stores anything. *)
Theorem created_table_stays_empty (p : provider) (w : world) (q : query) :
  table_after (callback p w q) (open_db None) = social_accounts.
Proof. apply callback_keeps_unkeyed. reflexivity. Qed.

(** *** The start routes *)

Lemma encode_state_ok (u : jsstring) :
  wf_string u -> exists st, encode_state u = Ok st.
Proof.
  intros Hwf.
  destruct (decode_encode (state_text u) (state_text_wf u Hwf)
              (state_text_well_formed u Hwf)) as (st & Henc & _).
  exists st. unfold encode_state. rewrite stringify_state. exact Henc.
Qed.

End Callbacks.

(* ================================================================== *)
(** ** JSON: what is written is read back *)

(** Induction over values, with the elements of arrays and the property
    values of objects. *)
Lemma jsval_nested_ind (P : jsval -> Prop) :
  P VUndef -> P VNull -> (forall b, P (VBool b)) -> (forall n, P (VNum n)) ->
  (forall s, P (VStr s)) ->
  (forall l, Forall P l -> P (VArr l)) ->
  (forall l, Forall (fun kv => P (snd kv)) l -> P (VObj l)) ->
  forall v, P v.
Proof.
  intros Hu Hn Hb Hnum Hs Harr Hobj. fix IH 1.
  intros [| |b|n|s|l|l].
  - exact Hu.
  - exact Hn.
  - apply Hb.
  - apply Hnum.
  - apply Hs.
  - apply Harr. induction l as [|x l IHl]; constructor; [apply IH | exact IHl].
  - apply Hobj. induction l as [|[k x] l IHl]; constructor; [apply IH | exact IHl].
Qed.

Lemma code_units_wf (s : jsstring) : code_units s = true -> wf_string s.
Proof.
  unfold code_units, wf_string. rewrite forallb_forall, Forall_forall.
  intros H c Hc. specialize (H c Hc). apply andb_prop in H.
  unfold is_code_unit. lia.
Qed.

(** A result of the parser stays the same with any greater fuel. *)
Lemma parse_fuel_le (f g : nat) :
  (f <= g)%nat ->
  (forall s r, parse_value f s = Some r -> parse_value g s = Some r)
  /\ (forall s r, parse_members f s = Some r -> parse_members g s = Some r)
  /\ (forall s r, parse_elems f s = Some r -> parse_elems g s = Some r).
Proof.
  induction 1 as [|g Hle (IHv & IHm & IHe)]; [repeat split; auto|].
  destruct (parse_fuel_mono g) as (Hv & Hm & He).
  repeat split; intros s r H; auto.
Qed.

Lemma skip_ws_opens (text r : jsstring) :
  opens text -> skip_ws (text ++ r) = text ++ r.
Proof.
  intros (c & t & -> & Hin). cbn [In] in Hin.
  repeat (destruct Hin as [<- | Hin]; [reflexivity|]). destruct Hin.
Qed.

Lemma opens_app (text r : jsstring) : opens text -> opens (text ++ r).
Proof. intros (c & t & -> & Hin). exists c, (t ++ r). split; [reflexivity | exact Hin]. Qed.

Ltac flatten := repeat (rewrite <- ?app_assoc; cbn [app]).

Local Abbreviation elem_texts l :=
  (map (fun x => match stringify x with
                 | Some t => t
                 | None => js "null"
                 end) l).

Local Abbreviation member_texts l :=
  (flat_map (fun kv => match kv with
                       | (k, x) =>
                           match stringify x with
                           | Some t => [quote k ++ 58 :: t]
                           | None => []
                           end
                       end) l).

Local Abbreviation elems_size l := (fold_right (fun x n => S (size x + n)) 0 l)%nat.

Local Abbreviation members_size l :=
  (fold_right (fun kv n => match kv with (_, x) => S (size x + n) end) 0 l)%nat.

(** The elements of an array, up to its closing bracket. *)
Lemma parse_elems_plain (l : list jsval) :
  Forall reads_back l -> l <> [] ->
  opens (join_comma (elem_texts l))
  /\ (elems_size l <= S (length (join_comma (elem_texts l))))%nat
  /\ forall rest g,
       (elems_size l <= g)%nat ->
       parse_elems g (join_comma (elem_texts l) ++ 93 :: rest) = Some (l, rest).
Proof.
  induction 1 as [|x l (tx & Hs & Ho & Hlen & Hp) Hl IH]; intros Hne; [contradiction|].
  cbn [map fold_right]. rewrite Hs.
  destruct l as [|y l'].
  - cbn [map join_comma fold_right]. split; [exact Ho|]. split; [lia|].
    intros rest [|g] Hg; [lia|]. cbn [parse_elems].
    rewrite Hp by lia. reflexivity.
  - destruct (IH ltac:(discriminate)) as (Ho' & Hlen' & Hp').
    remember (y :: l') as more eqn:Hmore.
    assert (Hj : forall t, join_comma (t :: elem_texts more)
                           = t ++ 44 :: join_comma (elem_texts more))
      by (intros t; rewrite Hmore; reflexivity).
    rewrite Hj. split; [apply opens_app; exact Ho|].
    split; [rewrite length_app; cbn [length]; lia|].
    intros rest [|g] Hg; [lia|]. cbn [parse_elems]. flatten.
    rewrite Hp by lia. cbn [skip_ws is_ws Z.eqb Pos.eqb orb].
    rewrite Hp' by lia. reflexivity.
Qed.

(** The members of an object, up to its closing brace. *)
Lemma parse_members_plain (l : list (jsstring * jsval)) :
  Forall (fun kv => code_units (fst kv) = true /\ reads_back (snd kv)) l -> l <> [] ->
  (exists t, join_comma (member_texts l) = 34 :: t)
  /\ (members_size l <= S (length (join_comma (member_texts l))))%nat
  /\ forall rest g,
       (members_size l <= g)%nat ->
       parse_members g (join_comma (member_texts l) ++ 125 :: rest) = Some (l, rest).
Proof.
  induction 1 as [|[k x] l [Hk (tx & Hs & Ho & Hlen & Hp)] Hl IH]; intros Hne;
    [contradiction|].
  cbn [fst snd] in *. apply code_units_wf in Hk.
  cbn [flat_map fold_right]. rewrite Hs. cbn [app].
  destruct l as [|y l'].
  - cbn [flat_map join_comma fold_right]. unfold quote.
    split; [eexists; reflexivity|].
    split; [cbn [length app]; rewrite ?length_app; cbn [length]; lia|].
    intros rest [|g] Hg; [lia|]. flatten. cbn [parse_members Z.eqb Pos.eqb].
    rewrite (parse_chars_quote_units (length k) k _ (le_n _) Hk).
    cbn [skip_ws is_ws Z.eqb Pos.eqb orb].
    rewrite Hp by lia. reflexivity.
  - destruct (IH ltac:(discriminate)) as ((t' & Ht') & Hlen' & Hp').
    remember (y :: l') as more eqn:Hmore.
    remember (member_texts more) as texts eqn:Htexts.
    assert (Hj : forall t, join_comma (t :: texts) = t ++ 44 :: join_comma texts).
    { intros t. destruct texts; [discriminate Ht' | reflexivity]. }
    rewrite Hj. unfold quote.
    split; [eexists; reflexivity|].
    split; [cbn [length app]; rewrite ?length_app; cbn [length];
            rewrite ?length_app; cbn [length]; lia|].
    intros rest [|g] Hg; [lia|]. flatten. cbn [parse_members Z.eqb Pos.eqb].
    rewrite (parse_chars_quote_units (length k) k _ (le_n _) Hk).
    cbn [skip_ws is_ws Z.eqb Pos.eqb orb].
    rewrite Hp by lia. cbn [skip_ws is_ws Z.eqb Pos.eqb orb].
    rewrite Ht'. cbn [app skip_ws is_ws Z.eqb Pos.eqb orb].
    specialize (Hp' rest g ltac:(lia)). rewrite Ht' in Hp'. cbn [app] in Hp'.
    rewrite Hp'. reflexivity.
Qed.

Lemma lookup_app_none (k : jsstring) (l1 l2 : list (jsstring * jsval)) :
  lookup k l1 = None -> lookup k (l1 ++ l2) = lookup k l2.
Proof.
  induction l1 as [|[k' v] l1 IH]; [reflexivity|].
  cbn [lookup app]. destruct (str_eqb k k'); [discriminate | exact IH].
Qed.

(** Members under ordinary names are kept as they are written. *)
Lemma object_of_ordinary (l acc : list (jsstring * jsval)) :
  ordinary_names (map fst l) = true ->
  (forall k, In k (map fst l) -> lookup k acc = None) ->
  fold_left (fun o kv => obj_set o (fst kv) (snd kv)) l acc = acc ++ l.
Proof.
  revert acc. induction l as [|[k v] l IH]; intros acc Hord Hnew.
  - cbn. rewrite app_nil_r. reflexivity.
  - cbn [map fst ordinary_names] in Hord.
    apply andb_prop in Hord. destruct Hord as [Hord Hrest].
    apply andb_prop in Hord. destruct Hord as [Hfresh Hidx].
    cbn [fold_left fst snd]. unfold obj_set at 2.
    rewrite (Hnew k) by (left; reflexivity).
    destruct (index_of k); [discriminate|].
    rewrite IH.
    + rewrite <- app_assoc. reflexivity.
    + exact Hrest.
    + intros k' Hin. rewrite lookup_app_none by (apply Hnew; right; exact Hin).
      cbn [lookup]. destruct (str_eqb k' k) eqn:He; [|reflexivity].
      apply str_eqb_eq in He. subst k'.
      apply negb_true_iff in Hfresh.
      assert (Hex : existsb (str_eqb k) (map fst l) = true)
        by (apply existsb_exists; exists k; split; [exact Hin | apply str_eqb_refl]).
      congruence.
Qed.

Lemma plain_reads_back (v : jsval) : plain v = true -> reads_back v.
Proof.
  induction v as [| |b|n|s|l IH|l IH] using jsval_nested_ind; intros Hp;
    try discriminate Hp.
  - exists (js "null"). split; [reflexivity|].
    split; [exists 110, (js "ull"); split; [reflexivity | cbn; tauto]|].
    split; [cbn; lia|]. intros rest [|f] Hf; [cbn in Hf; lia | reflexivity].
  - exists (if b then js "true" else js "false").
    split; [destruct b; reflexivity|].
    split; [destruct b; eexists _, _; (split; [reflexivity | cbn; tauto])|].
    split; [destruct b; cbn; lia|].
    intros rest [|f] Hf; [cbn in Hf; lia | destruct b; reflexivity].
  - cbn [plain] in Hp. apply code_units_wf in Hp.
    exists (quote s). split; [reflexivity|].
    split; [exists 34, (quote_units s ++ [34]); split; [reflexivity | cbn; tauto]|].
    split; [unfold quote; cbn; lia|].
    intros rest [|f] Hf; [cbn in Hf; lia|]. unfold quote. flatten.
    apply parse_value_string. exact Hp.
  - cbn [plain] in Hp. rewrite forallb_forall in Hp.
    assert (Hall : Forall reads_back l).
    { rewrite Forall_forall in IH |- *. intros x Hx. apply IH; [exact Hx | apply Hp; exact Hx]. }
    exists (91 :: join_comma (elem_texts l) ++ [93]). split; [reflexivity|].
    split; [eexists _, _; split; [reflexivity | cbn; tauto]|].
    destruct l as [|x l'].
    + split; [cbn; lia|]. intros rest [|f] Hf; [cbn in Hf; lia | reflexivity].
    + destruct (parse_elems_plain (x :: l') Hall ltac:(discriminate))
        as (Ho & Hlen & Hparse).
      split; [cbn [size length]; rewrite length_app; cbn [length]; lia|].
      intros rest [|f] Hf; [cbn in Hf; lia|]. cbn [size] in Hf.
      flatten. cbn [parse_value skip_ws is_ws Z.eqb Pos.eqb orb].
      rewrite skip_ws_opens by exact Ho.
      destruct Ho as (c & t & Ht & Hin). rewrite Ht. cbn [app].
      assert (Hc : (c =? 93) = false)
        by (cbn [In] in Hin;
            repeat (destruct Hin as [<- | Hin]; [reflexivity|]); destruct Hin).
      rewrite Hc.
      specialize (Hparse rest f ltac:(lia)). rewrite Ht in Hparse. cbn [app] in Hparse.
      rewrite Hparse. reflexivity.
  - cbn [plain] in Hp. apply andb_prop in Hp. destruct Hp as [Hp Hord].
    rewrite forallb_forall in Hp.
    assert (Hall : Forall (fun kv => code_units (fst kv) = true /\ reads_back (snd kv)) l).
    { rewrite Forall_forall in IH |- *. intros [k x] Hx.
      specialize (Hp _ Hx). cbn beta iota in Hp. apply andb_prop in Hp.
      destruct Hp as [Hk Hpx]. split; [exact Hk|]. apply (IH _ Hx). exact Hpx. }
    exists (123 :: join_comma (member_texts l) ++ [125]). split; [reflexivity|].
    split; [eexists _, _; split; [reflexivity | cbn; tauto]|].
    destruct l as [|kx l'].
    + split; [cbn; lia|]. intros rest [|f] Hf; [cbn in Hf; lia | reflexivity].
    + destruct (parse_members_plain (kx :: l') Hall ltac:(discriminate))
        as ((t & Ht) & Hlen & Hparse).
      split; [cbn [size length]; rewrite length_app; cbn [length]; lia|].
      intros rest [|f] Hf; [cbn in Hf; lia|]. cbn [size] in Hf.
      flatten. rewrite Ht. cbn [app].
      specialize (Hparse rest f ltac:(lia)). rewrite Ht in Hparse. cbn [app] in Hparse.
      rewrite (parse_value_object f _ rest (kx :: l') Hparse).
      unfold object_of. rewrite object_of_ordinary; [reflexivity | exact Hord|].
      intros; reflexivity.
Qed.

Lemma parse_stringify_plain (v : jsval) :
  plain v = true ->
  exists text, stringify v = Some text /\ text <> [] /\ parse text = Ok v.
Proof.
  intros Hp. destruct (plain_reads_back v Hp) as (text & Hs & Ho & Hlen & Hparse).
  exists text. split; [exact Hs|].
  split; [destruct Ho as (c & t & -> & _); discriminate|].
  unfold parse. specialize (Hparse [] (S (length text + length text)) ltac:(lia)).
  rewrite app_nil_r in Hparse. rewrite Hparse. reflexivity.
Qed.

(** X9.  A value built from null, booleans, strings, arrays and objects whose
    property names are distinct and not array indices is read back
    unchanged: [JSON.stringify] gives a text and [JSON.parse] of that text is
    the value. *)
Theorem json_round_trip (v : jsval) :
  plain v = true ->
  exists text, stringify v = Some text /\ parse text = Ok v.
Proof.
  intros Hp. destruct (parse_stringify_plain v Hp) as (text & Hs & _ & Hparse).
  exists text. split; assumption.
Qed.

Lemma json_round_trip_witness :
  exists text,
    stringify (VObj [(js "note", VStr (js "no-pages"));
                     (js "tags", VArr [VStr [233; 34; 10; 55357]; VNull; VBool true; VObj []])])
    = Some text
    /\ parse text
       = Ok (VObj [(js "note", VStr (js "no-pages"));
                   (js "tags", VArr [VStr [233; 34; 10; 55357]; VNull; VBool true; VObj []])]).
Proof. apply json_round_trip. reflexivity. Defined.

(** *** Objects: setting and reading a property *)

Lemma lookup_app (k : jsstring) (l1 l2 : list (jsstring * jsval)) :
  lookup k (l1 ++ l2)
  = match lookup k l1 with
    | Some v => Some v
    | None => lookup k l2
    end.
Proof.
  induction l1 as [|[k' v] l1 IH]; [reflexivity|].
  cbn [lookup app]. destruct (str_eqb k k'); [reflexivity | exact IH].
Qed.

Lemma lookup_obj_replace (k k' : jsstring) (v : jsval) (l : list (jsstring * jsval)) :
  lookup k' (obj_replace k v l)
  = if str_eqb k' k then option_map (fun _ => v) (lookup k l) else lookup k' l.
Proof.
  induction l as [|[k1 v1] l IH]; cbn [obj_replace lookup].
  - destruct (str_eqb k' k); reflexivity.
  - destruct (str_eqb k k1) eqn:Hk.
    + apply str_eqb_eq in Hk. subst k1. cbn [lookup option_map].
      destruct (str_eqb k' k); reflexivity.
    + cbn [lookup]. rewrite IH. destruct (str_eqb k' k) eqn:Hk'.
      * apply str_eqb_eq in Hk'. subst k'. rewrite Hk. reflexivity.
      * reflexivity.
Qed.

Lemma lookup_obj_insert_index (n : Z) (k k' : jsstring) (v : jsval)
  (l : list (jsstring * jsval)) :
  lookup k l = None ->
  lookup k' (obj_insert_index n k v l)
  = if str_eqb k' k then Some v else lookup k' l.
Proof.
  induction l as [|[k1 v1] l IH]; cbn [obj_insert_index lookup]; intros Hnone.
  - reflexivity.
  - destruct (str_eqb k k1) eqn:Hk; [discriminate|].
    assert (Hstep : lookup k' ((k, v) :: (k1, v1) :: l)
                    = if str_eqb k' k then Some v
                      else if str_eqb k' k1 then Some v1 else lookup k' l)
      by reflexivity.
    destruct (index_of k1) as [n'|]; [destruct (n' <? n)|]; try exact Hstep.
    cbn [lookup]. rewrite (IH Hnone).
    destruct (str_eqb k' k) eqn:Hk'; [|reflexivity].
    apply str_eqb_eq in Hk'. subst k'. rewrite Hk. reflexivity.
Qed.

(** Reading after [obj_set]: the name set holds the new value, every other
    name what it held. *)
Lemma lookup_obj_set (k k' : jsstring) (v : jsval) (l : list (jsstring * jsval)) :
  lookup k' (obj_set l k v) = if str_eqb k' k then Some v else lookup k' l.
Proof.
  unfold obj_set. destruct (lookup k l) as [w|] eqn:Hl.
  - rewrite lookup_obj_replace, Hl. reflexivity.
  - destruct (index_of k) as [n|].
    + apply lookup_obj_insert_index. exact Hl.
    + rewrite lookup_app. cbn [lookup].
      destruct (str_eqb k' k) eqn:Hk'.
      * apply str_eqb_eq in Hk'. subst k'. rewrite Hl. reflexivity.
      * destruct (lookup k' l); reflexivity.
Qed.

Lemma lookup_fold_obj_set (k : jsstring) (ms acc : list (jsstring * jsval)) :
  lookup k (fold_left (fun o kv => obj_set o (fst kv) (snd kv)) ms acc)
  = match find (fun kv => str_eqb k (fst kv)) (rev ms) with
    | Some kv => Some (snd kv)
    | None => lookup k acc
    end.
Proof.
  revert acc. induction ms as [|[k1 v1] ms IH] using rev_ind; intros acc.
  - reflexivity.
  - rewrite fold_left_app, rev_app_distr. cbn [fold_left rev app find fst snd].
    rewrite lookup_obj_set. destruct (str_eqb k k1); [reflexivity | apply IH].
Qed.

(** X10.  In the object [JSON.parse] builds from the members of an object
    text, a name holds the value of the last member written under it, and a
    name no member has is absent. *)
Theorem parsed_object_keeps_last (k : jsstring) (ms : list (jsstring * jsval)) :
  lookup k (object_of ms)
  = option_map snd (find (fun kv => str_eqb k (fst kv)) (rev ms)).
Proof.
  unfold object_of. rewrite lookup_fold_obj_set.
  destruct (find _ (rev ms)); reflexivity.
Qed.

(* ================================================================== *)
(** ** The credential store: deleting, saving again, reading

    These hold on any table, with or without the key. *)

Section Records.

Import Samples.

Lemma filter_out_none {A} (f : A -> bool) (l : list A) :
  filter f (filter (fun x => negb (f x)) l) = [].
Proof.
  induction l as [|x l IH]; [reflexivity|].
  cbn [filter]. destruct (f x) eqn:Hx; cbn [negb filter]; [exact IH|].
  rewrite Hx. exact IH.
Qed.

Lemma find_out_none {A} (f : A -> bool) (l : list A) :
  find f (filter (fun x => negb (f x)) l) = None.
Proof.
  induction l as [|x l IH]; [reflexivity|].
  cbn [filter]. destruct (f x) eqn:Hx; cbn [negb find]; [exact IH|].
  rewrite Hx. exact IH.
Qed.

Lemma filter_out_other {A} (f g : A -> bool) (l : list A) :
  (forall x, g x = true -> f x = false) ->
  filter g (filter (fun x => negb (f x)) l) = filter g l.
Proof.
  intros H. induction l as [|x l IH]; [reflexivity|].
  cbn [filter]. destruct (f x) eqn:Hx; cbn [negb filter].
  - destruct (g x) eqn:Hg; [|exact IH]. rewrite (H x Hg) in Hx. discriminate.
  - rewrite IH. reflexivity.
Qed.

Lemma filter_out_absent {A} (f : A -> bool) (l : list A) :
  filter f l = [] -> filter (fun x => negb (f x)) l = l.
Proof.
  induction l as [|x l IH]; [reflexivity|].
  cbn [filter]. destruct (f x); [discriminate|].
  intros H. cbn [negb]. rewrite (IH H). reflexivity.
Qed.

Lemma filter_split_length {A} (f : A -> bool) (l : list A) :
  (length (filter (fun x => negb (f x)) l) + length (filter f l) = length l)%nat.
Proof.
  induction l as [|x l IH]; [reflexivity|].
  cbn [filter]. destruct (f x); cbn [negb length]; lia.
Qed.

(** X11.  [deleteAccount(userId, platform)] removes the records of that pair
    and no other: afterwards the pair has no record and [getAccount] gives
    null for it, the records of every other pair are the same, the table is
    shorter by the number of records the pair had, and a pair without a
    record leaves the table as it is.  Two pairs are the same when they are
    bound as the same texts. *)
Theorem deleteAccount_removes_pair (u p : jsstring) (t : table) :
  records_of u p (deleteAccount u p t) = []
  /\ getAccount u p (deleteAccount u p t) = Ok None
  /\ (forall u' p',
        to_well_formed u' <> to_well_formed u \/ to_well_formed p' <> to_well_formed p ->
        records_of u' p' (deleteAccount u p t) = records_of u' p' t)
  /\ (length (rows (deleteAccount u p t)) + length (records_of u p t)
      = length (rows t))%nat
  /\ (records_of u p t = [] -> deleteAccount u p t = t).
Proof.
  unfold records_of, getAccount, deleteAccount. cbn [rows].
  split; [apply filter_out_none|].
  split; [rewrite find_out_none; reflexivity|].
  split.
  - intros u' p' Hne. apply filter_out_other. intros r Hr.
    destruct (selects u p r) eqn:Hs; [|reflexivity].
    apply selects_iff in Hr, Hs. destruct Hr as [Hu' Hp'], Hs as [Hu Hp].
    rewrite Hu in Hu'. rewrite Hp in Hp'. unfold text_param in *.
    inversion Hu'. inversion Hp'.
    destruct Hne as [Hne | Hne]; exfalso; apply Hne; congruence.
  - split; [apply filter_split_length|].
    intros Hnone. rewrite (filter_out_absent _ _ Hnone). destruct t; reflexivity.
Qed.

(** The text bound for [meta] is always one the engine takes. *)
Lemma meta_text_binds (m : jsval) :
  exists c,
    bind_value (if truthy m
                then match stringify m with
                     | Some text => VStr text
                     | None => VUndef
                     end
                else VNull) = Ok c.
Proof.
  destruct m as [| |b|[m e|s|]|s|l|l]; cbn [truthy];
    try (eexists; reflexivity).
  - destruct b; eexists; reflexivity.
  - destruct (negb (m =? 0)); eexists; reflexivity.
  - destruct s; eexists; reflexivity.
Qed.

(** The values a parameter takes are those better-sqlite3 binds. *)
Lemma bindable_ok (v : jsval) : bindable v = true <-> exists c, bind_value v = Ok c.
Proof.
  destruct v as [| |b|[m e|s|]|s|l|l]; cbn [bindable bind_value]; split; intros H;
    try reflexivity; try discriminate; try (eexists; reflexivity);
    destruct H as [c H]; discriminate.
Qed.

Lemma bind_value_throws (v : jsval) (e : exn) : bind_value v = Throw e -> e = TypeError.
Proof.
  destruct v as [| |b|[m x|s|]|s|l|l]; cbn [bind_value]; intros H;
    try discriminate; inversion H; reflexivity.
Qed.

(** [saveAccount], column by column. *)
Lemma saveAccount_columns (now : Z) (a : account) (t : table) :
  saveAccount now a t
  = (_ <- prepare_upsert t ;;
     c_user <- stored TEXT (userId a) ;;
     c_platform <- stored TEXT (platform a) ;;
     c_puid <- stored TEXT (platformUserId a) ;;
     c_access <- stored TEXT (accessToken a) ;;
     c_refresh <- stored TEXT (default_null (refreshToken a)) ;;
     c_meta <- stored TEXT (if truthy (default_null (meta a))
                            then match stringify (default_null (meta a)) with
                                 | Some text => VStr text
                                 | None => VUndef
                                 end
                            else VNull) ;;
     c_expires <- stored INTEGER (default_null (expiresAt a)) ;;
     Ok {| unique_user_platform := unique_user_platform t;
           rows := upsert {| Row.user_id := c_user; Row.platform := c_platform;
                             Row.platform_user_id := c_puid;
                             Row.access_token := c_access;
                             Row.refresh_token := c_refresh;
                             Row.meta_json := c_meta;
                             Row.expires_at := c_expires;
                             Row.created_at := now |} (rows t) |}).
Proof.
  unfold saveAccount, stored.
  destruct (prepare_upsert t); cbn [bind]; [|reflexivity].
  destruct (bind_value (userId a)); cbn [bind]; [|reflexivity].
  destruct (bind_value (platform a)); cbn [bind]; [|reflexivity].
  destruct (bind_value (platformUserId a)); cbn [bind]; [|reflexivity].
  destruct (bind_value (accessToken a)); cbn [bind]; [|reflexivity].
  destruct (bind_value (default_null (refreshToken a))); cbn [bind]; [|reflexivity].
  match goal with
  | |- context [bind (bind_value ?m) _] => destruct (bind_value m)
  end; cbn [bind]; [|reflexivity].
  destruct (bind_value (default_null (expiresAt a))); reflexivity.
Qed.

(** What a successful [saveAccount] stored, column by column. *)
Lemma saveAccount_row (now : Z) (a : account) (t t' : table) :
  saveAccount now a t = Ok t' ->
  exists new,
    t' = {| unique_user_platform := unique_user_platform t;
            rows := upsert new (rows t) |}
    /\ unique_user_platform t = true
    /\ stored TEXT (userId a) = Ok (Row.user_id new)
    /\ stored TEXT (platform a) = Ok (Row.platform new)
    /\ stored TEXT (platformUserId a) = Ok (Row.platform_user_id new)
    /\ stored TEXT (accessToken a) = Ok (Row.access_token new)
    /\ stored TEXT (default_null (refreshToken a)) = Ok (Row.refresh_token new)
    /\ stored TEXT (if truthy (default_null (meta a))
                    then match stringify (default_null (meta a)) with
                         | Some text => VStr text
                         | None => VUndef
                         end
                    else VNull) = Ok (Row.meta_json new)
    /\ stored INTEGER (default_null (expiresAt a)) = Ok (Row.expires_at new)
    /\ Row.created_at new = now.
Proof.
  unfold saveAccount, prepare_upsert, stored.
  destruct (unique_user_platform t); cbn [bind]; [|discriminate].
  destruct (bind_value (userId a)) as [c1|]; cbn [bind]; [|discriminate].
  destruct (bind_value (platform a)) as [c2|]; cbn [bind]; [|discriminate].
  destruct (bind_value (platformUserId a)) as [c3|]; cbn [bind]; [|discriminate].
  destruct (bind_value (accessToken a)) as [c4|]; cbn [bind]; [|discriminate].
  destruct (bind_value (default_null (refreshToken a))) as [c5|]; cbn [bind]; [|discriminate].
  match goal with
  | |- context [bind (bind_value ?m) _] =>
      destruct (bind_value m) as [c6|]; cbn [bind]; [|discriminate]
  end.
  destruct (bind_value (default_null (expiresAt a))) as [c7|]; cbn [bind]; [|discriminate].
  intros H. inversion H. eexists. repeat split.
Qed.

(** What the columns keep: undefined as NULL, a number given to a TEXT
    column as its text, a string with U+FFFD in place of a lone surrogate,
    NaN as NULL, and in the INTEGER column a numeric text as its number. *)
Lemma stored_examples :
  stored TEXT VUndef = Ok SqlNull
  /\ stored TEXT (VNum (Dec 12345 0)) = Ok (SqlText (js "12345.0"))
  /\ stored TEXT (VNum (Dec 15 (-1))) = Ok (SqlText (js "1.5"))
  /\ stored TEXT (VStr [116; 55357]) = Ok (SqlText [116; 65533])
  /\ stored TEXT (VBool true) = Throw TypeError
  /\ stored INTEGER (VNum NaN) = Ok SqlNull
  /\ stored INTEGER (VStr (js " 12 ")) = Ok (SqlNum (Dec 12 0))
  /\ stored INTEGER (VStr (js "soon")) = Ok (SqlText (js "soon")).
Proof. repeat split; vm_compute; reflexivity. Qed.

(** Numbers are binary64 values: a literal below the smallest of them is
    read as 0, which is falsy, and a sum beyond 2^53 is rounded. *)
Lemma number_examples :
  parse (js "1e-400") = Ok (VNum (Dec 0 0))
  /\ truthy (VNum (Dec 0 0)) = false
  /\ parse (js "0.1") = Ok (VNum (Dec 1000000000000000055511151231257827021181583404541015625 (-55)))
  /\ stringify (VNum (Dec 1000000000000000055511151231257827021181583404541015625 (-55)))
     = Some (js "0.1")
  /\ seconds_after 9007199254740992 1 = Dec 9007199254740992 0
  /\ seconds_after 1700000000 3599 = Dec 1700003599 0.
Proof. repeat split; vm_compute; reflexivity. Qed.

(** X12.  [saveAccount] succeeds exactly when the table carries the key and
    each of [userId], [platform], [platformUserId], [accessToken],
    [refreshToken] and [expiresAt] is undefined, null, a number or a string;
    [meta] never makes it fail.  A call that fails raises the engine's error
    on a table without the key and a TypeError otherwise. *)
Theorem saveAccount_accepts (now : Z) (a : account) (t : table) :
  ((exists t', saveAccount now a t = Ok t') <->
   unique_user_platform t = true
   /\ bindable (userId a) = true /\ bindable (platform a) = true
   /\ bindable (platformUserId a) = true /\ bindable (accessToken a) = true
   /\ bindable (refreshToken a) = true
   /\ bindable (expiresAt a) = true)
  /\ (forall e, saveAccount now a t = Throw e ->
        (e = SqliteError /\ unique_user_platform t = false)
        \/ (e = TypeError /\ unique_user_platform t = true)).
Proof.
  assert (Hdef : forall v, bindable (default_null v) = bindable v)
    by (intros [| |?|?|?|?|?]; reflexivity).
  assert (Hst : forall c v x, stored c v = Ok x -> exists b, bind_value v = Ok b).
  { intros c v x. unfold stored. destruct (bind_value v) as [b|]; [|discriminate].
    intros _. exists b. reflexivity. }
  split.
  - split.
    + intros [t' Hs].
      destruct (saveAccount_row now a t t' Hs)
        as (new & _ & Hk & H1 & H2 & H3 & H4 & H5 & _ & H7 & _).
      split; [exact Hk|].
      rewrite <- (Hdef (refreshToken a)), <- (Hdef (expiresAt a)).
      repeat split; apply bindable_ok; eapply Hst; eassumption.
    + intros (Hk & H1 & H2 & H3 & H4 & H5 & H7).
      rewrite <- (Hdef (refreshToken a)) in H5. rewrite <- (Hdef (expiresAt a)) in H7.
      apply bindable_ok in H1, H2, H3, H4, H5, H7.
      destruct H1 as [c1 H1], H2 as [c2 H2], H3 as [c3 H3], H4 as [c4 H4],
        H5 as [c5 H5], H7 as [c7 H7].
      destruct (meta_text_binds (default_null (meta a))) as [c6 H6].
      unfold saveAccount, prepare_upsert.
      rewrite Hk, H1, H2, H3, H4, H5, H6, H7. cbn [bind]. eexists. reflexivity.
  - intros e. unfold saveAccount, prepare_upsert.
    destruct (unique_user_platform t); cbn [bind];
      [|intros H; inversion H; left; split; reflexivity].
    destruct (bind_value (userId a)) as [c1|x1] eqn:E1; cbn [bind];
      [|intros H; inversion H; subst; right; split;
        [exact (bind_value_throws _ _ E1)|reflexivity]].
    destruct (bind_value (platform a)) as [c2|x2] eqn:E2; cbn [bind];
      [|intros H; inversion H; subst; right; split;
        [exact (bind_value_throws _ _ E2)|reflexivity]].
    destruct (bind_value (platformUserId a)) as [c3|x3] eqn:E3; cbn [bind];
      [|intros H; inversion H; subst; right; split;
        [exact (bind_value_throws _ _ E3)|reflexivity]].
    destruct (bind_value (accessToken a)) as [c4|x4] eqn:E4; cbn [bind];
      [|intros H; inversion H; subst; right; split;
        [exact (bind_value_throws _ _ E4)|reflexivity]].
    destruct (bind_value (default_null (refreshToken a))) as [c5|x5] eqn:E5; cbn [bind];
      [|intros H; inversion H; subst; right; split;
        [exact (bind_value_throws _ _ E5)|reflexivity]].
    destruct (meta_text_binds (default_null (meta a))) as [c6 H6].
    rewrite H6. cbn [bind].
    destruct (bind_value (default_null (expiresAt a))) as [c7|x7] eqn:E7; cbn [bind];
      [|intros H; inversion H; subst; right; split;
        [exact (bind_value_throws _ _ E7)|reflexivity]].
    discriminate.
Qed.

Lemma upsert_again (new new' : Row.t) (rs : list Row.t) (u p : jsstring) :
  Row.user_id new = SqlText u -> Row.platform new = SqlText p ->
  Row.user_id new' = SqlText u -> Row.platform new' = SqlText p ->
  Row.platform_user_id new' = Row.platform_user_id new ->
  Row.access_token new' = Row.access_token new ->
  Row.refresh_token new' = Row.refresh_token new ->
  Row.meta_json new' = Row.meta_json new ->
  Row.expires_at new' = Row.expires_at new ->
  upsert new' (upsert new rs) = upsert new rs.
Proof.
  intros Hu Hp Hu' Hp' H3 H4 H5 H6 H7.
  assert (Hsame : forall r, conflicts r new' = conflicts r new)
    by (intros r; unfold conflicts; rewrite Hu, Hp, Hu', Hp'; reflexivity).
  induction rs as [|r rs IH].
  - cbn [upsert]. unfold conflicts. rewrite Hu, Hp, Hu', Hp'. cbn [sql_eqb].
    rewrite !str_eqb_refl. cbn [andb]. unfold do_update.
    rewrite H3, H4, H5, H6, H7, Hu, Hp. destruct new; cbn in *; subst; reflexivity.
  - cbn [upsert]. destruct (conflicts r new) eqn:Hc.
    + cbn [upsert].
      replace (conflicts (do_update r new) new') with true
        by (unfold conflicts; cbn [do_update Row.user_id Row.platform];
            fold (conflicts r new'); rewrite Hsame, Hc; reflexivity).
      unfold do_update. cbn [Row.user_id Row.platform Row.created_at
        Row.platform_user_id Row.access_token Row.refresh_token Row.meta_json
        Row.expires_at]. rewrite H3, H4, H5, H6, H7. reflexivity.
    + cbn [upsert]. rewrite Hsame, Hc, IH. reflexivity.
Qed.

(** X13.  Saving is idempotent: after a successful [saveAccount] for a user
    identifier and a platform given as strings, the same call again, at any
    later time, succeeds and leaves the table exactly as it is. *)
Theorem saveAccount_idempotent (now now' : Z) (a : account) (t t1 : table)
  (u p : jsstring) :
  userId a = VStr u -> platform a = VStr p ->
  saveAccount now a t = Ok t1 ->
  saveAccount now' a t1 = Ok t1.
Proof.
  intros Hu Hp Hs.
  destruct (saveAccount_row now a t t1 Hs)
    as (new & -> & Hk & Hbu & Hbp & Hb3 & Hb4 & Hb5 & Hb6 & Hb7 & _).
  rewrite saveAccount_columns. unfold prepare_upsert.
  cbn [unique_user_platform rows]. rewrite Hk, Hbu, Hbp, Hb3, Hb4, Hb5, Hb6, Hb7.
  cbn [bind].
  rewrite Hu, stored_key in Hbu. rewrite Hp, stored_key in Hbp.
  inversion Hbu as [Hnu]. inversion Hbp as [Hnp].
  rewrite (upsert_again new _ (rows t) (to_well_formed u) (to_well_formed p));
    try reflexivity; symmetry; assumption.
Qed.

Lemma saveAccount_idempotent_witness :
  saveAccount 1700000100 second_save
    (match saveAccount 1700000009 second_save holding_u1 with
     | Ok t1 => t1
     | Throw _ => holding_u1
     end)
  = Ok (match saveAccount 1700000009 second_save holding_u1 with
        | Ok t1 => t1
        | Throw _ => holding_u1
        end).
Proof.
  apply (saveAccount_idempotent 1700000009 1700000100 second_save holding_u1 _
           (js "u1") (js "facebook")).
  - reflexivity.
  - reflexivity.
  - vm_compute. reflexivity.
Defined.

Lemma find_upsert (u p : jsstring) (new : Row.t) (rs : list Row.t) :
  selects u p new = true ->
  find (selects u p) (upsert new rs)
  = Some (match find (selects u p) rs with
          | Some r => do_update r new
          | None => new
          end).
Proof.
  intros Hnew. induction rs as [|r rs IH].
  - cbn [upsert find]. rewrite Hnew. reflexivity.
  - cbn [upsert find]. destruct (conflicts r new) eqn:Hc.
    + pose proof (conflicts_selected u p r new Hc Hnew) as Hr.
      cbn [find]. rewrite selects_do_update, Hr. reflexivity.
    + destruct (selects u p r) eqn:Hr.
      * rewrite (selected_conflicts u p r new Hr Hnew) in Hc. discriminate.
      * cbn [find]. rewrite Hr. exact IH.
Qed.

(** *** Texts that are stored as they are *)

Lemma to_well_formed_id (n : nat) :
  forall s, (length s <= n)%nat -> well_formed s = true -> to_well_formed s = s.
Proof.
  induction n as [|n IH]; intros s Hlen H.
  - destruct s; [reflexivity | cbn in Hlen; lia].
  - destruct s as [|c rest]; [reflexivity|].
    cbn [length] in Hlen. cbn [well_formed to_well_formed] in *.
    destruct (is_lead c).
    + destruct rest as [|d rest']; [discriminate|].
      apply andb_prop in H. destruct H as [Ht H]. rewrite Ht.
      cbn [length] in Hlen. rewrite (IH rest') by (try lia; exact H). reflexivity.
    + apply andb_prop in H. destruct H as [Ht H]. apply negb_true_iff in Ht.
      rewrite Ht. rewrite (IH rest) by (try lia; exact H). reflexivity.
Qed.

Lemma well_formed_stored (s : jsstring) :
  well_formed s = true -> stored TEXT (VStr s) = Ok (SqlText s).
Proof.
  intros H. rewrite stored_key. unfold text_param.
  rewrite (to_well_formed_id (length s) s (le_n _) H). reflexivity.
Qed.

Lemma closes_well_nil : closes_well [].
Proof. intros tail H. exact H. Qed.

Lemma closes_well_ascii (c : Z) (x : jsstring) :
  0 <= c < 128 -> closes_well x -> closes_well (c :: x).
Proof.
  intros Hc Hx tail H. cbn [app]. rewrite well_formed_ascii by exact Hc.
  apply Hx. exact H.
Qed.

Lemma closes_well_app (a b : jsstring) :
  closes_well a -> closes_well b -> closes_well (a ++ b).
Proof.
  intros Ha Hb tail H. rewrite <- app_assoc. apply Ha. apply Hb. exact H.
Qed.

Lemma closes_well_quote (s : jsstring) : wf_string s -> closes_well (quote s).
Proof.
  intros Hs tail H. unfold quote. cbn [app]. rewrite <- app_assoc. cbn [app].
  rewrite well_formed_ascii by lia.
  apply (quote_units_well_formed (length s) s _ (le_n _) Hs).
  rewrite well_formed_ascii by lia. exact H.
Qed.

Lemma closes_well_join (parts : list jsstring) :
  Forall closes_well parts -> closes_well (join_comma parts).
Proof.
  induction 1 as [|p more Hp Hmore IH]; [exact closes_well_nil|].
  destruct more as [|p' more']; [exact Hp|].
  change (join_comma (p :: p' :: more')) with (p ++ 44 :: join_comma (p' :: more')).
  apply closes_well_app; [exact Hp|]. apply closes_well_ascii; [lia | exact IH].
Qed.

(** The text of a plain value holds no lone surrogate, whatever follows
    it. *)
Lemma plain_closes_well (v : jsval) :
  plain v = true -> forall text, stringify v = Some text -> closes_well text.
Proof.
  induction v as [| |b|n|s|l IH|l IH] using jsval_nested_ind; intros Hp text Hs;
    try discriminate Hp.
  - inversion Hs. repeat (apply closes_well_ascii; [cbn; lia|]). exact closes_well_nil.
  - destruct b; inversion Hs;
      repeat (apply closes_well_ascii; [cbn; lia|]); exact closes_well_nil.
  - inversion Hs. apply closes_well_quote. apply code_units_wf. exact Hp.
  - cbn [plain] in Hp. rewrite forallb_forall in Hp.
    cbn [stringify] in Hs. inversion Hs.
    apply closes_well_ascii; [lia|]. apply closes_well_app.
    + apply closes_well_join. rewrite Forall_forall in IH |- *.
      intros t Ht. apply in_map_iff in Ht. destruct Ht as (x & <- & Hx).
      destruct (stringify x) as [tx|] eqn:Hsx.
      * exact (IH x Hx (Hp x Hx) tx Hsx).
      * repeat (apply closes_well_ascii; [cbn; lia|]). exact closes_well_nil.
    + apply closes_well_ascii; [lia | exact closes_well_nil].
  - cbn [plain] in Hp. apply andb_prop in Hp. destruct Hp as [Hp _].
    rewrite forallb_forall in Hp.
    cbn [stringify] in Hs. inversion Hs.
    apply closes_well_ascii; [lia|]. apply closes_well_app.
    + apply closes_well_join. rewrite Forall_forall in IH |- *.
      intros t Ht. apply in_flat_map in Ht. destruct Ht as ([k x] & Hkx & Ht).
      specialize (Hp _ Hkx). cbn beta iota in Hp. apply andb_prop in Hp.
      destruct Hp as [Hk Hpx].
      destruct (stringify x) as [tx|] eqn:Hsx; [|destruct Ht].
      destruct Ht as [<- | []].
      apply closes_well_app; [apply closes_well_quote, code_units_wf; exact Hk|].
      apply closes_well_ascii; [lia|]. exact (IH _ Hkx Hpx tx Hsx).
    + apply closes_well_ascii; [lia | exact closes_well_nil].
Qed.

(** The JSON text of a plain value is stored as it is. *)
Lemma plain_text_stored (v : jsval) (text : jsstring) :
  plain v = true -> stringify v = Some text ->
  stored TEXT (VStr text) = Ok (SqlText text).
Proof.
  intros Hp Hs. apply well_formed_stored.
  pose proof (plain_closes_well v Hp text Hs [] eq_refl) as H.
  rewrite app_nil_r in H. exact H.
Qed.

(** What is read back from a column of text, and from the column of the
    expiry. *)
Lemma read_back_text (v : jsval) (c : sqlval) :
  textual v = true -> stored TEXT v = Ok c -> to_js c = read_back v.
Proof.
  destruct v as [| |b|n|s|l|l]; cbn [textual]; intros Ht H; try discriminate Ht;
    cbn in H; inversion H; reflexivity.
Qed.

Lemma read_back_text_default (v : jsval) (c : sqlval) :
  textual v = true -> stored TEXT (default_null v) = Ok c -> to_js c = read_back v.
Proof.
  destruct v as [| |b|n|s|l|l]; cbn [textual]; intros Ht H; try discriminate Ht;
    cbn in H; inversion H; reflexivity.
Qed.

Lemma read_back_number (v : jsval) (c : sqlval) :
  numeric v = true -> stored INTEGER (default_null v) = Ok c -> to_js c = read_back v.
Proof.
  destruct v as [| |b|[m e|s|]|s|l|l]; cbn [numeric]; intros Ht H; try discriminate Ht;
    cbn in H; inversion H; reflexivity.
Qed.

(** X14.  What [saveAccount] stored, [getAccount] finds.  After a successful
    call whose [userId] and [platform] are strings, whose [platformUserId],
    [accessToken] and [refreshToken] are each a string, null or undefined
    and whose [expiresAt] is a number, null or undefined, the record found
    for the pair reads back as the call's values: a string as it was given
    (with U+FFFD in place of a lone surrogate), a number as it was given,
    null for null, undefined and NaN.  Its [meta] is null when the call's was
    missing or falsy, and the call's own when that is a truthy value built
    from null, booleans, strings, arrays and objects under ordinary
    names. *)
Theorem saved_account_is_found (now : Z) (a : account) (t t' : table)
  (u p : jsstring) :
  userId a = VStr u -> platform a = VStr p ->
  textual (platformUserId a) = true -> textual (accessToken a) = true ->
  textual (refreshToken a) = true -> numeric (expiresAt a) = true ->
  saveAccount now a t = Ok t' ->
  exists r,
    find (selects u p) (rows t') = Some r
    /\ to_js (Row.user_id r) = VStr (to_well_formed u)
    /\ to_js (Row.platform r) = VStr (to_well_formed p)
    /\ to_js (Row.platform_user_id r) = read_back (platformUserId a)
    /\ to_js (Row.access_token r) = read_back (accessToken a)
    /\ to_js (Row.refresh_token r) = read_back (refreshToken a)
    /\ to_js (Row.expires_at r) = read_back (expiresAt a)
    /\ (truthy (default_null (meta a)) = false ->
        getAccount u p t' = Ok (Some (r, VNull)))
    /\ (truthy (meta a) = true -> plain (meta a) = true ->
        getAccount u p t' = Ok (Some (r, meta a))).
Proof.
  intros Hu Hp T3 T4 T5 T7 Hs.
  destruct (saveAccount_row now a t t' Hs)
    as (new & -> & _ & Hbu & Hbp & Hb3 & Hb4 & Hb5 & Hb6 & Hb7 & _).
  rewrite Hu, stored_key in Hbu. rewrite Hp, stored_key in Hbp.
  inversion Hbu as [Hnu]. inversion Hbp as [Hnp].
  assert (Hsel : selects u p new = true) by (apply selects_iff; split; congruence).
  pose proof (find_upsert u p new (rows t) Hsel) as Hfind.
  cbn [rows]. unfold getAccount. cbn [rows]. rewrite Hfind.
  eexists. split; [reflexivity|].
  assert (Hcols :
            Row.user_id (match find (selects u p) (rows t) with
                         | Some r => do_update r new | None => new end)
            = text_param u
            /\ Row.platform (match find (selects u p) (rows t) with
                             | Some r => do_update r new | None => new end)
               = text_param p
            /\ Row.platform_user_id (match find (selects u p) (rows t) with
                                     | Some r => do_update r new | None => new end)
               = Row.platform_user_id new
            /\ Row.access_token (match find (selects u p) (rows t) with
                                 | Some r => do_update r new | None => new end)
               = Row.access_token new
            /\ Row.refresh_token (match find (selects u p) (rows t) with
                                  | Some r => do_update r new | None => new end)
               = Row.refresh_token new
            /\ Row.expires_at (match find (selects u p) (rows t) with
                               | Some r => do_update r new | None => new end)
               = Row.expires_at new
            /\ Row.meta_json (match find (selects u p) (rows t) with
                              | Some r => do_update r new | None => new end)
               = Row.meta_json new).
  { destruct (find (selects u p) (rows t)) as [r0|] eqn:Hr0;
      [|repeat split; symmetry; assumption].
    apply find_some in Hr0. destruct Hr0 as [_ Hr0]. apply selects_iff in Hr0.
    destruct Hr0 as [Hu0 Hp0]. repeat split; assumption. }
  destruct Hcols as (H1 & H2 & H3 & H4 & H5 & H7 & H6).
  rewrite H1, H2, H3, H4, H5, H7.
  split; [reflexivity|]. split; [reflexivity|].
  split; [exact (read_back_text _ _ T3 Hb3)|].
  split; [exact (read_back_text _ _ T4 Hb4)|].
  split; [exact (read_back_text_default _ _ T5 Hb5)|].
  split; [exact (read_back_number _ _ T7 Hb7)|].
  split.
  - intros Hfalsy. rewrite Hfalsy in Hb6. cbn in Hb6. inversion Hb6 as [Hm].
    unfold meta_of. rewrite H6, <- Hm. reflexivity.
  - intros Htruthy Hplain.
    assert (Hdef : default_null (meta a) = meta a)
      by (destruct (meta a); try reflexivity; discriminate Htruthy).
    rewrite Hdef, Htruthy in Hb6.
    destruct (parse_stringify_plain (meta a) Hplain) as (text & Htext & Hne & Hparse).
    rewrite Htext, (plain_text_stored (meta a) text Hplain Htext) in Hb6.
    inversion Hb6 as [Hm].
    unfold meta_of. rewrite H6, <- Hm. cbn [to_js Db.to_string truthy].
    destruct text as [|c text]; [contradiction|]. rewrite Hparse. reflexivity.
Qed.

Lemma saved_account_is_found_witness :
  exists r,
    find (selects (js "u1") (js "facebook"))
      (rows (match saveAccount 1700000009 (mkAccount (VStr (js "u1")) (VStr (js "facebook"))
                      (VStr (js "P2")) (VStr [116; 55357]) VUndef
                      (VObj [(js "page_name", VStr (js "My page"))])
                      (VNum (Dec 1700003609 0)))
                   holding_u1 with
             | Ok t' => t'
             | Throw _ => holding_u1
             end)) = Some r
    /\ to_js (Row.platform_user_id r) = VStr (js "P2")
    /\ to_js (Row.access_token r) = VStr [116; 65533]
    /\ to_js (Row.refresh_token r) = VNull
    /\ to_js (Row.expires_at r) = VNum (Dec 1700003609 0)
    /\ getAccount (js "u1") (js "facebook")
         (match saveAccount 1700000009 (mkAccount (VStr (js "u1")) (VStr (js "facebook"))
                      (VStr (js "P2")) (VStr [116; 55357]) VUndef
                      (VObj [(js "page_name", VStr (js "My page"))])
                      (VNum (Dec 1700003609 0)))
                   holding_u1 with
          | Ok t' => t'
          | Throw _ => holding_u1
          end)
       = Ok (Some (r, VObj [(js "page_name", VStr (js "My page"))])).
Proof.
  destruct (saved_account_is_found 1700000009
              (mkAccount (VStr (js "u1")) (VStr (js "facebook"))
                 (VStr (js "P2")) (VStr [116; 55357]) VUndef
                 (VObj [(js "page_name", VStr (js "My page"))])
                 (VNum (Dec 1700003609 0)))
              holding_u1
              (match saveAccount 1700000009 (mkAccount (VStr (js "u1")) (VStr (js "facebook"))
                      (VStr (js "P2")) (VStr [116; 55357]) VUndef
                      (VObj [(js "page_name", VStr (js "My page"))])
                      (VNum (Dec 1700003609 0)))
                   holding_u1 with
               | Ok t' => t'
               | Throw _ => holding_u1
               end)
              (js "u1") (js "facebook") eq_refl eq_refl eq_refl eq_refl eq_refl eq_refl)
    as (r & Hf & _ & _ & H3 & H4 & H5 & H7 & _ & Hm).
  - vm_compute. reflexivity.
  - exists r. split; [exact Hf|].
    split; [exact H3|]. split; [exact H4|]. split; [exact H5|]. split; [exact H7|].
    apply Hm; reflexivity.
Defined.

(** An upsert that meets no record of its pair appends. *)
Lemma upsert_fresh (new : Row.t) (rs : list Row.t) :
  (forall r, In r rs -> conflicts r new = false) -> upsert new rs = rs ++ [new].
Proof.
  induction rs as [|r rs IH]; intros H; [reflexivity|].
  cbn [upsert app]. rewrite (H r) by (left; reflexivity).
  rewrite IH by (intros r' Hr'; apply H; right; exact Hr'). reflexivity.
Qed.

(** X15.  Deleting undoes a first save: when the pair of a user identifier
    and a platform has no record, a successful [saveAccount] for it adds one
    row, and [deleteAccount] for the pair then gives back the table as it
    was. *)
Theorem delete_undoes_first_save (now : Z) (a : account) (t t1 : table)
  (u p : jsstring) :
  userId a = VStr u -> platform a = VStr p ->
  records_of u p t = [] ->
  saveAccount now a t = Ok t1 ->
  length (rows t1) = S (length (rows t)) /\ deleteAccount u p t1 = t.
Proof.
  intros Hu Hp Hnone Hs.
  destruct (saveAccount_row now a t t1 Hs) as (new & -> & _ & Hbu & Hbp & _).
  rewrite Hu, stored_key in Hbu. rewrite Hp, stored_key in Hbp.
  inversion Hbu as [Hnu]. inversion Hbp as [Hnp].
  assert (Hsel : selects u p new = true) by (apply selects_iff; split; congruence).
  assert (Hfresh : upsert new (rows t) = rows t ++ [new]).
  { apply upsert_fresh. intros r Hr.
    destruct (conflicts r new) eqn:Hc; [|reflexivity].
    pose proof (conflicts_selected u p r new Hc Hsel) as Hr'.
    assert (Hin : In r (records_of u p t)) by (apply filter_In; split; assumption).
    rewrite Hnone in Hin. destruct Hin. }
  cbn [rows]. rewrite Hfresh. split.
  - rewrite length_app. cbn [length]. lia.
  - unfold deleteAccount. cbn [rows unique_user_platform].
    rewrite filter_app, (filter_out_absent _ _ Hnone). cbn [filter].
    rewrite Hsel. cbn [negb]. rewrite app_nil_r. destruct t; reflexivity.
Qed.

Lemma delete_undoes_first_save_witness :
  length (rows (match saveAccount 1700000009
                        (mkAccount (VStr (js "u1")) (VStr (js "youtube"))
                           (VStr (js "CH1")) (VStr (js "tokenY")) VNull VNull VNull)
                        holding_u1 with
                | Ok t1 => t1
                | Throw _ => holding_u1
                end))
  = S (length (rows holding_u1))
  /\ deleteAccount (js "u1") (js "youtube")
       (match saveAccount 1700000009
                (mkAccount (VStr (js "u1")) (VStr (js "youtube"))
                   (VStr (js "CH1")) (VStr (js "tokenY")) VNull VNull VNull)
                holding_u1 with
        | Ok t1 => t1
        | Throw _ => holding_u1
        end)
     = holding_u1.
Proof.
  apply (delete_undoes_first_save 1700000009
           (mkAccount (VStr (js "u1")) (VStr (js "youtube"))
              (VStr (js "CH1")) (VStr (js "tokenY")) VNull VNull VNull)
           holding_u1 _ (js "u1") (js "youtube")).
  - reflexivity.
  - reflexivity.
  - reflexivity.
  - vm_compute. reflexivity.
Defined.

(** *** The listing of a user's accounts *)

Lemma meta_of_throws (r : Row.t) (e : exn) : meta_of r = Throw e -> e = SyntaxError.
Proof.
  unfold meta_of, parse. destruct (truthy (to_js (Row.meta_json r))); [|discriminate].
  destruct (parse_value _ _) as [[v rest]|]; [destruct (skip_ws rest)|]; congruence.
Qed.

Lemma with_meta_ok (rs : list Row.t) (l : list (Row.t * jsval)) :
  with_meta rs = Ok l ->
  map fst l = rs /\ Forall (fun a => meta_of (fst a) = Ok (snd a)) l.
Proof.
  revert l. induction rs as [|r rs IH]; intros l H; cbn [with_meta] in H.
  - inversion H. split; [reflexivity | constructor].
  - destruct (meta_of r) as [m|e] eqn:Hm; cbn [bind] in H; [|discriminate].
    destruct (with_meta rs) as [more|e]; cbn [bind] in H; [|discriminate].
    inversion H. destruct (IH more eq_refl) as [Hmap Hall].
    cbn [map fst]. rewrite Hmap. split; [reflexivity|].
    constructor; [exact Hm | exact Hall].
Qed.

Lemma with_meta_throws (rs : list Row.t) :
  (exists e, with_meta rs = Throw e)
  <-> exists r, In r rs /\ meta_of r = Throw SyntaxError.
Proof.
  induction rs as [|r rs IH]; cbn [with_meta].
  - split; [intros [e H]; discriminate | intros (r & [] & _)].
  - destruct (meta_of r) as [m|e] eqn:Hm; cbn [bind].
    + destruct (with_meta rs) as [more|e]; cbn [bind].
      * split; [intros [e H]; discriminate|].
        intros (r' & [<- | Hin] & Hr'); [congruence|].
        destruct (proj2 IH (ex_intro _ r' (conj Hin Hr'))) as [e H]. discriminate.
      * destruct (proj1 IH (ex_intro _ e eq_refl)) as (r' & Hin & Hr').
        split; [intros _; exists r'; split; [right; exact Hin | exact Hr']|].
        intros _. exists e. reflexivity.
    + pose proof (meta_of_throws r e Hm) as ->.
      split; [intros _; exists r; split; [left; reflexivity | exact Hm]|].
      intros _. exists SyntaxError. reflexivity.
Qed.

Lemma with_meta_error (rs : list Row.t) (e : exn) :
  with_meta rs = Throw e -> e = SyntaxError.
Proof.
  induction rs as [|r rs IH]; cbn [with_meta]; [discriminate|].
  destruct (meta_of r) as [m|e'] eqn:Hm; cbn [bind].
  - destruct (with_meta rs) as [more|e']; cbn [bind]; [discriminate|].
    intros H. inversion H; subst. apply IH. reflexivity.
  - intros H. inversion H; subst. exact (meta_of_throws r e Hm).
Qed.

Lemma index_insert_permutation (r : Row.t) (sorted : list Row.t) :
  Permutation (index_insert r sorted) (r :: sorted).
Proof.
  induction sorted as [|x more IH]; [apply Permutation_refl|].
  cbn [index_insert]. destruct (sql_leb (Row.platform x) (Row.platform r)).
  - apply (perm_trans (l' := x :: r :: more)); [apply perm_skip; exact IH | apply perm_swap].
  - apply Permutation_refl.
Qed.

Lemma index_order_permutation (rs : list Row.t) : Permutation (index_order rs) rs.
Proof.
  unfold index_order.
  assert (H : forall acc, Permutation (fold_left (fun sorted r => index_insert r sorted) rs acc)
                            (acc ++ rs)).
  { induction rs as [|r rs IH]; intros acc; cbn [fold_left].
    - rewrite app_nil_r. apply Permutation_refl.
    - apply (perm_trans (IH _)).
      apply (perm_trans (Permutation_app_tail rs (index_insert_permutation r acc))).
      cbn [app]. apply Permutation_middle. }
  exact (H []).
Qed.

(** The rows the query of [getAccountsForUser] selects are the rows of the
    user, each once. *)
Lemma select_user_permutation (u : jsstring) (t : table) :
  Permutation (select_user u t)
    (filter (fun r => sql_eqb (Row.user_id r) (SqlText (to_well_formed u))) (rows t)).
Proof.
  unfold select_user, text_param. destruct (unique_user_platform t);
    [apply index_order_permutation | apply Permutation_refl].
Qed.

Lemma select_user_in (u : jsstring) (t : table) (r : Row.t) :
  In r (select_user u t)
  <-> In r (rows t) /\ Row.user_id r = SqlText (to_well_formed u).
Proof.
  split; intros H.
  - pose proof (Permutation_in r (select_user_permutation u t) H) as Hf.
    apply filter_In in Hf. destruct Hf as [Hin He]. apply sql_eqb_text in He.
    split; assumption.
  - apply (Permutation_in r (Permutation_sym (select_user_permutation u t))).
    apply filter_In. destruct H as [Hin He].
    split; [exact Hin | apply sql_eqb_text; exact He].
Qed.

Lemma octets_leb_total (a b : list Z) : octets_leb a b = false -> octets_leb b a = true.
Proof.
  revert b. induction a as [|x a IH]; intros [|y b]; cbn [octets_leb]; try discriminate;
    try reflexivity.
  destruct (x <? y) eqn:Hxy; [discriminate|].
  destruct (y <? x) eqn:Hyx; [reflexivity|]. apply IH.
Qed.

Lemma sql_leb_total (a b : sqlval) :
  text_or_null a = true -> text_or_null b = true ->
  sql_leb a b = false -> sql_leb b a = true.
Proof.
  destruct a as [|x|x], b as [|y|y]; cbn [text_or_null sql_leb]; try discriminate;
    try reflexivity.
  intros _ _. apply octets_leb_total.
Qed.

Lemma index_insert_by_platform (r : Row.t) (sorted : list Row.t) :
  text_or_null (Row.platform r) = true ->
  Forall (fun x => text_or_null (Row.platform x) = true) sorted ->
  by_platform sorted = true -> by_platform (index_insert r sorted) = true.
Proof.
  intros Hr. induction sorted as [|x more IH]; intros Hall Hs; [reflexivity|].
  inversion Hall as [|? ? Hx Hmore]; subst.
  cbn [index_insert]. destruct (sql_leb (Row.platform x) (Row.platform r)) eqn:Hxr.
  - cbn [by_platform] in Hs. apply andb_prop in Hs. destruct Hs as [Hhead Hs].
    specialize (IH Hmore Hs). destruct more as [|y more'].
    + cbn [index_insert by_platform]. rewrite Hxr. reflexivity.
    + cbn [index_insert] in *.
      destruct (sql_leb (Row.platform y) (Row.platform r)).
      * cbn [by_platform] in *. rewrite Hhead. exact IH.
      * change (by_platform (x :: r :: y :: more'))
          with (sql_leb (Row.platform x) (Row.platform r) && by_platform (r :: y :: more')).
        rewrite Hxr. exact IH.
  - change (by_platform (r :: x :: more))
      with (sql_leb (Row.platform r) (Row.platform x) && by_platform (x :: more)).
    rewrite (sql_leb_total _ _ Hx Hr Hxr). exact Hs.
Qed.

(** The order of the index goes up by platform. *)
Lemma index_order_by_platform (rs : list Row.t) :
  Forall (fun x => text_or_null (Row.platform x) = true) rs ->
  by_platform (index_order rs) = true.
Proof.
  unfold index_order.
  assert (H : forall acc,
             Forall (fun x => text_or_null (Row.platform x) = true) rs ->
             Forall (fun x => text_or_null (Row.platform x) = true) acc ->
             by_platform acc = true ->
             by_platform (fold_left (fun sorted r => index_insert r sorted) rs acc) = true).
  { induction rs as [|r rs IH]; intros acc Hrs Hacc Hs; cbn [fold_left]; [exact Hs|].
    inversion Hrs as [|? ? Hr Hrs']; subst. apply IH; [exact Hrs'| |].
    - apply (Permutation_Forall (Permutation_sym (index_insert_permutation r acc))).
      constructor; assumption.
    - apply index_insert_by_platform; assumption. }
  intros Hrs. apply H; [exact Hrs | constructor | reflexivity].
Qed.

(** X16.  [getAccountsForUser(userId)] lists exactly the records of that
    user, each once and each with its parsed [meta_json].  On a table
    without the key they come in the order of the table; on a table with
    the key in the order of its index, which goes up by platform when the
    platforms are texts or NULL, as a TEXT column holds them.  The call
    throws exactly when a record of the user holds a [meta_json] that is not
    JSON, the exception is a SyntaxError, and the exposure endpoint then
    lets it leave the handler. *)
Theorem listing_of_user (u : jsstring) (t : table) :
  (forall l, getAccountsForUser u t = Ok l ->
     Permutation (map fst l)
       (filter (fun r => sql_eqb (Row.user_id r) (SqlText (to_well_formed u))) (rows t))
     /\ Forall (fun a => In (fst a) (rows t)
                         /\ Row.user_id (fst a) = SqlText (to_well_formed u)
                         /\ meta_of (fst a) = Ok (snd a)) l
     /\ (unique_user_platform t = false ->
         map fst l
         = filter (fun r => sql_eqb (Row.user_id r) (SqlText (to_well_formed u)))
             (rows t))
     /\ (unique_user_platform t = true ->
         map fst l
         = index_order
             (filter (fun r => sql_eqb (Row.user_id r) (SqlText (to_well_formed u)))
                (rows t))
         /\ (Forall (fun r => text_or_null (Row.platform r) = true) (rows t) ->
             by_platform (map fst l) = true)))
  /\ ((exists e, getAccountsForUser u t = Throw e)
      <-> exists r, In r (rows t) /\ Row.user_id r = SqlText (to_well_formed u)
                    /\ meta_of r = Throw SyntaxError)
  /\ (forall e, getAccountsForUser u t = Throw e ->
        e = SyntaxError
        /\ forall cfg req, rejected cfg req = false -> param_userId req = u ->
             credentials cfg req t = Escaped SyntaxError).
Proof.
  unfold getAccountsForUser. split; [|split].
  - intros l H. destruct (with_meta_ok _ l H) as [Hmap Hall]. rewrite Hmap.
    split; [apply select_user_permutation|]. split; [|split].
    + rewrite Forall_forall in Hall |- *. intros a Ha.
      assert (Hin : In (fst a) (map fst l)) by (apply in_map; exact Ha).
      rewrite Hmap in Hin. apply select_user_in in Hin. destruct Hin as [Hin Hu].
      repeat split; [exact Hin | exact Hu | apply Hall; exact Ha].
    + intros Hk. unfold select_user, text_param. rewrite Hk. reflexivity.
    + intros Hk. unfold select_user, text_param. rewrite Hk.
      split; [reflexivity|]. intros Htext. apply index_order_by_platform.
      apply Forall_forall. intros r Hr. apply filter_In in Hr.
      exact (proj1 (Forall_forall _ _) Htext r (proj1 Hr)).
  - rewrite with_meta_throws. split.
    + intros (r & Hin & Hr). apply select_user_in in Hin. destruct Hin as [Hin Hu].
      exists r. repeat split; assumption.
    + intros (r & Hin & Hu & Hr). exists r. split; [|exact Hr].
      apply select_user_in. split; assumption.
  - intros e H. pose proof (with_meta_error _ e H) as ->. split; [reflexivity|].
    intros cfg req Hr Hreq. unfold credentials, getAccountsForUser.
    rewrite Hr, Hreq, H. reflexivity.
Qed.

(** On a table with the key, a record saved later is listed first when
    its platform comes first. *)
Lemma later_record_listed_first :
  exists t l,
    save_all [(1700000002,
               {| userId := VStr (js "u1"); platform := VStr (js "youtube");
                  platformUserId := VStr (js "CH1"); accessToken := VStr (js "tokenY");
                  refreshToken := VNull; meta := VNull; expiresAt := VNull |});
              (1700000009, first_save)] keyed = t
    /\ map Row.platform (rows t) = [SqlText (js "youtube"); SqlText (js "facebook")]
    /\ getAccountsForUser (js "u1") t = Ok l
    /\ map (fun a => Row.platform (fst a)) l
       = [SqlText (js "facebook"); SqlText (js "youtube")].
Proof. eexists _, _. repeat split; vm_compute; reflexivity. Qed.

End Records.

(* ================================================================== *)
(** ** The exposure endpoint: what the token mapping holds *)

Section Exposure.

Import Samples.

Lemma strip_prefix_app (w s : jsstring) : strip_prefix w (w ++ s) = Some s.
Proof.
  induction w as [|c w IH]; [destruct s; reflexivity|].
  cbn [app strip_prefix]. rewrite Z.eqb_refl. exact IH.
Qed.

Lemma replace_first_prefix (pat repl s : jsstring) :
  replace_first pat repl (pat ++ s) = repl ++ s.
Proof.
  destruct (pat ++ s) as [|c r] eqn:He; cbn [replace_first];
    rewrite <- He, strip_prefix_app; reflexivity.
Qed.

Lemma find_ext {A} (f g : A -> bool) (l : list A) :
  (forall x, f x = g x) -> find f l = find g l.
Proof.
  intros H. induction l as [|x l IH]; [reflexivity|].
  cbn [find]. rewrite H, IH. reflexivity.
Qed.

Lemma find_never {A} (l : list A) : find (fun _ => false) l = None.
Proof. induction l as [|x l IH]; [reflexivity | exact IH]. Qed.

Lemma lookup_add_tokens (k : jsstring) (tokens : list (jsstring * jsval))
  (a : Row.t * jsval) :
  lookup k (add_tokens tokens a)
  = if str_eqb k (platform_key a) && negb (str_eqb k (js "__proto__"))
    then Some (token_entry a)
    else lookup k tokens.
Proof.
  destruct a as [r m]. unfold add_tokens, platform_key, token_entry. cbn [fst snd].
  destruct (str_eqb (Db.to_string (Row.platform r)) (js "__proto__")) eqn:Hp.
  - apply str_eqb_eq in Hp. rewrite Hp.
    destruct (str_eqb k (js "__proto__")); reflexivity.
  - rewrite lookup_obj_set.
    destruct (str_eqb k (Db.to_string (Row.platform r))) eqn:Hk; [|reflexivity].
    apply str_eqb_eq in Hk. subst k. rewrite Hp. reflexivity.
Qed.

Lemma lookup_tokens (k : jsstring) (accounts : list (Row.t * jsval))
  (tokens : list (jsstring * jsval)) :
  lookup k (fold_left add_tokens accounts tokens)
  = match find (fun a => str_eqb k (platform_key a)
                         && negb (str_eqb k (js "__proto__"))) (rev accounts) with
    | Some a => Some (token_entry a)
    | None => lookup k tokens
    end.
Proof.
  revert tokens. induction accounts as [|a accounts IH] using rev_ind; intros tokens.
  - reflexivity.
  - rewrite fold_left_app, rev_app_distr. cbn [fold_left rev app find].
    rewrite lookup_add_tokens.
    destruct (str_eqb k (platform_key a) && negb (str_eqb k (js "__proto__")));
      [reflexivity | apply IH].
Qed.

(** X17.  A request that presents [Bearer ] followed by the configured,
    non-empty service token is answered 200 with the user identifier and a
    token mapping in which each platform name holds the entry (access token,
    refresh token, platform user id and meta) of the last listed account of
    that platform; a platform without an account, and the name [__proto__],
    are absent. *)
Theorem tokens_by_platform (cfg : config) (req : credentials_request) (t : table)
  (s : jsstring) (accounts : list (Row.t * jsval)) :
  s <> [] -> SERVICE_TOKEN cfg = Some s ->
  authorization req = Some (js "Bearer " ++ s) ->
  getAccountsForUser (param_userId req) t = Ok accounts ->
  exists tokens,
    credentials cfg req t
    = Responded (SendJson 200 (VObj [(js "userId", VStr (param_userId req));
                                     (js "tokens", VObj tokens)]))
    /\ forall k,
         lookup k tokens
         = if str_eqb k (js "__proto__") then None
           else option_map token_entry
                  (find (fun a => str_eqb k (platform_key a)) (rev accounts)).
Proof.
  intros Hne Hcfg Hauth Hlist.
  exists (fold_left add_tokens accounts []). split.
  - unfold credentials, rejected, serviceToken.
    rewrite Hauth. cbn [option_map]. rewrite (replace_first_prefix (js "Bearer ") [] s).
    cbn [app]. destruct s as [|c s]; [contradiction|].
    rewrite Hcfg, str_eqb_refl. cbn [negb]. rewrite Hlist. reflexivity.
  - intros k. rewrite lookup_tokens. cbn [lookup].
    destruct (str_eqb k (js "__proto__")).
    + rewrite (find_ext _ (fun _ => false)) by (intros a; apply andb_false_r).
      rewrite find_never. reflexivity.
    + rewrite (find_ext _ (fun a => str_eqb k (platform_key a)))
        by (intros a; apply andb_true_r).
      destruct (find _ (rev accounts)); reflexivity.
Qed.

Lemma tokens_by_platform_witness :
  exists tokens,
    credentials with_secret
      {| authorization := Some (js "Bearer s3cret"); param_userId := js "u1" |}
      holding_u1
    = Responded (SendJson 200 (VObj [(js "userId", VStr (js "u1"));
                                     (js "tokens", VObj tokens)]))
    /\ lookup (js "facebook") tokens
       = Some (VObj [(js "access_token", VStr (js "tokenA"));
                     (js "refresh_token", VNull);
                     (js "platform_user_id", VStr (js "P1"));
                     (js "meta", VNull)])
    /\ lookup (js "youtube") tokens = None.
Proof.
  destruct (tokens_by_platform with_secret
              {| authorization := Some (js "Bearer s3cret"); param_userId := js "u1" |}
              holding_u1 (js "s3cret")
              (match getAccountsForUser (js "u1") holding_u1 with
               | Ok l => l
               | Throw _ => []
               end))
    as (tokens & Hc & Hl).
  - discriminate.
  - reflexivity.
  - reflexivity.
  - vm_compute. reflexivity.
  - exists tokens. split; [exact Hc|]. split; rewrite Hl; reflexivity.
Defined.

(** X18.  The endpoint fails closed: when no service token is configured, or
    an empty one, every request is answered 401, whatever it presents. *)
Theorem unset_secret_rejects_all (cfg : config) (req : credentials_request) (t : table) :
  SERVICE_TOKEN cfg = None \/ SERVICE_TOKEN cfg = Some [] ->
  credentials cfg req t = Responded unauthorized.
Proof.
  intros H. apply credentials_rejected. unfold rejected.
  destruct (serviceToken req) as [[|c s]|]; try reflexivity.
  destruct H as [-> | ->]; reflexivity.
Qed.

Lemma unset_secret_rejects_all_witness :
  credentials (mkConfig None None None None None None None None None None None)
    {| authorization := Some (js "Bearer undefined"); param_userId := js "u1" |}
    holding_u1
  = Responded unauthorized.
Proof. apply unset_secret_rejects_all. left. reflexivity. Defined.

End Exposure.

(* ================================================================== *)
(** ** The callbacks: answers, failures and what is handed to the store *)

Section Handled.

Import Samples.

Lemma user_of_state_throws (st : option jsstring) (e : exn) :
  user_of_state st = Throw e -> e = URIError \/ e = SyntaxError \/ e = TypeError.
Proof.
  unfold user_of_state, parse_state, decodeURIComponent, parse.
  destruct st as [[|c s]|]; cbn [bind get_prop lookup]; try discriminate.
  destruct (unescape (c :: s)) as [ts|]; [|intros H; inversion H; auto].
  destruct (utf8_decode ts) as [text|]; [|intros H; inversion H; auto].
  cbn [bind].
  destruct (parse_value _ text) as [[v rest]|]; [|intros H; inversion H; auto].
  destruct (skip_ws rest); [|intros H; inversion H; auto].
  cbn [bind]. destruct v; cbn [get_prop bind]; intros H; inversion H; auto.
Qed.

Lemma try_catch_answers {A} (m : M A) (h : exn -> M A) (s : store) :
  (forall e s', exists r s'', h e s' = (Ok r, s'')) ->
  exists r s', try_catch m h s = (Ok r, s').
Proof.
  intros Hh. unfold try_catch. destruct (m s) as [[a|e] s'].
  - exists a, s'. reflexivity.
  - apply Hh.
Qed.

Lemma run_answers (m : M response) (t : table) :
  (exists r s', m (t, []) = (Ok r, s')) -> exists r, answer m t = Responded r.
Proof.
  intros (r & [t' calls] & H). exists r. unfold answer, run. rewrite H. reflexivity.
Qed.

Lemma meta_always_answers (w : world) (q : query) (t : table) :
  exists r, answer (meta_callback w q) t = Responded r.
Proof.
  apply run_answers. unfold meta_callback. apply try_catch_answers.
  intros e s'. eexists _, _. reflexivity.
Qed.

Lemma callback_with_state_answers (p : provider) (w : world) (q : query) (t : table)
  (u : jsval * jsval) :
  user_of_state (state q) = Ok u -> exists r, answer (callback p w q) t = Responded r.
Proof.
  intros Hu. destruct p; cbn [callback]; [apply meta_always_answers| | | |];
    apply run_answers;
    unfold youtube_callback, x_callback, pinterest_callback, linkedin_callback,
      mbind, lift; rewrite Hu;
    (destruct (code q) as [[|c cs]|];
     [eexists _, _; reflexivity
     | apply try_catch_answers; intros e s'; eexists _, _; reflexivity
     | eexists _, _; reflexivity]).
Qed.

(** [JSON.parse] gives a value, never [undefined]. *)
Lemma parse_defined (text : jsstring) (v : jsval) : parse text = Ok v -> v <> VUndef.
Proof.
  unfold parse. cbn [parse_value].
  destruct (skip_ws text) as [|c rest]; [discriminate|].
  destruct (c =? 123).
  { destruct (skip_ws rest) as [|c1 r1]; [discriminate|].
    destruct (c1 =? 125).
    - destruct (skip_ws r1); intros H; inversion H; discriminate.
    - destruct (parse_members _ (c1 :: r1)) as [[ms r]|]; [|discriminate].
      destruct (skip_ws r); intros H; inversion H; discriminate. }
  destruct (c =? 91).
  { destruct (skip_ws rest) as [|c1 r1]; [discriminate|].
    destruct (c1 =? 93).
    - destruct (skip_ws r1); intros H; inversion H; discriminate.
    - destruct (parse_elems _ (c1 :: r1)) as [[vs r]|]; [|discriminate].
      destruct (skip_ws r); intros H; inversion H; discriminate. }
  destruct (c =? 34).
  { destruct (parse_chars rest) as [[str r]|]; [|discriminate].
    destruct (skip_ws r); intros H; inversion H; discriminate. }
  destruct (c =? 116).
  { destruct (strip_prefix (js "rue") rest) as [r|]; cbn [option_map]; [|discriminate].
    destruct (skip_ws r); intros H; inversion H; discriminate. }
  destruct (c =? 102).
  { destruct (strip_prefix (js "alse") rest) as [r|]; cbn [option_map]; [|discriminate].
    destruct (skip_ws r); intros H; inversion H; discriminate. }
  destruct (c =? 110).
  { destruct (strip_prefix (js "ull") rest) as [r|]; cbn [option_map]; [|discriminate].
    destruct (skip_ws r); intros H; inversion H; discriminate. }
  destruct (parse_number (c :: rest)) as [[n r]|]; [|discriminate].
  destruct (skip_ws r); intros H; inversion H; discriminate.
Qed.

(** The states the callbacks take for no user: absent, empty, or decoding
    to a JSON value other than null whose [user_id] is missing or falsy. *)
Lemma user_of_lenient_state (st : option jsstring) :
  (st = None \/ st = Some []
   \/ exists s text v,
        st = Some s /\ decodeURIComponent s = Ok text /\ parse text = Ok v
        /\ v <> VNull /\ truthy (get_prop_opt v (js "user_id")) = false) ->
  exists user_id,
    user_of_state st = Ok (user_id, unknown) /\ truthy user_id = false.
Proof.
  intros [-> | [-> | (s & text & v & -> & Hdec & Hparse & Hnull & Hfalsy)]].
  - exists VUndef. split; reflexivity.
  - exists VUndef. split; reflexivity.
  - exists (get_prop_opt v (js "user_id")). split; [|exact Hfalsy].
    pose proof (parse_defined text v Hparse) as Hdef.
    unfold user_of_state, parse_state.
    destruct s as [|c s]; [cbn in Hdec; inversion Hdec; subst text; discriminate Hparse|].
    rewrite Hdec. cbn [bind]. rewrite Hparse. cbn [bind].
    assert (Hget : get_prop v (js "user_id") = Ok (get_prop_opt v (js "user_id"))).
    { unfold get_prop_opt. destruct v; try reflexivity; contradiction. }
    rewrite Hget. cbn [bind]. unfold js_or. rewrite Hfalsy. reflexivity.
Qed.

(** C3.  When the state parameter is absent or empty, or decodes to a JSON
    value other than null whose [user_id] is missing or falsy, a callback
    that carries a code does not fail on the state: it goes on as the
    exchange of its provider for the user identifier [unknown], every
    account that exchange hands to [saveAccount] is filed under [unknown],
    and the request is answered. *)
Theorem lenient_state (p : provider) (w : world) (q : query) (t : table)
  (c : Z) (cs : jsstring) :
  code q = Some (c :: cs) ->
  (state q = None \/ state q = Some []
   \/ exists s text v,
        state q = Some s /\ decodeURIComponent s = Ok text /\ parse text = Ok v
        /\ v <> VNull /\ truthy (get_prop_opt v (js "user_id")) = false) ->
  exists user_id,
    user_of_state (state q) = Ok (user_id, unknown)
    /\ run (callback p w q) t = run (exchange p w user_id unknown (c :: cs)) t
    /\ Forall (fun a => userId a = unknown) (saved (callback p w q) t)
    /\ exists r, answer (callback p w q) t = Responded r.
Proof.
  intros Hc Hst. destruct (user_of_lenient_state (state q) Hst) as (user_id & Hu & _).
  exists user_id. split; [exact Hu|]. split; [|split].
  - apply callback_is_exchange; assumption.
  - unfold saved. rewrite (callback_is_exchange p w q t _ _ c cs Hu Hc).
    apply exchange_files_under.
  - exact (callback_with_state_answers p w q t _ Hu).
Qed.

Lemma lenient_state_witness :
  exists user_id,
    user_of_state (Some (js "%7B%22user_id%22%3A%22%22%7D")) = Ok (user_id, unknown)
    /\ run (callback LinkedIn (token_world hourly)
              {| code := Some (js "AUTHCODE");
                 state := Some (js "%7B%22user_id%22%3A%22%22%7D") |}) keyed
       = run (exchange LinkedIn (token_world hourly) user_id unknown (js "AUTHCODE"))
           keyed
    /\ Forall (fun a => userId a = unknown)
         (saved (callback LinkedIn (token_world hourly)
                   {| code := Some (js "AUTHCODE");
                      state := Some (js "%7B%22user_id%22%3A%22%22%7D") |}) keyed)
    /\ exists r,
         answer (callback LinkedIn (token_world hourly)
                   {| code := Some (js "AUTHCODE");
                      state := Some (js "%7B%22user_id%22%3A%22%22%7D") |}) keyed
         = Responded r.
Proof.
  apply (lenient_state LinkedIn (token_world hourly)
           {| code := Some (js "AUTHCODE");
              state := Some (js "%7B%22user_id%22%3A%22%22%7D") |} keyed
           65 (js "UTHCODE")).
  - reflexivity.
  - right. right.
    exists (js "%7B%22user_id%22%3A%22%22%7D"), (state_text []),
      (VObj [(js "user_id", VStr [])]).
    split; [reflexivity|]. split; [vm_compute; reflexivity|].
    split; [vm_compute; reflexivity|]. split; [discriminate | reflexivity].
Defined.

Lemma callback_bad_state (p : provider) (w : world) (q : query) (t : table) (e : exn) :
  p <> Meta -> user_of_state (state q) = Throw e ->
  run (callback p w q) t = (Escaped e, t, []).
Proof.
  intros Hp Hu. destruct p; [contradiction| | | |]; cbn [callback];
    unfold youtube_callback, x_callback, pinterest_callback, linkedin_callback,
      run, mbind, lift; rewrite Hu; reflexivity.
Qed.

(** X19.  An exception leaves a callback, so that the route sends no answer,
    exactly when the provider is not Meta and reading the state throws; the
    exception is then a URIError, a SyntaxError or a TypeError.  The Meta
    callback always answers. *)
Theorem callback_escapes_on_state_only (p : provider) (w : world) (q : query)
  (t : table) (e : exn) :
  (answer (callback p w q) t = Escaped e
   <-> p <> Meta /\ user_of_state (state q) = Throw e)
  /\ (user_of_state (state q) = Throw e ->
      e = URIError \/ e = SyntaxError \/ e = TypeError).
Proof.
  split; [|apply user_of_state_throws]. split.
  - intros He. destruct (user_of_state (state q)) as [u|e0] eqn:Hu.
    + destruct (callback_with_state_answers p w q t u Hu) as [r Hr]. congruence.
    + assert (Hp : p <> Meta).
      { intros ->. destruct (meta_always_answers w q t) as [r Hr].
        cbn [callback] in He. congruence. }
      split; [exact Hp|]. unfold answer in He.
      rewrite (callback_bad_state p w q t e0 Hp Hu) in He. cbn [fst] in He.
      inversion He. reflexivity.
  - intros [Hp Hu]. unfold answer. rewrite (callback_bad_state p w q t e Hp Hu).
    reflexivity.
Qed.

(** X20.  When the token request of a callback fails, the callback answers
    500 with the text of its provider, hands nothing to [saveAccount] and
    leaves the table as it is. *)
Theorem failed_token_request (p : provider) (w : world) (q : query) (t : table)
  (c : Z) (cs : jsstring) (u : jsval * jsval) (e : exn) :
  code q = Some (c :: cs) -> user_of_state (state q) = Ok u ->
  token_request p w (c :: cs) = Throw e ->
  run (callback p w q) t = (Responded (Send 500 [Text (failed_text p)]), t, []).
Proof.
  intros Hc Hu Htok. destruct q as [qc qs]. cbn [code state] in Hc, Hu. subst qc.
  destruct p; cbn [callback token_request failed_text] in *; unfold_routes;
    unfold run, mbind, lift, try_catch, ret; cbn [code state];
    rewrite Hu, Htok; reflexivity.
Qed.

Lemma failed_token_request_witness :
  run (callback LinkedIn offline with_code) holding_u1
  = (Responded (Send 500 [Text (js "LinkedIn OAuth Error")]), holding_u1, []).
Proof.
  apply (failed_token_request LinkedIn offline with_code holding_u1 65 (js "UTHCODE")
           (VStr (js "u1"), VStr (js "u1")) HttpError).
  - reflexivity.
  - vm_compute. reflexivity.
  - reflexivity.
Defined.

(** Takes apart, innermost first, the case distinctions of the unfolded
    handler in [H]. *)
Ltac cases_of H :=
  repeat match type of H with
  | context [match ?x with _ => _ end] =>
      lazymatch x with
      | context [match _ with _ => _ end] => fail
      | _ => destruct x eqn:?
      end;
      cbn [fst snd length app bind] in H; try discriminate H
  end.

Ltac unfold_handler H :=
  unfold meta_callback, youtube_callback, x_callback, pinterest_callback,
    linkedin_callback, meta_exchange, youtube_exchange, x_exchange,
    pinterest_exchange, linkedin_exchange, meta_failed, youtube_failed,
    x_failed, pinterest_failed, linkedin_failed,
    mbind, lift, try_catch, ret, save in H;
  cbn [code state fst snd length app] in H.

(** *** The expiry that is stored *)












(** A YouTube account without a channel is stored all the same: the
    identifier is undefined, which is kept as NULL, and the callback
    answers 200. *)
Lemma youtube_without_channel :
  run (youtube_callback (without_identity hourly) with_code) keyed
  = (Responded (Send 200 [Text (js "<h3>YouTube connected!</h3><p>Channel: ");
                          Val VUndef; Text (js "</p>")]),
     {| unique_user_platform := true;
        rows := [ {| Row.user_id := SqlText (js "u1");
                     Row.platform := SqlText (js "youtube");
                     Row.platform_user_id := SqlNull;
                     Row.access_token := SqlText (js "ACCESS");
                     Row.refresh_token := SqlText (js "REFRESH");
                     Row.meta_json := SqlText (js "{}");
                     Row.expires_at := SqlNum (Dec 1700003599 0);
                     Row.created_at := 1700000002 |} ] |},
     [ {| userId := VStr (js "u1"); platform := VStr (js "youtube");
          platformUserId := VUndef; accessToken := VStr (js "ACCESS");
          refreshToken := VStr (js "REFRESH");
          meta := VObj [(js "snippet", VUndef)];
          expiresAt := VNum (Dec 1700003599 0) |} ]).
Proof. vm_compute. reflexivity. Qed.

(** X21.  A callback that carries a code and answers 200 has stored what it
    handed over: at least one account was handed to [saveAccount], and every
    call succeeded, one after the other, leaving the table the callback
    leaves. *)
Theorem answered_ok_means_stored (p : provider) (w : world) (q : query) (t : table)
  (c : Z) (cs : jsstring) (body : list frag) :
  code q = Some (c :: cs) ->
  answer (callback p w q) t = Responded (Send 200 body) ->
  saved (callback p w q) t <> []
  /\ store_each w 0 (saved (callback p w q) t) t
     = Ok (table_after (callback p w q) t).
Proof.
  intros Hc H200. destruct q as [qc qs]. cbn [code] in Hc. subst qc.
  unfold answer, saved, table_after, run in *.
  destruct (callback p w _ (t, [])) as [[r|e] [t' calls]] eqn:Hrun;
    cbn [fst snd] in *; [|discriminate H200].
  inversion H200 as [Hr]. subst r. clear H200.
  destruct p; cbn [callback] in Hrun; unfold_handler Hrun; cases_of Hrun;
    inversion Hrun; subst; (split; [discriminate|]); cbn [store_each bind];
    repeat match goal with
    | E : saveAccount _ _ _ = Ok _ |- _ => rewrite E; clear E; cbn [bind]
    end; reflexivity.
Qed.

Lemma answered_ok_means_stored_witness :
  saved (callback X (token_world hourly) with_code) keyed <> []
  /\ store_each (token_world hourly) 0
       (saved (callback X (token_world hourly) with_code) keyed) keyed
     = Ok (table_after (callback X (token_world hourly) with_code) keyed).
Proof.
  apply (answered_ok_means_stored X (token_world hourly) with_code keyed
           65 (js "UTHCODE") [Text (js "<h3>X connected!</h3>")]).
  - reflexivity.
  - vm_compute. reflexivity.
Defined.

(** X22.  A callback hands to [saveAccount] nothing, or one account under
    the platform name of its provider, or, for Meta only, a facebook account
    followed by an instagram account. *)
Theorem saved_platforms (p : provider) (w : world) (q : query) (t : table) :
  map platform (saved (callback p w q) t) = []
  \/ map platform (saved (callback p w q) t) = [VStr (platform_name p)]
  \/ (p = Meta
      /\ map platform (saved (callback p w q) t)
         = [VStr (js "facebook"); VStr (js "instagram")]).
Proof.
  destruct q as [qc qs]. unfold saved, run.
  destruct (callback p w _ (t, [])) as [[r|e] [t' calls]] eqn:Hrun; cbn [fst snd];
    destruct p; cbn [callback platform_name] in *; unfold_handler Hrun; cases_of Hrun;
    inversion Hrun; subst; cbn [map platform]; auto.
Qed.

(** The state a start route builds decodes to the object it was built
    from. *)
Lemma encoded_state_decodes (u : jsstring) :
  wf_string u ->
  exists st, encode_state u = Ok st
             /\ parse_state (Some st) = Ok (VObj [(js "user_id", VStr u)]).
Proof.
  intros Hwf.
  destruct (decode_encode (state_text u) (state_text_wf u Hwf)
              (state_text_well_formed u Hwf)) as (st & Henc & Hdec).
  exists st. unfold encode_state. rewrite stringify_state. cbn [text_of].
  split; [exact Henc|]. unfold parse_state.
  destruct st as [|c st']; [cbn in Hdec; discriminate|].
  rewrite Hdec. cbn [bind]. apply parse_state_text. exact Hwf.
Qed.

(** X8.  Every start route answers 400 with [Missing user_id] when
    [user_id] is missing or empty; for any other user identifier it
    redirects to the authorization URL of its provider, with the query of
    that provider, in which the parameter [state] is
    [encodeURIComponent(JSON.stringify({ user_id }))]; that state decodes
    to the object it was built from. *)
Theorem start_needs_user_id (p : provider) (cfg : config) :
  start p cfg None = Responded (Send 400 [Text (js "Missing user_id")])
  /\ start p cfg (Some []) = Responded (Send 400 [Text (js "Missing user_id")])
  /\ (forall u, wf_string u -> u <> [] ->
      exists st,
        encode_state u = Ok st
        /\ start p cfg (Some u)
           = Responded (RedirectTo (authorization_endpoint p)
                          (authorization_query p cfg st))
        /\ In (js "state", VStr st) (authorization_query p cfg st)
        /\ parse_state (Some st) = Ok (VObj [(js "user_id", VStr u)])).
Proof.
  split; [destruct p; reflexivity|]. split; [destruct p; reflexivity|].
  intros u Hwf Hne. destruct (encoded_state_decodes u Hwf) as (st & Hst & Hdec).
  destruct u as [|c u]; [contradiction|].
  exists st. split; [exact Hst|]. split; [|split; [|exact Hdec]].
  - destruct p; cbn [start authorization_endpoint authorization_query];
      unfold meta_start, youtube_start, x_start, pinterest_start, linkedin_start;
      rewrite Hst; reflexivity.
  - destruct p; cbn [authorization_query In]; tauto.
Qed.

Lemma start_needs_user_id_witness :
  exists st,
    encode_state (js "u1") = Ok st
    /\ start X with_secret (Some (js "u1"))
       = Responded (RedirectTo (js "https://twitter.com/i/oauth2/authorize?")
                      (authorization_query X with_secret st))
    /\ In (js "state", VStr st) (authorization_query X with_secret st)
    /\ parse_state (Some st) = Ok (VObj [(js "user_id", VStr (js "u1"))]).
Proof.
  apply (proj2 (proj2 (start_needs_user_id X with_secret)) (js "u1")).
  - repeat constructor; unfold is_code_unit; cbn; lia.
  - discriminate.
Defined.

(** X23.  From start to callback: for a non-empty user identifier, the start
    route redirects with a state under which the callback of the provider,
    whatever the code and the providers' answers, files every account it
    hands to [saveAccount] under that user identifier. *)
Theorem records_filed_under_start_user (p : provider) (cfg : config) (w : world)
  (t : table) (u : jsstring) (c : option jsstring) :
  wf_string u -> u <> [] ->
  exists st base params,
    start p cfg (Some u) = Responded (RedirectTo base params)
    /\ In (js "state", VStr st) params
    /\ Forall (fun a => userId a = VStr u)
         (saved (callback p w {| code := c; state := Some st |}) t).
Proof.
  intros Hwf Hne. destruct (encoded_state_decodes u Hwf) as (st & Henc & Hdec).
  assert (Hu : user_of_state (Some st) = Ok (VStr u, VStr u)).
  { unfold user_of_state. rewrite Hdec. cbn [bind get_prop lookup].
    rewrite str_eqb_refl. unfold js_or. destruct u; [contradiction | reflexivity]. }
  exists st.
  assert (Hstart : exists base params,
             start p cfg (Some u) = Responded (RedirectTo base params)
             /\ In (js "state", VStr st) params).
  { destruct u as [|c0 u]; [contradiction|].
    destruct p; cbn [start];
      unfold meta_start, youtube_start, x_start, pinterest_start, linkedin_start;
      rewrite Henc; do 2 eexists; (split; [reflexivity|]); cbn [In]; tauto. }
  destruct Hstart as (base & params & Hs & Hin). exists base, params.
  split; [exact Hs|]. split; [exact Hin|].
  assert (Hnone : forall c', c' = None \/ c' = Some [] ->
            saved (callback p w {| code := c'; state := Some st |}) t = []).
  { intros c' Hc'. destruct p; cbn [callback]; unfold_routes;
      unfold saved, run, mbind, lift, try_catch, ret; cbn [code state];
      rewrite Hu; destruct Hc' as [-> | ->]; reflexivity. }
  destruct c as [[|c0 cs]|].
  - rewrite Hnone by (right; reflexivity). constructor.
  - match goal with
    | |- context [callback p w ?q] => remember q as q0 eqn:Hq
    end.
    assert (Hu0 : user_of_state (state q0) = Ok (VStr u, VStr u))
      by (rewrite Hq; exact Hu).
    assert (Hc0 : code q0 = Some (c0 :: cs)) by (rewrite Hq; reflexivity).
    unfold saved. rewrite (callback_is_exchange p w q0 t _ _ c0 cs Hu0 Hc0).
    apply exchange_files_under.
  - rewrite Hnone by (left; reflexivity). constructor.
Qed.

Lemma records_filed_under_start_user_witness :
  exists st base params,
    start Meta with_secret (Some (js "u1")) = Responded (RedirectTo base params)
    /\ In (js "state", VStr st) params
    /\ Forall (fun a => userId a = VStr (js "u1"))
         (saved (callback Meta page_with_instagram
                   {| code := Some (js "AUTHCODE"); state := Some st |}) keyed).
Proof.
  apply (records_filed_under_start_user Meta with_secret page_with_instagram keyed
           (js "u1") (Some (js "AUTHCODE"))).
  - repeat constructor; unfold is_code_unit; cbn; lia.
  - discriminate.
Defined.

(** X24.  When the token response of YouTube, X, Pinterest or LinkedIn
    reports no duration, every account the callback hands to [saveAccount]
    carries NaN as [expiresAt], which is bound as NULL. *)
Theorem expiry_without_duration (p : provider) (w : world) (q : query) (t : table)
  (c : jsstring) (tok : Token.t) :
  p <> Meta -> code q = Some c ->
  token_request p w c = Ok tok -> Token.expires_in tok = None ->
  Forall (fun a => expiresAt a = VNum NaN
                   /\ bind_value (default_null (expiresAt a)) = Ok SqlNull)
    (saved (callback p w q) t).
Proof.
  intros Hp Hc Htok Hd. destruct q as [qc qs]. cbn [code] in Hc. subst qc.
  apply saved_all.
  destruct p; [contradiction| | | |]; cbn [callback token_request] in *;
    unfold_routes; cbn [code state];
    match goal with
    | |- preserved (all_saved ?P) _ =>
        preserve (all_saved_refl P) (all_saved_trans P)
          ltac:(apply all_saved_save; cbn [expiresAt]; unfold expiry;
                rewrite ?Htok, ?Hd; split; reflexivity)
          ltac:(rewrite ?Htok, ?Hd)
    end.
Qed.

Lemma expiry_without_duration_witness :
  Forall (fun a => expiresAt a = VNum NaN
                   /\ bind_value (default_null (expiresAt a)) = Ok SqlNull)
    (saved (callback Pinterest (token_world (Token.mk (Some (js "ACCESS")) None None))
              with_code) keyed).
Proof.
  apply (expiry_without_duration Pinterest
           (token_world (Token.mk (Some (js "ACCESS")) None None)) with_code keyed
           (js "AUTHCODE") (Token.mk (Some (js "ACCESS")) None None)).
  - discriminate.
  - reflexivity.
  - reflexivity.
  - reflexivity.
Defined.

(** X25.  Every account the callback of YouTube, X, Pinterest or LinkedIn
    hands to [saveAccount] carries the access token of the token response;
    its refresh token is that of the response, except for LinkedIn, where it
    is null whatever the response holds. *)
Theorem saved_tokens_are_the_providers (p : provider) (w : world) (q : query)
  (t : table) (c : jsstring) (tok : Token.t) :
  p <> Meta -> code q = Some c -> token_request p w c = Ok tok ->
  Forall (fun a => accessToken a = of_opt (Token.access_token tok)
                   /\ refreshToken a
                      = match p with
                        | LinkedIn => VNull
                        | _ => of_opt (Token.refresh_token tok)
                        end)
    (saved (callback p w q) t).
Proof.
  intros Hp Hc Htok. destruct q as [qc qs]. cbn [code] in Hc. subst qc.
  apply saved_all.
  destruct p; [contradiction| | | |]; cbn [callback token_request] in *;
    unfold_routes; cbn [code state];
    match goal with
    | |- preserved (all_saved ?P) _ =>
        preserve (all_saved_refl P) (all_saved_trans P)
          ltac:(apply all_saved_save; cbn [accessToken refreshToken];
                rewrite ?Htok; split; reflexivity)
          ltac:(rewrite ?Htok)
    end.
Qed.

Lemma saved_tokens_are_the_providers_witness :
  Forall (fun a => accessToken a = VStr (js "ACCESS") /\ refreshToken a = VNull)
    (saved (callback LinkedIn (token_world hourly) with_code) keyed).
Proof.
  apply (saved_tokens_are_the_providers LinkedIn (token_world hourly) with_code keyed
           (js "AUTHCODE") hourly).
  - discriminate.
  - reflexivity.
  - reflexivity.
Defined.

(** X26.  After a callback of YouTube, X, Pinterest or LinkedIn that answers
    200, the first record of the user and the provider's platform holds
    the access token of the token response, as the column keeps the string
    (U+FFFD in place of a lone surrogate); when the pair had a record
    before, no row was added and the record keeps that record's creation
    time: connecting again replaces the token. *)
Theorem connected_account_is_current (p : provider) (w : world) (q : query) (t : table)
  (c : Z) (cs u a : jsstring) (tok : Token.t) (body : list frag) :
  p <> Meta -> code q = Some (c :: cs) ->
  user_of_state (state q) = Ok (VStr u, VStr u) ->
  token_request p w (c :: cs) = Ok tok -> Token.access_token tok = Some a ->
  answer (callback p w q) t = Responded (Send 200 body) ->
  exists r,
    find (selects u (platform_name p)) (rows (table_after (callback p w q) t)) = Some r
    /\ Row.access_token r = SqlText (to_well_formed a)
    /\ forall r0, find (selects u (platform_name p)) (rows t) = Some r0 ->
         length (rows (table_after (callback p w q) t)) = length (rows t)
         /\ Row.created_at r = Row.created_at r0.
Proof.
  intros Hp Hc Hu Htok Ha H200. destruct q as [qc qs]. cbn [code state] in Hc, Hu. subst qc.
  unfold answer, table_after, run in *.
  destruct (callback p w _ (t, [])) as [[r|e] [t' calls]] eqn:Hrun;
    cbn [fst snd] in *; [|discriminate H200].
  inversion H200 as [Hr]. subst r. clear H200.
  assert (Hsaved : exists acc now,
             saveAccount now acc t = Ok t'
             /\ userId acc = VStr u /\ platform acc = VStr (platform_name p)
             /\ accessToken acc = VStr a).
  { destruct p; [contradiction| | | |]; cbn [callback token_request] in *;
      unfold_handler Hrun; rewrite Hu, Htok in Hrun; cbn [fst snd] in Hrun;
      rewrite Ha in Hrun; cases_of Hrun; inversion Hrun; subst;
      eexists _, _; (split; [eassumption|]); repeat split. }
  destruct Hsaved as (acc & now & Hs & Hau & Hap & Haa).
  destruct (saveAccount_row now acc t t' Hs)
    as (new & -> & _ & Hbu & Hbp & _ & Hb4 & _).
  rewrite Hau, stored_key in Hbu. rewrite Hap, stored_key in Hbp.
  rewrite Haa, stored_key in Hb4.
  inversion Hbu as [Hnu]. inversion Hbp as [Hnp]. inversion Hb4 as [Hna].
  assert (Hsel : selects u (platform_name p) new = true)
    by (apply selects_iff; split; congruence).
  cbn [rows]. rewrite (find_upsert u (platform_name p) new (rows t) Hsel).
  eexists. split; [reflexivity|]. split.
  - destruct (find (selects u (platform_name p)) (rows t)); symmetry; exact Hna.
  - intros r0 Hr0. rewrite Hr0. split; [|reflexivity].
    apply (upsert_length u (platform_name p) new r0); [exact Hsel|].
    apply find_some in Hr0. apply filter_In. exact Hr0.
Qed.

Lemma connected_account_is_current_witness :
  exists r,
    find (selects (js "u1") (js "linkedin"))
      (rows (table_after (callback LinkedIn (token_world hourly) with_code) holding_u1))
    = Some r
    /\ Row.access_token r = SqlText (to_well_formed (js "ACCESS"))
    /\ forall r0, find (selects (js "u1") (js "linkedin")) (rows holding_u1) = Some r0 ->
         length (rows (table_after (callback LinkedIn (token_world hourly) with_code)
                         holding_u1))
         = length (rows holding_u1)
         /\ Row.created_at r = Row.created_at r0.
Proof.
  apply (connected_account_is_current LinkedIn (token_world hourly) with_code holding_u1
           65 (js "UTHCODE") (js "u1") (js "ACCESS") hourly
           [Text (js "<h3>LinkedIn connected!</h3>")]).
  - discriminate.
  - reflexivity.
  - vm_compute. reflexivity.
  - reflexivity.
  - reflexivity.
  - vm_compute. reflexivity.
Defined.

(** *** Meta: a page without an Instagram account *)

(** X27.  When the first page has no connected Instagram account, or one
    whose id is missing or empty, the Meta callback hands exactly one
    account to [saveAccount], the facebook record of the page; it answers
    200 naming the Instagram id [none] when the call succeeds and 500 when
    it throws. *)
Theorem meta_page_without_instagram (w : world) (q : query) (t : table)
  (c : Z) (cs : jsstring) (user_id userId : jsval) (short long : Token.t)
  (page : Page.t) (more : list Page.t) (info : option Instagram.t) :
  code q = Some (c :: cs) ->
  user_of_state (state q) = Ok (user_id, userId) ->
  meta_token w (c :: cs) = Ok short ->
  meta_long w (of_opt (Token.access_token short)) = Ok long ->
  meta_accounts w (of_opt (Token.access_token long)) = Ok (Some (page :: more)) ->
  meta_page w (of_opt (Page.id page)) (of_opt (Page.access_token page)) = Ok info ->
  (info = None
   \/ exists account, info = Some account
        /\ (Instagram.id account = None \/ Instagram.id account = Some [])) ->
  run (meta_callback w q) t
  = match saveAccount (sql_now w 0)
            {| userId := userId;
               platform := VStr (js "facebook");
               platformUserId := of_opt (Page.id page);
               accessToken := of_opt (Page.access_token page);
               refreshToken := VNull;
               meta := VObj [(js "page_name", of_opt (Page.name page))];
               expiresAt := VNull |} t with
    | Ok t1 =>
        (Responded
           (Send 200 [Text (js "<h3>Connected successfully!</h3><p>User: ");
                      Val userId;
                      Text (js ". Instagram ID: ");
                      Val (VStr (js "none"));
                      Text (js ".</p>")]),
         t1,
         [ {| userId := userId;
              platform := VStr (js "facebook");
              platformUserId := of_opt (Page.id page);
              accessToken := of_opt (Page.access_token page);
              refreshToken := VNull;
              meta := VObj [(js "page_name", of_opt (Page.name page))];
              expiresAt := VNull |} ])
    | Throw _ =>
        (Responded (Send 500 [Text (js "Error during Facebook OAuth")]),
         t,
         [ {| userId := userId;
              platform := VStr (js "facebook");
              platformUserId := of_opt (Page.id page);
              accessToken := of_opt (Page.access_token page);
              refreshToken := VNull;
              meta := VObj [(js "page_name", of_opt (Page.name page))];
              expiresAt := VNull |} ])
    end.
Proof.
  intros Hc Hu Hshort Hlong Hpages Hinfo Hnone.
  destruct q as [qc qs]. cbn [code state] in Hc, Hu. subst qc.
  unfold meta_callback, meta_exchange, meta_failed, run, try_catch, mbind, lift,
    ret, save. cbn [code state].
  rewrite Hu. cbn [fst snd]. rewrite Hshort, Hlong, Hpages, Hinfo.
  destruct Hnone as [-> | (account & -> & [-> | ->])];
    cbn [of_opt truthy length app js_or];
    match goal with
    | |- context [saveAccount ?n ?a t] => destruct (saveAccount n a t)
    end; reflexivity.
Qed.

Lemma meta_page_without_instagram_witness :
  run (meta_callback (meta_world long_lived (Some [page1]) None) with_code) keyed
  = match saveAccount 1700000002
            {| userId := VStr (js "u1");
               platform := VStr (js "facebook");
               platformUserId := VStr (js "PAGE1");
               accessToken := VStr (js "PAGETOKEN");
               refreshToken := VNull;
               meta := VObj [(js "page_name", VStr (js "My page"))];
               expiresAt := VNull |} keyed with
    | Ok t1 =>
        (Responded
           (Send 200 [Text (js "<h3>Connected successfully!</h3><p>User: ");
                      Val (VStr (js "u1"));
                      Text (js ". Instagram ID: ");
                      Val (VStr (js "none"));
                      Text (js ".</p>")]),
         t1,
         [ {| userId := VStr (js "u1");
              platform := VStr (js "facebook");
              platformUserId := VStr (js "PAGE1");
              accessToken := VStr (js "PAGETOKEN");
              refreshToken := VNull;
              meta := VObj [(js "page_name", VStr (js "My page"))];
              expiresAt := VNull |} ])
    | Throw _ =>
        (Responded (Send 500 [Text (js "Error during Facebook OAuth")]),
         keyed,
         [ {| userId := VStr (js "u1");
              platform := VStr (js "facebook");
              platformUserId := VStr (js "PAGE1");
              accessToken := VStr (js "PAGETOKEN");
              refreshToken := VNull;
              meta := VObj [(js "page_name", VStr (js "My page"))];
              expiresAt := VNull |} ])
    end.
Proof.
  apply (meta_page_without_instagram (meta_world long_lived (Some [page1]) None)
           with_code keyed 65 (js "UTHCODE") (VStr (js "u1")) (VStr (js "u1"))
           (Token.mk (Some (js "SHORT")) None None) long_lived page1 [] None).
  - reflexivity.
  - vm_compute. reflexivity.
  - reflexivity.
  - reflexivity.
  - reflexivity.
  - reflexivity.
  - left. reflexivity.
Defined.

(** *** From a first connection to the exposure endpoint *)

Lemma filter_nothing {A} (f : A -> bool) (l : list A) :
  (forall x, In x l -> f x = false) -> filter f l = [].
Proof.
  induction l as [|x l IH]; intros H; [reflexivity|].
  cbn [filter]. rewrite (H x) by (left; reflexivity).
  apply IH. intros y Hy. apply H. right. exact Hy.
Qed.

Lemma other_user_no_conflict (u : jsstring) (r new : Row.t) :
  Row.user_id r <> SqlText u -> Row.user_id new = SqlText u -> conflicts r new = false.
Proof.
  intros Hr Hnew. unfold conflicts. rewrite Hnew.
  destruct (sql_eqb (Row.user_id r) (SqlText u)) eqn:He; [|reflexivity].
  apply sql_eqb_text in He. contradiction.
Qed.

Lemma other_user_no_conflict_stored (u : jsstring) (r new : Row.t) :
  Row.user_id r <> SqlText (to_well_formed u) -> Row.user_id new = text_param u ->
  conflicts r new = false.
Proof. intros Hr Hnew. exact (other_user_no_conflict (to_well_formed u) r new Hr Hnew). Qed.

(** X28.  On a table that carries the key and holds no record of the user,
    a Meta callback whose first page has an id, a name, an access token and
    a connected Instagram account answers 200, and the exposure endpoint
    then answers a request with the service token, for that user, with
    exactly two entries: facebook, under the page id with the page name as
    meta, and instagram, under the Instagram id with the page id as meta,
    both with the page access token and no refresh token.  The identifiers
    and the token are given as they were stored: with U+FFFD in place of a
    lone surrogate. *)
Theorem meta_connect_then_credentials
  (w : world) (q : query) (t : table) (cfg : config) (req : credentials_request)
  (c : Z) (cs u pid ptoken name ig secret : jsstring)
  (short long : Token.t) (page : Page.t) (more : list Page.t) (account : Instagram.t) :
  unique_user_platform t = true ->
  (forall r, In r (rows t) -> Row.user_id r <> SqlText (to_well_formed u)) ->
  code q = Some (c :: cs) ->
  user_of_state (state q) = Ok (VStr u, VStr u) ->
  meta_token w (c :: cs) = Ok short ->
  meta_long w (of_opt (Token.access_token short)) = Ok long ->
  meta_accounts w (of_opt (Token.access_token long)) = Ok (Some (page :: more)) ->
  Page.id page = Some pid -> Page.access_token page = Some ptoken ->
  Page.name page = Some name ->
  code_units pid = true -> code_units name = true ->
  meta_page w (VStr pid) (VStr ptoken) = Ok (Some account) ->
  Instagram.id account = Some ig -> ig <> [] ->
  secret <> [] -> SERVICE_TOKEN cfg = Some secret ->
  authorization req = Some (js "Bearer " ++ secret) -> param_userId req = u ->
  answer (meta_callback w q) t
  = Responded (Send 200 [Text (js "<h3>Connected successfully!</h3><p>User: ");
                         Val (VStr u);
                         Text (js ". Instagram ID: ");
                         Val (VStr ig);
                         Text (js ".</p>")])
  /\ credentials cfg req (table_after (meta_callback w q) t)
     = Responded (SendJson 200
         (VObj [(js "userId", VStr u);
                (js "tokens",
                 VObj [(js "facebook",
                        VObj [(js "access_token", VStr (to_well_formed ptoken));
                              (js "refresh_token", VNull);
                              (js "platform_user_id", VStr (to_well_formed pid));
                              (js "meta", VObj [(js "page_name", VStr name)])]);
                       (js "instagram",
                        VObj [(js "access_token", VStr (to_well_formed ptoken));
                              (js "refresh_token", VNull);
                              (js "platform_user_id", VStr (to_well_formed ig));
                              (js "meta", VObj [(js "linked_page", VStr pid)])])])])).
Proof.
  intros Hkey Hfresh Hc Hu Hshort Hlong Hpages Hpid Hptoken Hname Upid Uname
    Hinfo Hig Hne Hsecret Hcfg Hauth Hreq.
  destruct q as [qc qs]. cbn [code state] in Hc, Hu. subst qc.
  destruct (parse_stringify_plain (VObj [(js "page_name", VStr name)]))
    as (text1 & Htext1 & Hne1 & Hparse1);
    [cbn [plain forallb map fst]; rewrite Uname; reflexivity|].
  destruct (parse_stringify_plain (VObj [(js "linked_page", VStr pid)]))
    as (text2 & Htext2 & Hne2 & Hparse2);
    [cbn [plain forallb map fst]; rewrite Upid; reflexivity|].
  pose proof (plain_text_stored (VObj [(js "page_name", VStr name)]) text1
                ltac:(cbn [plain forallb map fst]; rewrite Uname; reflexivity) Htext1)
    as Hst1.
  pose proof (plain_text_stored (VObj [(js "linked_page", VStr pid)]) text2
                ltac:(cbn [plain forallb map fst]; rewrite Upid; reflexivity) Htext2)
    as Hst2.
  destruct ig as [|i ig]; [contradiction|].
  destruct text1 as [|c1 text1]; [contradiction|].
  destruct text2 as [|c2 text2]; [contradiction|].
  set (fb := {| Row.user_id := text_param u; Row.platform := text_param (js "facebook");
                Row.platform_user_id := text_param pid;
                Row.access_token := text_param ptoken;
                Row.refresh_token := SqlNull; Row.meta_json := SqlText (c1 :: text1);
                Row.expires_at := SqlNull; Row.created_at := sql_now w 0 |}).
  set (insta := {| Row.user_id := text_param u;
                   Row.platform := text_param (js "instagram");
                   Row.platform_user_id := text_param (i :: ig);
                   Row.access_token := text_param ptoken;
                   Row.refresh_token := SqlNull; Row.meta_json := SqlText (c2 :: text2);
                   Row.expires_at := SqlNull; Row.created_at := sql_now w 1 |}).
  assert (Hsave1 : forall t0,
             unique_user_platform t0 = true ->
             saveAccount (sql_now w 0)
               {| userId := VStr u; platform := VStr (js "facebook");
                  platformUserId := VStr pid; accessToken := VStr ptoken;
                  refreshToken := VNull;
                  meta := VObj [(js "page_name", VStr name)];
                  expiresAt := VNull |} t0
             = Ok {| unique_user_platform := true; rows := upsert fb (rows t0) |}).
  { intros t0 Hk. rewrite saveAccount_columns. unfold prepare_upsert. rewrite Hk.
    cbn [bind default_null truthy userId platform platformUserId accessToken
           refreshToken meta expiresAt].
    rewrite Htext1, Hst1, !stored_key. reflexivity. }
  assert (Hsave2 : forall t0,
             unique_user_platform t0 = true ->
             saveAccount (sql_now w 1)
               {| userId := VStr u; platform := VStr (js "instagram");
                  platformUserId := VStr (i :: ig); accessToken := VStr ptoken;
                  refreshToken := VNull;
                  meta := VObj [(js "linked_page", VStr pid)];
                  expiresAt := VNull |} t0
             = Ok {| unique_user_platform := true; rows := upsert insta (rows t0) |}).
  { intros t0 Hk. rewrite saveAccount_columns. unfold prepare_upsert. rewrite Hk.
    cbn [bind default_null truthy userId platform platformUserId accessToken
           refreshToken meta expiresAt].
    rewrite Htext2, Hst2, !stored_key. reflexivity. }
  assert (Hrun : run (meta_callback w {| code := Some (c :: cs); state := qs |}) t
                 = (Responded (Send 200 [Text (js "<h3>Connected successfully!</h3><p>User: ");
                                         Val (VStr u);
                                         Text (js ". Instagram ID: ");
                                         Val (VStr (i :: ig));
                                         Text (js ".</p>")]),
                    {| unique_user_platform := true;
                       rows := (rows t ++ [fb]) ++ [insta] |},
                    [ {| userId := VStr u; platform := VStr (js "facebook");
                         platformUserId := VStr pid; accessToken := VStr ptoken;
                         refreshToken := VNull;
                         meta := VObj [(js "page_name", VStr name)];
                         expiresAt := VNull |};
                      {| userId := VStr u; platform := VStr (js "instagram");
                         platformUserId := VStr (i :: ig); accessToken := VStr ptoken;
                         refreshToken := VNull;
                         meta := VObj [(js "linked_page", VStr pid)];
                         expiresAt := VNull |} ])).
  { unfold meta_callback, meta_exchange, meta_failed, run, try_catch, mbind, lift,
      ret, save. cbn [code state].
    rewrite Hu. cbn [fst snd]. rewrite Hshort, Hlong, Hpages, Hpid, Hptoken, Hname.
    cbn [of_opt]. rewrite Hinfo, Hig. cbn [of_opt truthy length app js_or].
    rewrite (Hsave1 t Hkey).
    rewrite upsert_fresh
      by (intros r Hr; apply (other_user_no_conflict_stored u);
          [apply Hfresh; exact Hr | reflexivity]).
    cbn [length app]. rewrite Hsave2 by reflexivity. cbn [rows].
    rewrite upsert_fresh; [reflexivity|].
    intros r Hr. apply in_app_or in Hr. destruct Hr as [Hr | [<- | []]].
    - apply (other_user_no_conflict_stored u); [apply Hfresh; exact Hr | reflexivity].
    - unfold conflicts. cbn [Row.user_id Row.platform fb insta].
      replace (sql_eqb (text_param (js "facebook")) (text_param (js "instagram")))
        with false by reflexivity.
      apply andb_false_r. }
  unfold answer, table_after. rewrite Hrun. cbn [fst snd].
  split; [reflexivity|].
  unfold credentials, rejected, serviceToken.
  rewrite Hauth. cbn [option_map]. rewrite (replace_first_prefix (js "Bearer ") [] secret).
  cbn [app]. destruct secret as [|s0 secret]; [contradiction|].
  rewrite Hcfg, str_eqb_refl. cbn [negb]. rewrite Hreq.
  unfold getAccountsForUser, select_user. cbn [rows unique_user_platform].
  rewrite !filter_app.
  rewrite (filter_nothing _ (rows t)).
  2:{ intros r Hr. destruct (sql_eqb (Row.user_id r) (text_param u)) eqn:He; [|reflexivity].
      apply sql_eqb_text in He. exfalso. exact (Hfresh r Hr He). }
  assert (Hself : sql_eqb (text_param u) (text_param u) = true)
    by (unfold text_param; cbn [sql_eqb]; apply str_eqb_refl).
  cbn [filter app Row.user_id fb insta]. rewrite Hself. cbn [app].
  assert (Horder : index_order [fb; insta] = [fb; insta]) by reflexivity.
  rewrite Horder.
  cbn [with_meta]. unfold meta_of.
  cbn [Row.meta_json to_js truthy Db.to_string fb insta]. rewrite Hparse1, Hparse2.
  reflexivity.
Qed.

Lemma meta_connect_then_credentials_witness :
  answer (meta_callback page_with_instagram with_code) keyed
  = Responded (Send 200 [Text (js "<h3>Connected successfully!</h3><p>User: ");
                         Val (VStr (js "u1"));
                         Text (js ". Instagram ID: ");
                         Val (VStr (js "IG123"));
                         Text (js ".</p>")])
  /\ credentials with_secret
       {| authorization := Some (js "Bearer s3cret"); param_userId := js "u1" |}
       (table_after (meta_callback page_with_instagram with_code) keyed)
     = Responded (SendJson 200
         (VObj [(js "userId", VStr (js "u1"));
                (js "tokens",
                 VObj [(js "facebook",
                        VObj [(js "access_token", VStr (js "PAGETOKEN"));
                              (js "refresh_token", VNull);
                              (js "platform_user_id", VStr (js "PAGE1"));
                              (js "meta", VObj [(js "page_name", VStr (js "My page"))])]);
                       (js "instagram",
                        VObj [(js "access_token", VStr (js "PAGETOKEN"));
                              (js "refresh_token", VNull);
                              (js "platform_user_id", VStr (js "IG123"));
                              (js "meta", VObj [(js "linked_page", VStr (js "PAGE1"))])])])])).
Proof.
  apply (meta_connect_then_credentials page_with_instagram with_code keyed with_secret
           {| authorization := Some (js "Bearer s3cret"); param_userId := js "u1" |}
           65 (js "UTHCODE") (js "u1") (js "PAGE1") (js "PAGETOKEN") (js "My page")
           (js "IG123") (js "s3cret")
           (Token.mk (Some (js "SHORT")) None None) long_lived page1 []
           (Instagram.mk (Some (js "IG123")))).
  - reflexivity.
  - intros r [].
  - reflexivity.
  - vm_compute. reflexivity.
  - reflexivity.
  - reflexivity.
  - reflexivity.
  - reflexivity.
  - reflexivity.
  - reflexivity.
  - reflexivity.
  - reflexivity.
  - reflexivity.
  - reflexivity.
  - discriminate.
  - discriminate.
  - reflexivity.
  - reflexivity.
  - reflexivity.
Defined.

End Handled.

(* ================================================================== *)
(** ** What is written into URLs and headers *)

Section Written.

Lemma hex_upper_unreserved (d : Z) : 0 <= d < 16 -> uri_unreserved (hex_upper d) = true.
Proof.
  intros H. unfold hex_upper, uri_unreserved.
  destruct (Z.ltb_spec d 10).
  - replace ((48 <=? 48 + d) && (48 + d <=? 57)) with true
      by (symmetry; apply andb_true_intro; split; apply Z.leb_le; lia).
    rewrite orb_true_r. reflexivity.
  - replace ((65 <=? 55 + d) && (55 + d <=? 90)) with true
      by (symmetry; apply andb_true_intro; split; apply Z.leb_le; lia).
    reflexivity.
Qed.

Lemma pct_all_safe (bs : list Z) (r : jsstring) :
  Forall is_octet bs -> forallb url_safe r = true ->
  forallb url_safe (pct_all bs ++ r) = true.
Proof.
  intros Hbs Hr. induction Hbs as [|b bs Hb _ IH]; [exact Hr|].
  unfold is_octet in Hb. cbn [pct_all flat_map pct app forallb].
  fold (pct_all bs). rewrite IH. unfold url_safe at 1 2 3.
  rewrite !hex_upper_unreserved by dlia. reflexivity.
Qed.

Lemma encode_cases (n : nat) :
  forall s, (length s <= n)%nat -> wf_string s ->
  if well_formed s
  then exists r, encodeURIComponent s = Ok r /\ forallb url_safe r = true
  else encodeURIComponent s = Throw URIError.
Proof.
  induction n as [|n IH]; intros s Hlen Hwf.
  - destruct s; [|cbn in Hlen; lia]. exists []. split; reflexivity.
  - destruct s as [|c rest]; [exists []; split; reflexivity|].
    cbn [length] in Hlen. inversion Hwf as [|? ? Hc Hrest]; subst.
    cbn [encodeURIComponent well_formed].
    destruct (uri_unreserved c) eqn:Hu.
    + destruct (unreserved_ascii c Hu) as [H37 Hascii].
      assert (Hl : is_lead c = false) by (unfold is_lead; zbool; reflexivity).
      assert (Ht : is_trail c = false) by (unfold is_trail; zbool; reflexivity).
      rewrite Hl, Ht. cbn [negb andb].
      specialize (IH rest ltac:(lia) Hrest).
      destruct (well_formed rest).
      * destruct IH as (r & -> & Hr). exists (c :: r). split; [reflexivity|].
        cbn [forallb]. unfold url_safe at 1. rewrite Hu, Hr. reflexivity.
      * rewrite IH. reflexivity.
    + destruct (is_lead c) eqn:Hl.
      * destruct rest as [|d rest']; [reflexivity|].
        destruct (is_trail d) eqn:Ht; cbn [andb]; [|reflexivity].
        inversion Hrest as [|? ? Hd Hrest']; subst. cbn [length] in Hlen.
        specialize (IH rest' ltac:(lia) Hrest').
        destruct (utf16_pair c d Hl Ht) as [Hsc _].
        destruct (well_formed rest').
        -- destruct IH as (r & -> & Hr). eexists. split; [reflexivity|].
           apply pct_all_safe; [apply utf8_octets; exact Hsc | exact Hr].
        -- rewrite IH. reflexivity.
      * destruct (is_trail c) eqn:Ht; cbn [negb andb]; [reflexivity|].
        specialize (IH rest ltac:(lia) Hrest).
        destruct (utf16_unit c Hc Hl Ht) as [Hsc _].
        destruct (well_formed rest).
        -- destruct IH as (r & -> & Hr). eexists. split; [reflexivity|].
           apply pct_all_safe; [apply utf8_octets; exact Hsc | exact Hr].
        -- rewrite IH. reflexivity.
Qed.

(** X29.  [encodeURIComponent] fails exactly on a string with a surrogate
    that is not half of a pair, with a URIError; on every other string it
    gives a text of unreserved characters and percent signs only. *)
Theorem encodeURIComponent_result (s : jsstring) :
  wf_string s ->
  (well_formed s = true ->
   exists r, encodeURIComponent s = Ok r /\ forallb url_safe r = true)
  /\ (well_formed s = false -> encodeURIComponent s = Throw URIError).
Proof.
  intros Hwf. pose proof (encode_cases (length s) s (le_n _) Hwf) as H.
  destruct (well_formed s); split; intros Hw; try discriminate; exact H.
Qed.

Lemma encodeURIComponent_result_witness :
  (exists r, encodeURIComponent [104; 233; 38; 61; 55357; 56832] = Ok r
             /\ forallb url_safe r = true)
  /\ encodeURIComponent [104; 55357] = Throw URIError.
Proof.
  split.
  - apply (proj1 (encodeURIComponent_result [104; 233; 38; 61; 55357; 56832]
                    ltac:(repeat constructor; unfold is_code_unit; lia))).
    reflexivity.
  - apply (proj2 (encodeURIComponent_result [104; 55357]
                    ltac:(repeat constructor; unfold is_code_unit; lia))).
    reflexivity.
Defined.

(** *** The Basic credentials of the X token request *)

Lemma base64_value_digit (n : Z) :
  0 <= n < 64 -> base64_value (base64_digit n) = Some n /\ base64_digit n <> 61.
Proof.
  intros H. unfold base64_value, base64_digit.
  destruct (Z.ltb_spec n 26); [|destruct (Z.ltb_spec n 52);
    [|destruct (Z.ltb_spec n 62); [|destruct (Z.eqb_spec n 62)]]].
  - replace ((65 <=? 65 + n) && (65 + n <=? 90)) with true
      by (symmetry; apply andb_true_intro; split; apply Z.leb_le; lia).
    split; [f_equal; lia | lia].
  - replace ((65 <=? 71 + n) && (71 + n <=? 90)) with false
      by (symmetry; apply andb_false_intro2; apply Z.leb_gt; lia).
    replace ((97 <=? 71 + n) && (71 + n <=? 122)) with true
      by (symmetry; apply andb_true_intro; split; apply Z.leb_le; lia).
    split; [f_equal; lia | lia].
  - replace ((65 <=? n - 4) && (n - 4 <=? 90)) with false
      by (symmetry; apply andb_false_intro1; apply Z.leb_gt; lia).
    replace ((97 <=? n - 4) && (n - 4 <=? 122)) with false
      by (symmetry; apply andb_false_intro1; apply Z.leb_gt; lia).
    replace ((48 <=? n - 4) && (n - 4 <=? 57)) with true
      by (symmetry; apply andb_true_intro; split; apply Z.leb_le; lia).
    split; [f_equal; lia | lia].
  - subst n. split; [reflexivity | lia].
  - assert (n = 63) by lia. subst n. split; [reflexivity | lia].
Qed.

Lemma base64_decode_base64 (n : nat) :
  forall bs, (length bs <= n)%nat -> Forall is_octet bs ->
  base64_decode (base64 bs) = Some bs.
Proof.
  induction n as [|n IH]; intros bs Hlen Hbs.
  - destruct bs; [reflexivity | cbn in Hlen; lia].
  - destruct bs as [|a [|b [|c rest]]]; [reflexivity| | |].
    + inversion Hbs as [|? ? Ha _]; subst. unfold is_octet in Ha.
      cbn [base64 base64_decode].
      destruct (base64_value_digit (a / 4) ltac:(dlia)) as [-> _].
      destruct (base64_value_digit (a mod 4 * 16) ltac:(dlia)) as [-> _].
      cbn [Z.eqb Pos.eqb]. do 2 f_equal. dlia.
    + inversion Hbs as [|? ? Ha Hbs']; subst. inversion Hbs' as [|? ? Hb _]; subst.
      unfold is_octet in Ha, Hb. cbn [base64 base64_decode].
      destruct (base64_value_digit (a / 4) ltac:(dlia)) as [-> _].
      destruct (base64_value_digit (a mod 4 * 16 + b / 16) ltac:(dlia)) as [-> _].
      destruct (base64_value_digit (b mod 16 * 4) ltac:(dlia)) as [-> H3].
      apply Z.eqb_neq in H3. rewrite H3. cbn [Z.eqb Pos.eqb].
      f_equal. f_equal; [dlia|]. f_equal. dlia.
    + inversion Hbs as [|? ? Ha Hbs']; subst. inversion Hbs' as [|? ? Hb Hbs'']; subst.
      inversion Hbs'' as [|? ? Hc Hrest]; subst.
      unfold is_octet in Ha, Hb, Hc. cbn [length] in Hlen.
      cbn [base64 base64_decode].
      destruct (base64_value_digit (a / 4) ltac:(dlia)) as [-> _].
      destruct (base64_value_digit (a mod 4 * 16 + b / 16) ltac:(dlia)) as [-> _].
      destruct (base64_value_digit (b mod 16 * 4 + c / 64) ltac:(dlia)) as [-> H3].
      destruct (base64_value_digit (c mod 64) ltac:(dlia)) as [-> H4].
      apply Z.eqb_neq in H3, H4. rewrite H3, H4.
      rewrite (IH rest) by (try lia; exact Hrest). cbn [option_map].
      f_equal. f_equal; [dlia|]. f_equal; [dlia|]. f_equal. dlia.
Qed.

Lemma utf8_bytes_octets (n : nat) :
  forall s, (length s <= n)%nat -> wf_string s -> Forall is_octet (utf8_bytes s).
Proof.
  assert (Hfffd : is_scalar 65533) by (right; lia).
  induction n as [|n IH]; intros s Hlen Hwf.
  - destruct s; [constructor | cbn in Hlen; lia].
  - destruct s as [|c rest]; [constructor|].
    cbn [length] in Hlen. inversion Hwf as [|? ? Hc Hrest]; subst.
    cbn [utf8_bytes]. destruct (is_lead c) eqn:Hl.
    + destruct rest as [|d rest']; [apply utf8_octets; exact Hfffd|].
      destruct (is_trail d) eqn:Ht.
      * inversion Hrest as [|? ? Hd Hrest']; subst. cbn [length] in Hlen.
        apply Forall_app. split.
        -- apply utf8_octets. apply (utf16_pair c d Hl Ht).
        -- apply IH; [lia | exact Hrest'].
      * apply Forall_app. split; [apply utf8_octets; exact Hfffd|].
        apply IH; [lia | exact Hrest].
    + destruct (is_trail c) eqn:Ht.
      * apply Forall_app. split; [apply utf8_octets; exact Hfffd|].
        apply IH; [lia | exact Hrest].
      * apply Forall_app. split.
        -- apply utf8_octets. apply (utf16_unit c Hc Hl Ht).
        -- apply IH; [lia | exact Hrest].
Qed.

Lemma utf8_decode_utf8_bytes (n : nat) :
  forall s, (length s <= n)%nat -> wf_string s -> well_formed s = true ->
  utf8_decode (map Esc (utf8_bytes s)) = Some s.
Proof.
  induction n as [|n IH]; intros s Hlen Hwf Hpair.
  - destruct s; [reflexivity | cbn in Hlen; lia].
  - destruct s as [|c rest]; [reflexivity|].
    cbn [length] in Hlen. inversion Hwf as [|? ? Hc Hrest]; subst.
    cbn [utf8_bytes well_formed] in *. destruct (is_lead c) eqn:Hl.
    + destruct rest as [|d rest']; [discriminate|].
      apply andb_prop in Hpair. destruct Hpair as [Ht Hpair]. rewrite Ht.
      inversion Hrest as [|? ? Hd Hrest']; subst. cbn [length] in Hlen.
      destruct (utf16_pair c d Hl Ht) as [Hsc H16].
      rewrite map_app, utf8_decode_utf8 by exact Hsc.
      rewrite (IH rest') by (try lia; assumption). rewrite H16. reflexivity.
    + apply andb_prop in Hpair. destruct Hpair as [Ht Hpair].
      apply negb_true_iff in Ht. rewrite Ht.
      destruct (utf16_unit c Hc Hl Ht) as [Hsc H16].
      rewrite map_app, utf8_decode_utf8 by exact Hsc.
      rewrite (IH rest) by (try lia; assumption). rewrite H16. reflexivity.
Qed.

(** X30.  The Authorization header of the X token request is [Basic ]
    followed by base64 digits that read back, as base64 and then as UTF-8,
    to the client id, a colon and the client secret, whenever these hold no
    surrogate that is not half of a pair. *)
Theorem basic_credentials_read_back (CLIENT_ID CLIENT_SECRET : option jsstring) :
  wf_string (text_of CLIENT_ID ++ 58 :: text_of CLIENT_SECRET) ->
  well_formed (text_of CLIENT_ID ++ 58 :: text_of CLIENT_SECRET) = true ->
  exists payload octets,
    x_authorization CLIENT_ID CLIENT_SECRET = js "Basic " ++ payload
    /\ base64_decode payload = Some octets
    /\ utf8_decode (map Esc octets)
       = Some (text_of CLIENT_ID ++ 58 :: text_of CLIENT_SECRET).
Proof.
  intros Hwf Hpair.
  exists (base64 (utf8_bytes (text_of CLIENT_ID ++ 58 :: text_of CLIENT_SECRET))),
    (utf8_bytes (text_of CLIENT_ID ++ 58 :: text_of CLIENT_SECRET)).
  split; [reflexivity|]. split.
  - apply (base64_decode_base64 _ _ (le_n _)).
    apply (utf8_bytes_octets _ _ (le_n _)). exact Hwf.
  - apply (utf8_decode_utf8_bytes _ _ (le_n _)); assumption.
Qed.

Lemma basic_credentials_read_back_witness :
  exists payload octets,
    x_authorization (Some (js "client")) (Some [112; 228; 223; 8364])
    = js "Basic " ++ payload
    /\ base64_decode payload = Some octets
    /\ utf8_decode (map Esc octets) = Some (js "client" ++ 58 :: [112; 228; 223; 8364]).
Proof.
  apply (basic_credentials_read_back (Some (js "client")) (Some [112; 228; 223; 8364])).
  - repeat constructor; unfold is_code_unit; cbn; lia.
  - reflexivity.
Defined.

End Written.
